(** * MFF-Net: the DecoderC decoder and the training-list loader

    A shallow embedding of [MFF-Net/DecoderC.py] and of [load_list] and
    [load_test_list] from [MFF-Net/dataset.py].

    The decoder is a PyTorch module.  What the Python code itself decides
    is the *wiring*: which layer is applied to which tensor, which reshapes,
    transposes and concatenations happen, and which Python-level checks
    ([assert], tuple unpacking, indexing) guard them.  The numerical content
    of a tensor is IEEE floating point and lives inside the torch kernels,
    so a tensor is embedded as

      - its [shape], a list of integers, on which every torch primitive
        performs the shape checks documented for it, and
      - its [data], a symbolic term recording which primitive was applied
        to which operands (a free algebra over the inputs and the learned
        parameters).

    Two tensors with equal [data] terms are equal under every
    interpretation of the primitives as deterministic functions.

    Python exceptions are results of the error monad [Result]. *)

From Stdlib Require Import String Ascii DecimalString ZArith List Bool Lia.
Import ListNotations.

#[local] Open Scope Z_scope.

Set Implicit Arguments.

(* ------------------------------------------------------------------ *)
(** ** Exceptions and the error monad *)

Inductive PyError : Type :=
| AssertionError      (* a failed [assert] *)
| ValueError          (* tuple unpacking of a shape of the wrong rank *)
| TypeError           (* [None] where a tensor is expected *)
| IndexError          (* list index or tensor dimension out of range *)
| AttributeError      (* reading an attribute that [__init__] did not set *)
| ZeroDivisionError   (* [//] by zero, [0 ** -0.5] *)
| RuntimeError.       (* a shape check inside a torch kernel *)

Inductive Result (A : Type) : Type :=
| Ok (a : A)
| Raise (e : PyError).

Arguments Ok {A} a.
Arguments Raise {A} e.

Definition bind {A B : Type} (c : Result A) (k : A -> Result B) : Result B :=
  match c with
  | Ok a => k a
  | Raise e => Raise e
  end.

Notation "x <- c ;; k" := (bind c (fun x => k))
  (at level 61, c at next level, right associativity).
Notation "' pat <- c ;; k" := (bind c (fun x => match x with pat => k end))
  (at level 61, pat pattern, c at next level, right associativity).

Definition succeeds {A : Type} (c : Result A) : Prop := exists a, c = Ok a.

(** [assert cond] *)
Definition py_assert (cond : bool) : Result unit :=
  if cond then Ok tt else Raise AssertionError.

(** [a // b] on Python integers: floor division, as [Z.div]. *)
Definition floordiv (a b : Z) : Result Z :=
  if b =? 0 then Raise ZeroDivisionError else Ok (a / b).

(** [l[i]] for a Python list, negative indices counting from the end. *)
Definition getitem {A : Type} (l : list A) (i : Z) : Result A :=
  let n := Z.of_nat (length l) in
  let j := if i <? 0 then i + n else i in
  if (0 <=? j) && (j <? n)
  then match nth_error l (Z.to_nat j) with
       | Some a => Ok a
       | None => Raise IndexError
       end
  else Raise IndexError.

(** [[f(i) for i in range(n)]] with a constructor that may raise. *)
Fixpoint for_range {A : Type} (f : Z -> Result A) (start : Z) (n : nat)
  : Result (list A) :=
  match n with
  | O => Ok []
  | S n' => a <- f start ;; r <- for_range f (start + 1) n' ;; Ok (a :: r)
  end.

(* ------------------------------------------------------------------ *)
(** ** Shapes and the shape rules of the torch primitives *)

Definition Shape := list Z.

Definition numel (s : Shape) : Z := fold_right Z.mul 1 s.

Definition valid_shape (s : Shape) : Prop := Forall (fun d => 0 <= d) s.

(** [B, N, C = x.shape] and [B, C, H, W = x.shape] *)
Definition unpack3 (s : Shape) : Result (Z * Z * Z) :=
  match s with
  | [a; b; c] => Ok (a, b, c)
  | _ => Raise ValueError
  end.

Definition unpack4 (s : Shape) : Result (Z * Z * Z * Z) :=
  match s with
  | [a; b; c; d] => Ok (a, b, c, d)
  | _ => Raise ValueError
  end.

(** A dimension argument [d] of a rank-[r] tensor; negative values count
    from the last dimension. *)
Definition dim_index (r : nat) (d : Z) : Result nat :=
  let n := Z.of_nat r in
  if (0 <=? d) && (d <? n) then Ok (Z.to_nat d)
  else if (- n <=? d) && (d <? 0) then Ok (Z.to_nat (d + n))
  else Raise IndexError.

Fixpoint set_nth (i : nat) (v : Z) (s : Shape) : Shape :=
  match s, i with
  | [], _ => []
  | _ :: r, O => v :: r
  | d :: r, S i' => d :: set_nth i' v r
  end.

(** [x.transpose(d0, d1)] *)
Definition transpose_shape (d0 d1 : Z) (s : Shape) : Result Shape :=
  i <- dim_index (length s) d0 ;;
  j <- dim_index (length s) d1 ;;
  Ok (set_nth i (nth j s 0) (set_nth j (nth i s 0) s)).

Fixpoint map_result {A B : Type} (f : A -> Result B) (l : list A)
  : Result (list B) :=
  match l with
  | [] => Ok []
  | a :: r => b <- f a ;; r' <- map_result f r ;; Ok (b :: r')
  end.

Fixpoint distinct (l : list nat) : bool :=
  match l with
  | [] => true
  | a :: r => negb (existsb (Nat.eqb a) r) && distinct r
  end.

(** [x.permute(dims...)]: [dims] names every dimension exactly once. *)
Definition permute_shape (dims : list Z) (s : Shape) : Result Shape :=
  if negb (length dims =? length s)%nat then Raise RuntimeError
  else
    idx <- map_result (dim_index (length s)) dims ;;
    if distinct idx then Ok (map (fun i => nth i s 0) idx)
    else Raise RuntimeError.

(** [x.reshape(tgt...)]: same number of elements; one entry may be [-1] and
    is then inferred, which torch refuses when it is ambiguous. *)
Definition reshape_shape (tgt : Shape) (s : Shape) : Result Shape :=
  if existsb (fun d => d <? -1) tgt then Raise RuntimeError
  else
    match count_occ Z.eq_dec tgt (-1) with
    | O => if numel tgt =? numel s then Ok tgt else Raise RuntimeError
    | 1%nat =>
        let p := numel (remove Z.eq_dec (-1) tgt) in
        if (0 <? p) && (numel s mod p =? 0)
        then Ok (map (fun d => if d =? -1 then numel s / p else d) tgt)
        else Raise RuntimeError
    | _ => Raise RuntimeError
    end.

(** [x.flatten(start)]: dimensions [start ..] are merged into one. *)
Definition flatten_shape (start : Z) (s : Shape) : Result Shape :=
  i <- dim_index (length s) start ;;
  Ok (firstn i s ++ [numel (skipn i s)]).

(** Broadcasting of two shapes, aligned at the last dimension. *)
Fixpoint broadcast_rev (a b : Shape) : Result Shape :=
  match a, b with
  | [], _ => Ok b
  | _, [] => Ok a
  | x :: a', y :: b' =>
      r <- broadcast_rev a' b' ;;
      if x =? y then Ok (x :: r)
      else if x =? 1 then Ok (y :: r)
      else if y =? 1 then Ok (x :: r)
      else Raise RuntimeError
  end.

Definition broadcast_shapes (a b : Shape) : Result Shape :=
  r <- broadcast_rev (rev a) (rev b) ;; Ok (rev r).

(** [a @ b] for operands of rank at least 2 (every use in the decoder has
    rank-4 operands, results of a rank-4 [permute] or [transpose]): the
    last two dimensions are multiplied as matrices, the leading ones are
    broadcast. *)
Definition matmul_shape (a b : Shape) : Result Shape :=
  match rev a, rev b with
  | m :: n :: ba, p :: m' :: bb =>
      if m =? m'
      then r <- broadcast_rev ba bb ;; Ok (rev (p :: n :: r))
      else Raise RuntimeError
  | _, _ => Raise RuntimeError
  end.

(** [torch.cat([a, b], dim)]: operands of shape [(0,)] are skipped (the
    documented legacy rule); otherwise ranks agree and every dimension but
    [dim] agrees. *)
Fixpoint shape_eqb (a b : Shape) : bool :=
  match a, b with
  | [], [] => true
  | x :: a', y :: b' => (x =? y) && shape_eqb a' b'
  | _, _ => false
  end.

Fixpoint cat_dims (i : nat) (a b : Shape) : Result Shape :=
  match a, b, i with
  | x :: a', y :: b', O =>
      if shape_eqb a' b' then Ok (x + y :: a') else Raise RuntimeError
  | x :: a', y :: b', S i' =>
      if x =? y then r <- cat_dims i' a' b' ;; Ok (x :: r)
      else Raise RuntimeError
  | _, _, _ => Raise RuntimeError
  end.

Definition cat_shape (dim : Z) (a b : Shape) : Result Shape :=
  if shape_eqb a [0] then Ok b
  else if shape_eqb b [0] then Ok a
  else if negb (length a =? length b)%nat then Raise RuntimeError
  else i <- dim_index (length a) dim ;; cat_dims i a b.

(** [nn.Fold(output_size, kernel_size, stride, padding)] on a batched
    input [(N, C*kh*kw, L)] (dilation 1): [L] must be the number of sliding
    blocks that the geometry yields.  [PatchEmbed.forward] always passes a
    rank-3 tensor. *)
Definition fold_blocks (out k st pad : Z) : Z :=
  (out + 2 * pad - (k - 1) - 1) / st + 1.

Definition fold_shape (out k st pad : Z * Z) (s : Shape) : Result Shape :=
  match s with
  | [n; ckk; l] =>
      let bh := fold_blocks (fst out) (fst k) (fst st) (fst pad) in
      let bw := fold_blocks (snd out) (snd k) (snd st) (snd pad) in
      if (0 <? fst k) && (0 <? snd k) && (0 <? fst st) && (0 <? snd st)
         && (0 <=? fst pad) && (0 <=? snd pad)
         && (1 <=? fst out) && (1 <=? snd out)
         && negb (ckk =? 0) && negb (l =? 0)
         && (ckk mod (fst k * snd k) =? 0)
         && (l =? bh * bw) && (1 <=? bh) && (1 <=? bw)
      then Ok [n; ckk / (fst k * snd k); fst out; snd out]
      else Raise RuntimeError
  | _ => Raise RuntimeError
  end.

(** [nn.Conv2d(in, out, k, stride, padding)] on a batched input
    [(N, in, H, W)] (every call in the decoder passes rank 4). *)
Definition conv_out (h k st pad : Z) : Z := (h + 2 * pad - (k - 1) - 1) / st + 1.

Definition conv2d_shape (cin cout k st pad : Z) (s : Shape) : Result Shape :=
  match s with
  | [n; c; h; w] =>
      if (c =? cin) && (0 <? k) && (0 <? st) && (0 <=? pad)
         && (k <=? h + 2 * pad) && (k <=? w + 2 * pad)
      then Ok [n; cout; conv_out h k st pad; conv_out w k st pad]
      else Raise RuntimeError
  | _ => Raise RuntimeError
  end.

(** [nn.Linear(in, out)]: the last dimension is [in] and becomes [out]. *)
Definition linear_shape (fin fout : Z) (s : Shape) : Result Shape :=
  match rev s with
  | c :: r => if c =? fin then Ok (rev (fout :: r)) else Raise RuntimeError
  | [] => Raise RuntimeError
  end.

(** [nn.LayerNorm(d)]: the last dimension is [d]. *)
Definition layer_norm_shape (d : Z) (s : Shape) : Result Shape :=
  match rev s with
  | c :: _ => if c =? d then Ok s else Raise RuntimeError
  | [] => Raise RuntimeError
  end.

(** [nn.BatchNorm2d(c)]: rank 4 with [c] channels.  This is the rule of
    the kernel, the only one in evaluation mode.  In training mode, the
    mode of a module as constructed, torch also raises [ValueError] when a
    channel holds a single value ([N * H * W = 1]); the one use is in the
    spatial reduction of an attention, and a statement that such a
    [forward] returns carries the hypothesis that the reduced grid holds
    more than one value per channel. *)
Definition batch_norm2d_shape (c : Z) (s : Shape) : Result Shape :=
  match s with
  | [_; c'; _; _] => if c' =? c then Ok s else Raise RuntimeError
  | _ => Raise RuntimeError
  end.

(** [x.softmax(dim)] *)
Definition softmax_shape (dim : Z) (s : Shape) : Result Shape :=
  _ <- dim_index (length s) dim ;; Ok s.

(* ------------------------------------------------------------------ *)
(** ** Tensors *)

Inductive Op : Type :=
| OLinear (layer : string)
| OLayerNorm (layer : string)
| OConv2d (layer : string)
| OBatchNorm2d (layer : string)
| OFold (layer : string)
| OGELU
| OSigmoid
| OSoftmax (dim : Z)
| OScale (head_dim : Z)          (* [* head_dim ** -0.5] *)
| ODropPath
| OMatmul
| OAdd
| OCat (dim : Z)
| OTranspose (d0 d1 : Z)
| OPermute (dims : list Z)
| OReshape (tgt : Shape)
| OFlatten (start : Z).

Inductive Data : Type :=
| DInput (name : string)          (* an argument of the outermost call *)
| DParam (name : string)          (* an [nn.Parameter] *)
| DApp1 (op : Op) (a : Data)
| DApp2 (op : Op) (a b : Data).

Record Tensor : Type := mkTensor { shape : Shape; data : Data }.

Definition lift1 (op : Op) (f : Shape -> Result Shape) (x : Tensor)
  : Result Tensor :=
  s <- f (shape x) ;; Ok (mkTensor s (DApp1 op (data x))).

Definition lift2 (op : Op) (f : Shape -> Shape -> Result Shape) (x y : Tensor)
  : Result Tensor :=
  s <- f (shape x) (shape y) ;; Ok (mkTensor s (DApp2 op (data x) (data y))).

Definition transpose (d0 d1 : Z) := lift1 (OTranspose d0 d1) (transpose_shape d0 d1).
Definition permute (dims : list Z) := lift1 (OPermute dims) (permute_shape dims).
Definition reshape (tgt : Shape) := lift1 (OReshape tgt) (reshape_shape tgt).
Definition flatten (start : Z) := lift1 (OFlatten start) (flatten_shape start).
Definition softmax (dim : Z) := lift1 (OSoftmax dim) (softmax_shape dim).
Definition matmul := lift2 OMatmul matmul_shape.
Definition add := lift2 OAdd broadcast_shapes.
Definition gelu := lift1 OGELU (fun s => Ok s).
Definition sigmoid := lift1 OSigmoid (fun s => Ok s).
Definition scale_by (head_dim : Z) := lift1 (OScale head_dim) (fun s => Ok s).

(** [torch.cat([x, y], dim)] where [y] may be [None]. *)
Definition cat (dim : Z) (x : Tensor) (y : option Tensor) : Result Tensor :=
  match y with
  | Some y => lift2 (OCat dim) (cat_shape dim) x y
  | None => Raise TypeError
  end.

(** [x.clone()], [x.contiguous()], [nn.Identity()] and [nn.Dropout(0.)]
    return the value they are given. *)
Definition clone (x : Tensor) : Result Tensor := Ok x.
Definition contiguous (x : Tensor) : Result Tensor := Ok x.
Definition identity (x : Tensor) : Result Tensor := Ok x.

(** [torch.randn(dims)] wrapped in [nn.Parameter]: a negative size is
    refused.  (torch also refuses a tensor it cannot store, which depends
    on the machine; a statement that a constructor using [randn] returns
    bounds the sizes by hypothesis.) *)
Definition randn (name : string) (dims : Shape) : Result Tensor :=
  if forallb (fun d => 0 <=? d) dims then Ok (mkTensor dims (DParam name))
  else Raise RuntimeError.

(** [h ** -0.5], kept symbolic; Python raises on a zero base. *)
Definition pow_neg_half (h : Z) : Result Z :=
  if h =? 0 then Raise ZeroDivisionError else Ok h.

(* ------------------------------------------------------------------ *)
(** ** The torch layers used by the decoder *)

(** A layer is the record of the sizes it was constructed with, and
    constructing it is writing the record.  torch allocates the weights
    at that point and raises [RuntimeError] for a negative size or for
    one it cannot store; the constructors below are those of the source
    for sizes torch accepts.  A statement that takes a constructed module
    as given is not affected; a statement that a constructor returns, or
    raises an exception of its own, bounds the sizes by hypothesis. *)

Module Linear.
Record t : Type := mk { name : string; in_features : Z; out_features : Z }.
Definition forward (self : t) : Tensor -> Result Tensor :=
  lift1 (OLinear (name self))
        (linear_shape (in_features self) (out_features self)).
End Linear.

Module LayerNorm.
Record t : Type := mk { name : string; normalized_shape : Z }.
Definition forward (self : t) : Tensor -> Result Tensor :=
  lift1 (OLayerNorm (name self)) (layer_norm_shape (normalized_shape self)).
End LayerNorm.

Module Conv2d.
Record t : Type := mk {
  name : string; in_channels : Z; out_channels : Z;
  kernel_size : Z; stride : Z; padding : Z; groups : Z }.
Definition forward (self : t) : Tensor -> Result Tensor :=
  lift1 (OConv2d (name self))
        (conv2d_shape (in_channels self) (out_channels self)
                      (kernel_size self) (stride self) (padding self)).
End Conv2d.

Module BatchNorm2d.
Record t : Type := mk { name : string; num_features : Z }.
Definition forward (self : t) : Tensor -> Result Tensor :=
  lift1 (OBatchNorm2d (name self)) (batch_norm2d_shape (num_features self)).
End BatchNorm2d.

Module Fold.
Record t : Type := mk {
  name : string; output_size : Z * Z; kernel_size : Z * Z;
  stride : Z * Z; padding : Z * Z }.
Definition forward (self : t) : Tensor -> Result Tensor :=
  lift1 (OFold (name self))
        (fold_shape (output_size self) (kernel_size self)
                    (stride self) (padding self)).
End Fold.

(** [nn.Sequential(nn.Linear(a, b), nn.GELU(), nn.Linear(b, c))] *)
Module LinearGELULinear.
Record t : Type := mk { fc0 : Linear.t; fc2 : Linear.t }.
Definition init (name : string) (a b c : Z) : t :=
  mk (Linear.mk (name ++ ".0") a b) (Linear.mk (name ++ ".2") b c).
Definition forward (self : t) (x : Tensor) : Result Tensor :=
  x <- Linear.forward (fc0 self) x ;;
  x <- gelu x ;;
  Linear.forward (fc2 self) x.
End LinearGELULinear.

(** [to_2tuple] of timm, on an integer. *)
Definition to_2tuple (n : Z) : Z * Z := (n, n).

(* ------------------------------------------------------------------ *)
(** ** [class CrossAttention] *)

Module CrossAttention.

Record t : Type := mk {
  num_heads : Z; dim : Z; dim1 : Z; dim2 : Z;
  scale : Z;                     (* [head_dim], standing for [head_dim ** -0.5] *)
  q1 : Linear.t; proj : Linear.t; k2 : Linear.t; v2 : Linear.t }.

(** [__init__(dim1, dim2, dim, num_heads)], with [qk_scale=None] and
    both drop rates [0.] as at its only construction site. *)
Definition init (name : string) (dim1 dim2 dim num_heads : Z) : Result t :=
  head_dim <- floordiv dim num_heads ;;
  scale <- pow_neg_half head_dim ;;
  Ok (mk num_heads dim dim1 dim2 scale
         (Linear.mk (name ++ ".q1") dim1 dim)
         (Linear.mk (name ++ ".proj") dim dim1)
         (Linear.mk (name ++ ".k2") dim2 dim)
         (Linear.mk (name ++ ".v2") dim2 dim)).

Definition forward (self : t) (fea depth_fea : Tensor) : Result Tensor :=
  '(_, N1, _) <- unpack3 (shape fea) ;;
  '(B, N, _) <- unpack3 (shape depth_fea) ;;
  let C := dim self in
  q1 <- Linear.forward (q1 self) fea ;;
  hd <- floordiv C (num_heads self) ;;
  q1 <- reshape [B; N1; num_heads self; hd] q1 ;;
  q1 <- permute [0; 2; 1; 3] q1 ;;
  k2 <- Linear.forward (k2 self) depth_fea ;;
  hd <- floordiv C (num_heads self) ;;
  k2 <- reshape [B; N; num_heads self; hd] k2 ;;
  k2 <- permute [0; 2; 1; 3] k2 ;;
  v2 <- Linear.forward (v2 self) depth_fea ;;
  hd <- floordiv C (num_heads self) ;;
  v2 <- reshape [B; N; num_heads self; hd] v2 ;;
  v2 <- permute [0; 2; 1; 3] v2 ;;
  k2t <- transpose (-2) (-1) k2 ;;
  attn <- matmul q1 k2t ;;
  attn <- scale_by (scale self) attn ;;
  attn <- softmax (-1) attn ;;
  attn <- identity attn ;;                       (* attn_drop *)
  fea <- matmul attn v2 ;;
  fea <- transpose 1 2 fea ;;
  fea <- reshape [B; N1; C] fea ;;
  fea <- Linear.forward (proj self) fea ;;
  fea <- identity fea ;;                         (* proj_drop *)
  Ok fea.

(** [flops(N1, N2)]; [a*b*c//d*e] is [((a*b*c)//d)*e] in Python. *)
Definition flops (self : t) (N1 N2 : Z) : Result Z :=
  let flops := 0 in
  (* q *)
  let flops := flops + N1 * dim1 self * dim self in
  (* kv *)
  let flops := flops + N2 * dim2 self * dim self * 2 in
  (* qk *)
  q <- floordiv (num_heads self * N1 * dim self) (num_heads self) ;;
  let flops := flops + q * N2 in
  (* att v *)
  q <- floordiv (num_heads self * N1 * dim self) (num_heads self) ;;
  let flops := flops + q * N2 in
  (* proj *)
  let flops := flops + N1 * dim self * dim1 self in
  Ok flops.

End CrossAttention.

(* ------------------------------------------------------------------ *)
(** ** [class Attention] *)

Module Attention.

Record t : Type := mk {
  num_heads : Z; scale : Z; qk_dim : Z;
  q : Linear.t; k : Linear.t; v : Linear.t; proj : Linear.t;
  sr_ratio : Z;
  sr : option (Conv2d.t * BatchNorm2d.t) }.

Definition init (name : string) (dim num_heads qk_ratio sr_ratio : Z)
  : Result t :=
  head_dim <- floordiv dim num_heads ;;
  scale <- pow_neg_half head_dim ;;
  qk_dim <- floordiv dim qk_ratio ;;
  Ok (mk num_heads scale qk_dim
         (Linear.mk (name ++ ".q") dim qk_dim)
         (Linear.mk (name ++ ".k") dim qk_dim)
         (Linear.mk (name ++ ".v") dim dim)
         (Linear.mk (name ++ ".proj") dim dim)
         sr_ratio
         (if 1 <? sr_ratio
          then Some (Conv2d.mk (name ++ ".sr.0") dim dim sr_ratio sr_ratio 0 dim,
                     BatchNorm2d.mk (name ++ ".sr.1") dim)
          else None)).

(** [self.sr(x_)]; the attribute exists only when [sr_ratio > 1], which
    is also the only case in which [forward] reads it. *)
Definition sr_forward (self : t) (x : Tensor) : Result Tensor :=
  match sr self with
  | Some (conv, bn) => x <- Conv2d.forward conv x ;; BatchNorm2d.forward bn x
  | None => Raise AttributeError
  end.

Definition forward (self : t) (x : Tensor) (H W : Z) (relative_pos : Tensor)
  : Result Tensor :=
  '(B, N, C) <- unpack3 (shape x) ;;
  q <- Linear.forward (q self) x ;;
  hd <- floordiv (qk_dim self) (num_heads self) ;;
  q <- reshape [B; N; num_heads self; hd] q ;;
  q <- permute [0; 2; 1; 3] q ;;
  '(k, v) <-
    (if 1 <? sr_ratio self then
       x_ <- permute [0; 2; 1] x ;;
       x_ <- reshape [B; C; H; W] x_ ;;
       x_ <- sr_forward self x_ ;;
       x_ <- reshape [B; C; -1] x_ ;;
       x_ <- permute [0; 2; 1] x_ ;;
       k <- Linear.forward (k self) x_ ;;
       hd <- floordiv (qk_dim self) (num_heads self) ;;
       k <- reshape [B; -1; num_heads self; hd] k ;;
       k <- permute [0; 2; 1; 3] k ;;
       v <- Linear.forward (v self) x_ ;;
       hd <- floordiv C (num_heads self) ;;
       v <- reshape [B; -1; num_heads self; hd] v ;;
       v <- permute [0; 2; 1; 3] v ;;
       Ok (k, v)
     else
       k <- Linear.forward (k self) x ;;
       hd <- floordiv (qk_dim self) (num_heads self) ;;
       k <- reshape [B; N; num_heads self; hd] k ;;
       k <- permute [0; 2; 1; 3] k ;;
       v <- Linear.forward (v self) x ;;
       hd <- floordiv C (num_heads self) ;;
       v <- reshape [B; N; num_heads self; hd] v ;;
       v <- permute [0; 2; 1; 3] v ;;
       Ok (k, v)) ;;
  kt <- transpose (-2) (-1) k ;;
  attn <- matmul q kt ;;
  attn <- scale_by (scale self) attn ;;
  attn <- add attn relative_pos ;;
  attn <- softmax (-1) attn ;;
  attn <- identity attn ;;                       (* attn_drop *)
  x <- matmul attn v ;;
  x <- transpose 1 2 x ;;
  x <- reshape [B; N; C] x ;;
  x <- Linear.forward (proj self) x ;;
  x <- identity x ;;                             (* proj_drop *)
  Ok x.

End Attention.

(* ------------------------------------------------------------------ *)
(** ** [class Block] *)

Module Block.

Record t : Type := mk {
  norm1 : LayerNorm.t; attn : Attention.t;
  drop_path : bool;              (* [true]: [DropPath], [false]: [nn.Identity] *)
  norm2 : LayerNorm.t; proj : Conv2d.t }.

(** [drop_path] is the entry of [dpr] for this block.  The drop rates of
    the attention ([attn_drop], [drop]) are [0.], their defaults in
    [DecoderC]. *)
Definition init (name : string) (dim num_heads drop_path qk_ratio sr_ratio : Z)
  : Result t :=
  attn <- Attention.init (name ++ ".attn") dim num_heads qk_ratio sr_ratio ;;
  Ok (mk (LayerNorm.mk (name ++ ".norm1") dim) attn
         (0 <? drop_path)
         (LayerNorm.mk (name ++ ".norm2") dim)
         (Conv2d.mk (name ++ ".proj") dim dim 3 1 1 dim)).

(** [self.drop_path(y)]: stochastic depth keeps the shape. *)
Definition drop_path_forward (self : t) (y : Tensor) : Result Tensor :=
  if drop_path self then lift1 ODropPath (fun s => Ok s) y else identity y.

Definition forward (self : t) (x : Tensor) (H W : Z) (relative_pos : Tensor)
  : Result Tensor :=
  '(B, N, C) <- unpack3 (shape x) ;;
  y <- LayerNorm.forward (norm1 self) x ;;
  y <- Attention.forward (attn self) y H W relative_pos ;;
  y <- drop_path_forward self y ;;
  x <- add x y ;;
  cnn_feat <- permute [0; 2; 1] x ;;
  cnn_feat <- reshape [B; C; H; W] cnn_feat ;;
  x <- Conv2d.forward (proj self) cnn_feat ;;
  x <- add x cnn_feat ;;
  x <- flatten 2 x ;;
  x <- permute [0; 2; 1] x ;;
  Ok x.

End Block.

(* ------------------------------------------------------------------ *)
(** ** [class PatchEmbed] *)

Module PatchEmbed.

Record t : Type := mk {
  img_size : Z * Z; patch_size : Z * Z; num_patches : Z;
  project : Linear.t; upsample : Fold.t;
  norm : LayerNorm.t; norm2 : LayerNorm.t; norm3 : LayerNorm.t;
  lpu : Conv2d.t;
  fuse : bool;
  concatFuse : LinearGELULinear.t;
  interact : option CrossAttention.t }.

Definition init (name : string)
    (img_size patch_size in_chans embed_dim kernel_size stride padding : Z)
    (fuse : bool) : Result t :=
  let ms := img_size in
  let img_size := to_2tuple img_size in
  let patch_size := to_2tuple patch_size in
  let num_patches :=
    (snd img_size * snd patch_size) * (fst img_size * fst patch_size) in
  let project :=
    Linear.mk (name ++ ".project") in_chans (in_chans * kernel_size * kernel_size) in
  let upsample :=
    Fold.mk (name ++ ".upsample") (ms * stride, ms * stride)
            (kernel_size, kernel_size) (stride, stride) (padding, padding) in
  let norm := LayerNorm.mk (name ++ ".norm") in_chans in
  let norm2 := LayerNorm.mk (name ++ ".norm2") embed_dim in
  let norm3 := LayerNorm.mk (name ++ ".norm3") embed_dim in
  let lpu := Conv2d.mk (name ++ ".lpu") in_chans in_chans 3 1 1 1 in
  if fuse then
    let concatFuse :=
      LinearGELULinear.init (name ++ ".concatFuse")
                            (in_chans + embed_dim) in_chans embed_dim in
    interact <- CrossAttention.init (name ++ ".interact")
                                    embed_dim in_chans embed_dim 4 ;;
    Ok (mk img_size patch_size num_patches project upsample norm norm2 norm3
           lpu fuse concatFuse (Some interact))
  else
    let concatFuse :=
      LinearGELULinear.init (name ++ ".concatFuse") in_chans in_chans embed_dim in
    Ok (mk img_size patch_size num_patches project upsample norm norm2 norm3
           lpu fuse concatFuse None).

(** [self.interact(x, x0)]; the attribute exists exactly when [fuse]. *)
Definition interact_forward (self : t) (x x0 : Tensor) : Result Tensor :=
  match interact self with
  | Some ca => CrossAttention.forward ca x x0
  | None => Raise AttributeError
  end.

Definition forward (self : t) (x : Tensor) (enc_fea : option Tensor)
  : Result (Tensor * (Z * Z)) :=
  '(B, C, H, W) <- unpack4 (shape x) ;;
  _ <- py_assert ((H =? fst (img_size self)) && (W =? snd (img_size self))) ;;
  x <- flatten 2 x ;;
  x <- transpose 1 2 x ;;
  x <- Linear.forward (project self) x ;;
  x <- transpose 1 2 x ;;
  x <- Fold.forward (upsample self) x ;;
  y <- Conv2d.forward (lpu self) x ;;
  x <- add y x ;;
  x <- flatten 2 x ;;
  x <- transpose 1 2 x ;;
  x <- LayerNorm.forward (norm self) x ;;
  x0 <- clone x ;;
  let '(H, W) := (H * fst (patch_size self), W * snd (patch_size self)) in
  if fuse self then
    x <- cat 2 x enc_fea ;;
    x <- LinearGELULinear.forward (concatFuse self) x ;;
    x <- LayerNorm.forward (norm2 self) x ;;
    y <- interact_forward self x x0 ;;
    x <- add x y ;;
    x <- LayerNorm.forward (norm3 self) x ;;
    Ok (x, (H, W))
  else
    x <- LinearGELULinear.forward (concatFuse self) x ;;
    x <- LayerNorm.forward (norm2 self) x ;;
    Ok (x, (H, W)).

End PatchEmbed.

(* ------------------------------------------------------------------ *)
(** ** [class DecoderC] *)

Module DecoderC.

Record t : Type := mk {
  norm : LayerNorm.t;
  mlp : LinearGELULinear.t;
  img_size : Z;
  patch_embed_b : PatchEmbed.t;
  patch_embed_c : PatchEmbed.t;
  patch_embed_d : PatchEmbed.t;
  relative_pos_c : Tensor;
  relative_pos_d : Tensor;
  pre_1_16 : Linear.t; pre_1_8 : Linear.t; pre_1_4 : Linear.t; pre_1_1 : Linear.t;
  blocks_c : list Block.t;
  blocks_d : list Block.t }.

(** [torch.linspace(0, drop_path_rate, steps)] for [drop_path_rate=0.],
    the default: [steps] zeros; a negative [steps] is refused. *)
Definition linspace0 (steps : Z) : Result (list Z) :=
  if steps <? 0 then Raise RuntimeError else Ok (repeat 0 (Z.to_nat steps)).

(** [sum(depths)] *)
Definition sum (l : list Z) : Z := fold_left Z.add l 0.

(** The name of the [i]-th module of an [nn.ModuleList]. *)
Definition item_name (list_name : string) (i : Z) : string :=
  (list_name ++ "." ++ NilZero.string_of_int (Z.to_int i))%string.

(** [__init__(img_size, embed_dims, num_heads, depths, qk_ratio, sr_ratios)];
    the remaining arguments keep their defaults ([qk_scale=None],
    [representation_size=None], all drop rates [0.]) and either do not
    reach a layer of the decoder or only set whether a layer has a bias.
    A list entry that is read several times is read once here, where
    the source reads it first. *)
Definition init (img_size : Z) (embed_dims num_heads depths : list Z)
    (qk_ratio : Z) (sr_ratios : list Z) : Result t :=
  e0 <- getitem embed_dims 0 ;;
  let norm := LayerNorm.mk "norm" e0 in
  e1 <- getitem embed_dims 1 ;;
  let mlp := LinearGELULinear.init "mlp" e0 e0 e1 in
  e2 <- getitem embed_dims 2 ;;
  e3 <- getitem embed_dims 3 ;;
  patch_embed_b <- PatchEmbed.init "patch_embed_b" (img_size / 4) 4 e2 e3 7 4 2 false ;;
  patch_embed_c <- PatchEmbed.init "patch_embed_c" (img_size / 8) 2 e1 e2 3 2 1 true ;;
  patch_embed_d <- PatchEmbed.init "patch_embed_d" (img_size / 16) 2 e0 e1 3 2 1 true ;;
  h2 <- getitem num_heads 2 ;;
  s2 <- getitem sr_ratios 2 ;;
  n <- floordiv (PatchEmbed.num_patches patch_embed_c) s2 ;;
  n <- floordiv n s2 ;;
  relative_pos_c <-
    randn "relative_pos_c" [h2; PatchEmbed.num_patches patch_embed_c; n] ;;
  h3 <- getitem num_heads 3 ;;
  s3 <- getitem sr_ratios 3 ;;
  n <- floordiv (PatchEmbed.num_patches patch_embed_d) s3 ;;
  n <- floordiv n s3 ;;
  relative_pos_d <-
    randn "relative_pos_d" [h3; PatchEmbed.num_patches patch_embed_d; n] ;;
  let pre_1_16 := Linear.mk "pre_1_16" e1 1 in
  let pre_1_8 := Linear.mk "pre_1_8" e1 1 in
  let pre_1_4 := Linear.mk "pre_1_4" e2 1 in
  let pre_1_1 := Linear.mk "pre_1_1" e3 1 in
  dpr <- linspace0 (sum depths) ;;
  let cur := 0 in
  d0 <- getitem depths 0 ;;
  let cur := cur + d0 in
  d1 <- getitem depths 1 ;;
  let cur := cur + d1 in
  d2 <- getitem depths 2 ;;
  blocks_c <-
    for_range (fun i =>
        dp <- getitem dpr (cur + i) ;;
        Block.init (item_name "blocks_c" i) e2 h2 dp qk_ratio s2)
      0 (Z.to_nat d2) ;;
  let cur := cur + d2 in
  d3 <- getitem depths 3 ;;
  blocks_d <-
    for_range (fun i =>
        dp <- getitem dpr (cur + i) ;;
        Block.init (item_name "blocks_d" i) e1 h3 dp qk_ratio s3)
      0 (Z.to_nat d3) ;;
  Ok (mk norm mlp img_size patch_embed_b patch_embed_c patch_embed_d
         relative_pos_c relative_pos_d pre_1_16 pre_1_8 pre_1_4 pre_1_1
         blocks_c blocks_d).

(** [for i, blk in enumerate(blocks): x = blk(x, H, W, relative_pos)] *)
Fixpoint run_blocks (blocks : list Block.t) (x : Tensor) (H W : Z)
    (relative_pos : Tensor) : Result Tensor :=
  match blocks with
  | [] => Ok x
  | blk :: rest =>
      x <- Block.forward blk x H W relative_pos ;;
      run_blocks rest x H W relative_pos
  end.

Definition forward_features (self : t) (x x_1_8 x_1_4 : Tensor)
  : Result (list Tensor) :=
  '(B, N, C) <- unpack3 (shape x) ;;
  saliency_fea_1_16 <- LayerNorm.forward (norm self) x ;;
  saliency_fea_1_16 <- LinearGELULinear.forward (mlp self) saliency_fea_1_16 ;;
  mask_1_16 <- Linear.forward (pre_1_16 self) saliency_fea_1_16 ;;
  mask_1_16 <- transpose 1 2 mask_1_16 ;;
  mask_1_16 <- reshape [B; 1; img_size self / 16; img_size self / 16] mask_1_16 ;;
  x <- transpose 1 2 x ;;
  x <- reshape [B; C; 14; 14] x ;;
  '(x, (H, W)) <- PatchEmbed.forward (patch_embed_d self) x (Some x_1_8) ;;
  x <- run_blocks (blocks_d self) x H W (relative_pos_d self) ;;
  mask_1_8 <- Linear.forward (pre_1_8 self) x ;;
  mask_1_8 <- transpose 1 2 mask_1_8 ;;
  mask_1_8 <- reshape [B; 1; img_size self / 8; img_size self / 8] mask_1_8 ;;
  x <- reshape [B; H; W; -1] x ;;
  x <- permute [0; 3; 1; 2] x ;;
  x <- contiguous x ;;
  '(x, (H, W)) <- PatchEmbed.forward (patch_embed_c self) x (Some x_1_4) ;;
  x <- run_blocks (blocks_c self) x H W (relative_pos_c self) ;;
  mask_1_4 <- Linear.forward (pre_1_4 self) x ;;
  mask_1_4 <- transpose 1 2 mask_1_4 ;;
  mask_1_4 <- reshape [B; 1; img_size self / 4; img_size self / 4] mask_1_4 ;;
  x <- reshape [B; H; W; -1] x ;;
  x <- permute [0; 3; 1; 2] x ;;
  x <- contiguous x ;;
  '(x, (H, W)) <- PatchEmbed.forward (patch_embed_b self) x None ;;
  mask_1_1 <- Linear.forward (pre_1_1 self) x ;;
  mask_1_1 <- transpose 1 2 mask_1_1 ;;
  mask_1_1 <- reshape [B; 1; img_size self / 1; img_size self / 1] mask_1_1 ;;
  Ok [mask_1_16; mask_1_8; mask_1_4; mask_1_1].

Definition forward (self : t) (x x_1_8 x_1_4 : Tensor) : Result (list Tensor) :=
  r <- forward_features self x x_1_8 x_1_4 ;;
  match r with
  | [mask_1_16; mask_1_8; mask_1_4; mask_1_1] =>
      m_1 <- sigmoid mask_1_1 ;;
      m_4 <- sigmoid mask_1_4 ;;
      m_8 <- sigmoid mask_1_8 ;;
      m_16 <- sigmoid mask_1_16 ;;
      Ok [mask_1_16; mask_1_8; mask_1_4; mask_1_1; m_16; m_8; m_4; m_1]
  | _ => Raise ValueError
  end.

(** The instances of [Attention] among [self.modules()], in the order
    of registration: the attention of every block of [blocks_c], then of
    [blocks_d].  ([CrossAttention] is a class of its own, not a
    subclass.) *)
Definition attention_modules (self : t) : list Attention.t :=
  map Block.attn (blocks_c self ++ blocks_d self).

(** [m.update_temperature()] for an [Attention] [m]: the class defines
    [__init__] and [forward] only, so looking the attribute up raises. *)
Definition call_update_temperature (m : Attention.t) : Result unit :=
  Raise AttributeError.

(** [for m in ms: f(m)] *)
Fixpoint for_each {A : Type} (f : A -> Result unit) (ms : list A)
  : Result unit :=
  match ms with
  | [] => Ok tt
  | m :: rest => _ <- f m ;; for_each f rest
  end.

(** [update_temperature()] *)
Definition update_temperature (self : t) : Result unit :=
  for_each call_update_temperature (attention_modules self).

(** The default arguments of [__init__]. *)
Definition default_embed_dims : list Z := [384; 128; 64; 16; 4].
Definition default_num_heads : list Z := [1; 2; 4; 8].
Definition default_depths : list Z := [2; 3; 6; 3].
Definition default_sr_ratios : list Z := [8; 4; 2; 1].

Definition init_default (img_size : Z) : Result t :=
  init img_size default_embed_dims default_num_heads default_depths 1
       default_sr_ratios.

End DecoderC.

(* ------------------------------------------------------------------ *)
(** ** [load_list] of [dataset.py] *)

Module Dataset.

#[local] Open Scope string_scope.

(** [img[:-4]]: everything but the last four characters (nothing at all
    when there are at most four). *)
Definition drop_last4 (img : string) : string :=
  substring 0 (String.length img - 4) img.

(** [s.replace(old, new)] for a non-empty [old]: occurrences are replaced
    from the left and do not overlap.  [skip] counts the characters of a
    replaced occurrence that are still to be passed over. *)
Fixpoint replace_from (old new : string) (skip : nat) (s : string) : string :=
  match s with
  | EmptyString => EmptyString
  | String c r =>
      match skip with
      | S k => replace_from old new k r
      | O => if prefix old s
             then new ++ replace_from old new (String.length old - 1) r
             else String c (replace_from old new 0 r)
      end
  end.

Definition replace (old new s : string) : string := replace_from old new 0 s.

(** [s.endswith(suffix)] *)
Fixpoint endswith (suffix s : string) : bool :=
  (s =? suffix) ||
  match s with
  | EmptyString => false
  | String _ r => endswith suffix r
  end.

(** One of the nine stanzas of [load_list]: list [data_root + name +
    '/train_A/'] and append, for every file, the image path with
    extension [ext_image] and the label path with extension [ext_label]. *)
Definition image_path (img_root img ext_image : string) : string :=
  img_root ++ drop_last4 img ++ ext_image.

Definition label_path (img_root img ext_label : string) : string :=
  replace "/train_A/" "/train_B/" img_root ++ drop_last4 img ++ ext_label.

Definition stanza (listdir : string -> Result (list string))
    (data_root name ext_image ext_label : string)
    (acc : list string * list string) : Result (list string * list string) :=
  let img_root := data_root ++ name ++ "/train_A/" in
  img_files <- listdir img_root ;;
  Ok (fold_left
        (fun '(images, labels) img =>
           (images ++ [image_path img_root img ext_image],
            labels ++ [label_path img_root img ext_label])%list)
        img_files acc).

(** [load_list(dataset_name, data_root)]; [os.listdir] is the argument
    [listdir], which raises when the directory cannot be listed. *)
Definition load_list (listdir : string -> Result (list string))
    (dataset_name data_root : string) : Result (list string * list string) :=
  let acc := ([], []) in
  acc <- stanza listdir data_root "ISTD_SP" ".png" ".png" acc ;;
  acc <- stanza listdir data_root "ISTD_DSC" ".png" ".png" acc ;;
  acc <- stanza listdir data_root "ISTD_DC" ".png" ".png" acc ;;
  acc <- stanza listdir data_root "ISTD_BM" ".png" ".png" acc ;;
  acc <- stanza listdir data_root "ISTD_TG" ".png" ".png" acc ;;
  acc <- stanza listdir data_root "SRD_BM" ".jpg" ".jpg" acc ;;
  acc <- stanza listdir data_root "SRD_DC" ".png" ".jpg" acc ;;
  acc <- stanza listdir data_root "SRD_DSC" ".jpg" ".jpg" acc ;;
  acc <- stanza listdir data_root "SRD_TG" ".jpg" ".jpg" acc ;;
  Ok acc.

(** [load_test_list(test_path, data_root)] *)
Definition load_test_list (listdir : string -> Result (list string))
    (test_path data_root : string) : Result (list string) :=
  let images : list string := [] in
  let img_root := data_root ++ "test_new" ++ "/test_DC/" in
  img_files <- listdir img_root ;;
  Ok (fold_left
        (fun images img =>
           (images ++ [(img_root ++ drop_last4 img ++ ".png")%string])%list)
        img_files images).

End Dataset.

(* ------------------------------------------------------------------ *)
(** ** Vocabulary of the statements *)

(** [c] does not raise [AssertionError]. *)
Definition no_assert {A : Type} (c : Result A) : Prop := c <> Raise AssertionError.

(** The tensor [nn.Sigmoid()] returns for [t]. *)
Definition sigmoid_of (t : Tensor) : Tensor :=
  mkTensor (shape t) (DApp1 OSigmoid (data t)).

(** An argument of the outermost call. *)
Definition input (name : string) (s : Shape) : Tensor := mkTensor s (DInput name).

(** A directory tree for examples: one file in [SRD_DC/train_A/] and one
    in [SRD_BM/train_A/], nothing elsewhere. *)
Definition listdir_example (path : string) : Result (list string) :=
  if (path =? "data/SRD_DC/train_A/")%string then Ok ["IMG_1.jpg"%string]
  else if (path =? "data/SRD_BM/train_A/")%string then Ok ["IMG_2.jpg"%string]
  else Ok [].

(** A block built by [Block.init] for width [dim] (with [qk_ratio=1]). *)
Definition built_block (dim h sr : Z) (blk : Block.t) : Prop :=
  exists name dp, Block.init name dim h dp 1 sr = Ok blk.

(** The number of key/value tokens of an [Attention] over an [H] x [W]
    grid: the grid itself, or what the strided convolution leaves of it. *)
Definition reduced_tokens (sr H W : Z) : Z :=
  if 1 <? sr then conv_out H sr sr 0 * conv_out W sr sr 0 else H * W.

(** Everything [forward] reads from a decoder that [__init__] returned,
    in terms of the list entries [__init__] read. *)
Record built_decoder (img qk_ratio e0 e1 e2 e3 h2 h3 s2 s3 : Z)
    (d : DecoderC.t) : Prop := {
  bd_s2_nz : s2 <> 0;
  bd_s3_nz : s3 <> 0;
  bd_img : DecoderC.img_size d = img;
  bd_norm : DecoderC.norm d = LayerNorm.mk "norm" e0;
  bd_mlp : DecoderC.mlp d = LinearGELULinear.init "mlp" e0 e0 e1;
  bd_pe_b : PatchEmbed.init "patch_embed_b" (img / 4) 4 e2 e3 7 4 2 false
            = Ok (DecoderC.patch_embed_b d);
  bd_pe_c : PatchEmbed.init "patch_embed_c" (img / 8) 2 e1 e2 3 2 1 true
            = Ok (DecoderC.patch_embed_c d);
  bd_pe_d : PatchEmbed.init "patch_embed_d" (img / 16) 2 e0 e1 3 2 1 true
            = Ok (DecoderC.patch_embed_d d);
  bd_rp_c : DecoderC.relative_pos_c d =
            mkTensor [h2; (img / 8 * 2) * (img / 8 * 2);
                      (img / 8 * 2) * (img / 8 * 2) / s2 / s2]
                     (DParam "relative_pos_c");
  bd_rp_d : DecoderC.relative_pos_d d =
            mkTensor [h3; (img / 16 * 2) * (img / 16 * 2);
                      (img / 16 * 2) * (img / 16 * 2) / s3 / s3]
                     (DParam "relative_pos_d");
  bd_pre_1_16 : DecoderC.pre_1_16 d = Linear.mk "pre_1_16" e1 1;
  bd_pre_1_8 : DecoderC.pre_1_8 d = Linear.mk "pre_1_8" e1 1;
  bd_pre_1_4 : DecoderC.pre_1_4 d = Linear.mk "pre_1_4" e2 1;
  bd_pre_1_1 : DecoderC.pre_1_1 d = Linear.mk "pre_1_1" e3 1;
  bd_blocks_c :
    Forall (fun blk => exists name dp,
                Block.init name e2 h2 dp qk_ratio s2 = Ok blk)
           (DecoderC.blocks_c d);
  bd_blocks_d :
    Forall (fun blk => exists name dp,
                Block.init name e1 h3 dp qk_ratio s3 = Ok blk)
           (DecoderC.blocks_d d)
}.


(** The nine stanzas of [load_list] in the order of the source: the
    directory name, the extension given to the image paths and the
    extension given to the label paths. *)
Definition train_stanzas : list (string * string * string) :=
  [("ISTD_SP", ".png", ".png"); ("ISTD_DSC", ".png", ".png");
   ("ISTD_DC", ".png", ".png"); ("ISTD_BM", ".png", ".png");
   ("ISTD_TG", ".png", ".png"); ("SRD_BM", ".jpg", ".jpg");
   ("SRD_DC", ".png", ".jpg"); ("SRD_DSC", ".jpg", ".jpg");
   ("SRD_TG", ".jpg", ".jpg")]%string.

(** The directory a stanza lists. *)
Definition train_dir (data_root : string) (st : string * string * string)
  : string :=
  (data_root ++ fst (fst st) ++ "/train_A/")%string.

(** The directories [load_list] lists, in order. *)
Definition train_dirs (data_root : string) : list string :=
  map (train_dir data_root) train_stanzas.

(** A sequence of stanzas, each continuing with the lists of the one
    before. *)
Fixpoint run_stanzas (listdir : string -> Result (list string))
    (data_root : string) (sts : list (string * string * string))
    (acc : list string * list string) : Result (list string * list string) :=
  match sts with
  | [] => Ok acc
  | st :: rest =>
      acc <- Dataset.stanza listdir data_root (fst (fst st)) (snd (fst st))
                            (snd st) acc ;;
      run_stanzas listdir data_root rest acc
  end.

(** A directory tree in which only the first five directories of
    [load_list] exist. *)
Definition listdir_istd_only (path : string) : Result (list string) :=
  if existsb (String.eqb path)
       ["data/ISTD_SP/train_A/"; "data/ISTD_DSC/train_A/";
        "data/ISTD_DC/train_A/"; "data/ISTD_BM/train_A/";
        "data/ISTD_TG/train_A/"]%string
  then Ok ["1-1.png"%string]
  else Raise RuntimeError.

(** A test directory with two files. *)
Definition listdir_test (path : string) : Result (list string) :=
  if (path =? "data/test_new/test_DC/")%string
  then Ok ["a.jpg"; "b.jpeg"]%string
  else Raise RuntimeError.

(** A position bias whose last dimension is [K] suits the attention of a
    block over a [g] x [g] grid with reduction ratio [sr]: [K] is the
    number of key tokens, or one (which broadcasting accepts). *)
Definition bias_fits (sr g K : Z) : Prop :=
  K = reduced_tokens sr g g \/ K = 1.

(* ================================================================== *)
(** * Properties *)

Unset Implicit Arguments.

#[local] Arguments Z.mul : simpl never.
#[local] Arguments Z.add : simpl never.
#[local] Arguments Z.sub : simpl never.
#[local] Arguments Z.div : simpl never.
#[local] Arguments Z.modulo : simpl never.
#[local] Arguments Z.eqb : simpl never.
#[local] Arguments Z.ltb : simpl never.
#[local] Arguments Z.leb : simpl never.

(** ** The error monad *)

Lemma bind_Ok_inv {A B : Type} (c : Result A) (k : A -> Result B) (b : B) :
  bind c k = Ok b -> exists a, c = Ok a /\ k a = Ok b.
Proof. destruct c; cbn; intros; [eauto | discriminate]. Qed.

Lemma bind_Raise_inv {A B : Type} (c : Result A) (k : A -> Result B) (e : PyError) :
  bind c k = Raise e -> c = Raise e \/ exists a, c = Ok a /\ k a = Raise e.
Proof. destruct c; cbn; intros H; [eauto | left; congruence]. Qed.

(** Turning the boolean tests of the shape rules into arithmetic. *)
Ltac bool_hyps :=
  repeat match goal with
  | H : (_ && _) = true |- _ => apply andb_prop in H; destruct H
  | H : negb _ = true |- _ => apply negb_true_iff in H
  | H : negb _ = false |- _ => apply negb_false_iff in H
  | H : (_ =? _) = true |- _ => apply Z.eqb_eq in H
  | H : (_ =? _) = false |- _ => apply Z.eqb_neq in H
  | H : (_ <? _) = true |- _ => apply Z.ltb_lt in H
  | H : (_ <? _) = false |- _ => apply Z.ltb_ge in H
  | H : (_ <=? _) = true |- _ => apply Z.leb_le in H
  | H : (_ <=? _) = false |- _ => apply Z.leb_gt in H
  end.

Ltac bool_goal :=
  repeat (apply andb_true_intro; split);
  try apply negb_true_iff;
  first [ apply Z.eqb_eq | apply Z.eqb_neq | apply Z.ltb_lt | apply Z.leb_le
        | reflexivity ].

(** Resolve the test of the first conditional of the goal to [true]. *)
Ltac if_true tac :=
  match goal with
  | |- context [if ?b then _ else _] =>
      let E := fresh "E" in
      assert (E : b = true) by (bool_goal; tac);
      rewrite E; clear E
  end.

(** A conditional in a hypothesis that reached [Ok] took its first branch. *)
Ltac if_inv H :=
  match type of H with
  | context [if ?b then _ else _] =>
      let E := fresh "E" in
      destruct b eqn:E; [ | discriminate H ]
  end.

(* ------------------------------------------------------------------ *)
(** ** Shape rules as equations on tensors of a known rank *)

Section TensorEquations.

Variables (a b c e : Z) (d d' : Data).

Lemma linear3 (l : Linear.t) :
  Linear.forward l (mkTensor [a; b; c] d) =
  if c =? Linear.in_features l
  then Ok (mkTensor [a; b; Linear.out_features l]
                    (DApp1 (OLinear (Linear.name l)) d))
  else Raise RuntimeError.
Proof.
  unfold Linear.forward, lift1, linear_shape. cbn [shape data rev app bind].
  destruct (c =? _); reflexivity.
Qed.

Lemma layer_norm3 (l : LayerNorm.t) :
  LayerNorm.forward l (mkTensor [a; b; c] d) =
  if c =? LayerNorm.normalized_shape l
  then Ok (mkTensor [a; b; c] (DApp1 (OLayerNorm (LayerNorm.name l)) d))
  else Raise RuntimeError.
Proof.
  unfold LayerNorm.forward, lift1, layer_norm_shape.
  cbn [shape data rev app bind]. destruct (c =? _); reflexivity.
Qed.

Lemma conv2d4 (l : Conv2d.t) :
  Conv2d.forward l (mkTensor [a; b; c; e] d) =
  if (b =? Conv2d.in_channels l) && (0 <? Conv2d.kernel_size l)
     && (0 <? Conv2d.stride l) && (0 <=? Conv2d.padding l)
     && (Conv2d.kernel_size l <=? c + 2 * Conv2d.padding l)
     && (Conv2d.kernel_size l <=? e + 2 * Conv2d.padding l)
  then Ok (mkTensor
             [a; Conv2d.out_channels l;
              conv_out c (Conv2d.kernel_size l) (Conv2d.stride l) (Conv2d.padding l);
              conv_out e (Conv2d.kernel_size l) (Conv2d.stride l) (Conv2d.padding l)]
             (DApp1 (OConv2d (Conv2d.name l)) d))
  else Raise RuntimeError.
Proof.
  unfold Conv2d.forward, lift1, conv2d_shape. cbn [shape data bind].
  match goal with |- context [if ?t then _ else _] => destruct t end;
    reflexivity.
Qed.

Lemma batch_norm4 (l : BatchNorm2d.t) :
  BatchNorm2d.forward l (mkTensor [a; b; c; e] d) =
  if b =? BatchNorm2d.num_features l
  then Ok (mkTensor [a; b; c; e] (DApp1 (OBatchNorm2d (BatchNorm2d.name l)) d))
  else Raise RuntimeError.
Proof.
  unfold BatchNorm2d.forward, lift1, batch_norm2d_shape.
  cbn [shape data bind]. destruct (b =? _); reflexivity.
Qed.

Lemma fold3 (l : Fold.t) :
  Fold.forward l (mkTensor [a; b; c] d) =
  s <- fold_shape (Fold.output_size l) (Fold.kernel_size l) (Fold.stride l)
                  (Fold.padding l) [a; b; c] ;;
  Ok (mkTensor s (DApp1 (OFold (Fold.name l)) d)).
Proof. reflexivity. Qed.

Lemma gelu_eq (s : Shape) : gelu (mkTensor s d) = Ok (mkTensor s (DApp1 OGELU d)).
Proof. reflexivity. Qed.

Lemma sigmoid_eq (s : Shape) :
  sigmoid (mkTensor s d) = Ok (mkTensor s (DApp1 OSigmoid d)).
Proof. reflexivity. Qed.

Lemma scale_by_eq (h : Z) (s : Shape) :
  scale_by h (mkTensor s d) = Ok (mkTensor s (DApp1 (OScale h) d)).
Proof. reflexivity. Qed.

Lemma transpose12_3 :
  transpose 1 2 (mkTensor [a; b; c] d) =
  Ok (mkTensor [a; c; b] (DApp1 (OTranspose 1 2) d)).
Proof. reflexivity. Qed.

Lemma transpose12_4 :
  transpose 1 2 (mkTensor [a; b; c; e] d) =
  Ok (mkTensor [a; c; b; e] (DApp1 (OTranspose 1 2) d)).
Proof. reflexivity. Qed.

Lemma transpose_last2_4 :
  transpose (-2) (-1) (mkTensor [a; b; c; e] d) =
  Ok (mkTensor [a; b; e; c] (DApp1 (OTranspose (-2) (-1)) d)).
Proof. reflexivity. Qed.

Lemma permute021 :
  permute [0; 2; 1] (mkTensor [a; b; c] d) =
  Ok (mkTensor [a; c; b] (DApp1 (OPermute [0; 2; 1]) d)).
Proof. reflexivity. Qed.

Lemma permute0213 :
  permute [0; 2; 1; 3] (mkTensor [a; b; c; e] d) =
  Ok (mkTensor [a; c; b; e] (DApp1 (OPermute [0; 2; 1; 3]) d)).
Proof. reflexivity. Qed.

Lemma permute0312 :
  permute [0; 3; 1; 2] (mkTensor [a; b; c; e] d) =
  Ok (mkTensor [a; e; b; c] (DApp1 (OPermute [0; 3; 1; 2]) d)).
Proof. reflexivity. Qed.

Lemma flatten2_4 :
  flatten 2 (mkTensor [a; b; c; e] d) =
  Ok (mkTensor [a; b; c * (e * 1)] (DApp1 (OFlatten 2) d)).
Proof. reflexivity. Qed.

Lemma softmax_last4 :
  softmax (-1) (mkTensor [a; b; c; e] d) =
  Ok (mkTensor [a; b; c; e] (DApp1 (OSoftmax (-1)) d)).
Proof. reflexivity. Qed.

(** [x @ y] with equal leading dimensions. *)
Lemma matmul4 (m p : Z) :
  matmul (mkTensor [a; b; c; e] d) (mkTensor [a; b; m; p] d') =
  if e =? m then Ok (mkTensor [a; b; c; p] (DApp2 OMatmul d d'))
  else Raise RuntimeError.
Proof.
  unfold matmul, lift2, matmul_shape.
  cbn [shape data rev app bind broadcast_rev].
  rewrite !Z.eqb_refl. destruct (e =? m); reflexivity.
Qed.

End TensorEquations.

(* ------------------------------------------------------------------ *)
(** ** [reshape], broadcasting and [cat] *)

Lemma reshape_shape_nonneg (tgt s : Shape) :
  valid_shape tgt ->
  reshape_shape tgt s = if numel tgt =? numel s then Ok tgt else Raise RuntimeError.
Proof.
  intros H. unfold reshape_shape.
  assert (E1 : existsb (fun d => d <? -1) tgt = false).
  { induction H; cbn; [reflexivity|].
    rewrite IHForall, orb_false_r. apply Z.ltb_ge. lia. }
  assert (E2 : count_occ Z.eq_dec tgt (-1) = 0%nat).
  { apply count_occ_not_In. intros HI.
    unfold valid_shape in H. rewrite Forall_forall in H. apply H in HI. lia. }
  rewrite E1, E2. reflexivity.
Qed.

Lemma reshape_nonneg (tgt s : Shape) (d : Data) :
  valid_shape tgt ->
  reshape tgt (mkTensor s d) =
  if numel tgt =? numel s then Ok (mkTensor tgt (DApp1 (OReshape tgt) d))
  else Raise RuntimeError.
Proof.
  intros H. unfold reshape, lift1. cbn [shape data].
  rewrite (reshape_shape_nonneg tgt s H). destruct (_ =? _); reflexivity.
Qed.

Ltac ltb_false :=
  repeat match goal with
  | |- context [?x <? -1] =>
      rewrite (proj2 (Z.ltb_ge x (-1))) by lia
  end.

Ltac eq_dec_cases :=
  repeat match goal with
  | |- context [Z.eq_dec ?x ?y] => destruct (Z.eq_dec x y); try lia
  end.

(** [x.reshape(a, b, -1)] *)
Lemma reshape_infer3 (a b : Z) (s : Shape) (d : Data) :
  0 <= a -> 0 <= b ->
  reshape [a; b; -1] (mkTensor s d) =
  if (0 <? a * (b * 1)) && (numel s mod (a * (b * 1)) =? 0)
  then Ok (mkTensor [a; b; numel s / (a * (b * 1))] (DApp1 (OReshape [a; b; -1]) d))
  else Raise RuntimeError.
Proof.
  intros Ha Hb. unfold reshape, lift1, reshape_shape.
  cbn [shape data existsb count_occ remove map numel fold_right].
  ltb_false. cbn [orb]. eq_dec_cases.
  cbn [numel fold_right map].
  rewrite (proj2 (Z.eqb_neq a (-1))), (proj2 (Z.eqb_neq b (-1))) by lia.
  rewrite Z.eqb_refl. unfold numel.
  match goal with |- context [if ?t then _ else _] => destruct t end; reflexivity.
Qed.

(** [x.reshape(a, -1, b, c)] *)
Lemma reshape_infer4_1 (a b c : Z) (s : Shape) (d : Data) :
  0 <= a -> 0 <= b -> 0 <= c ->
  reshape [a; -1; b; c] (mkTensor s d) =
  if (0 <? a * (b * (c * 1))) && (numel s mod (a * (b * (c * 1))) =? 0)
  then Ok (mkTensor [a; numel s / (a * (b * (c * 1))); b; c]
                    (DApp1 (OReshape [a; -1; b; c]) d))
  else Raise RuntimeError.
Proof.
  intros Ha Hb Hc. unfold reshape, lift1, reshape_shape.
  cbn [shape data existsb count_occ remove map numel fold_right].
  ltb_false. cbn [orb]. eq_dec_cases.
  cbn [numel fold_right map].
  rewrite (proj2 (Z.eqb_neq a (-1))), (proj2 (Z.eqb_neq b (-1))),
    (proj2 (Z.eqb_neq c (-1))) by lia.
  rewrite Z.eqb_refl. unfold numel.
  match goal with |- context [if ?t then _ else _] => destruct t end; reflexivity.
Qed.

(** [x.reshape(a, b, c, -1)] *)
Lemma reshape_infer4_3 (a b c : Z) (s : Shape) (d : Data) :
  0 <= a -> 0 <= b -> 0 <= c ->
  reshape [a; b; c; -1] (mkTensor s d) =
  if (0 <? a * (b * (c * 1))) && (numel s mod (a * (b * (c * 1))) =? 0)
  then Ok (mkTensor [a; b; c; numel s / (a * (b * (c * 1)))]
                    (DApp1 (OReshape [a; b; c; -1]) d))
  else Raise RuntimeError.
Proof.
  intros Ha Hb Hc. unfold reshape, lift1, reshape_shape.
  cbn [shape data existsb count_occ remove map numel fold_right].
  ltb_false. cbn [orb]. eq_dec_cases.
  cbn [numel fold_right map].
  rewrite (proj2 (Z.eqb_neq a (-1))), (proj2 (Z.eqb_neq b (-1))),
    (proj2 (Z.eqb_neq c (-1))) by lia.
  rewrite Z.eqb_refl. unfold numel.
  match goal with |- context [if ?t then _ else _] => destruct t end; reflexivity.
Qed.

Lemma broadcast_rev_same (s : Shape) : broadcast_rev s s = Ok s.
Proof.
  induction s as [|x s IH]; cbn [broadcast_rev]; [reflexivity|].
  rewrite IH. cbn [bind]. now rewrite Z.eqb_refl.
Qed.

Lemma add_same (s : Shape) (d d' : Data) :
  add (mkTensor s d) (mkTensor s d') = Ok (mkTensor s (DApp2 OAdd d d')).
Proof.
  unfold add, lift2, broadcast_shapes. cbn [shape data].
  rewrite broadcast_rev_same. cbn [bind]. now rewrite rev_involutive.
Qed.

(** [attn + relative_pos]: the bias has no batch dimension. *)
Lemma add_bias4 (a b c e : Z) (d d' : Data) :
  add (mkTensor [a; b; c; e] d) (mkTensor [b; c; e] d') =
  Ok (mkTensor [a; b; c; e] (DApp2 OAdd d d')).
Proof.
  unfold add, lift2, broadcast_shapes.
  cbn [shape data rev app broadcast_rev bind].
  rewrite !Z.eqb_refl. reflexivity.
Qed.

Lemma shape_eqb_eq (s s' : Shape) : shape_eqb s s' = true <-> s = s'.
Proof.
  revert s'. induction s as [|x s IH]; intros [|y s']; cbn [shape_eqb];
    try (split; [discriminate | congruence]); [tauto|].
  rewrite andb_true_iff, Z.eqb_eq, IH. split; [intros []; congruence|].
  intros E; inversion E; auto.
Qed.

Lemma shape_eqb_refl (s : Shape) : shape_eqb s s = true.
Proof. now apply shape_eqb_eq. Qed.

(** [torch.cat([x, y], dim=2)] on a rank-3 [x]: [y] is either the empty
    rank-1 tensor, which is skipped, or agrees with [x] on the first two
    dimensions. *)
Lemma cat_shape2_inv (a b c : Z) (s r : Shape) :
  cat_shape 2 [a; b; c] s = Ok r ->
  (s = [0] /\ r = [a; b; c]) \/ (exists e, s = [a; b; e] /\ r = [a; b; c + e]).
Proof.
  unfold cat_shape. cbn [shape_eqb]. rewrite andb_false_r.
  destruct (shape_eqb s [0]) eqn:E0.
  { apply shape_eqb_eq in E0. intros H. left. split; congruence. }
  destruct s as [|a' [|b' [|e [|? ?]]]]; cbn [length Nat.eqb negb];
    try discriminate.
  change (dim_index 3 2) with (@Ok nat 2%nat). cbn [bind cat_dims].
  intros H. if_inv H. cbn [bind cat_dims] in H. if_inv H.
  cbn [shape_eqb bind] in H. bool_hyps. subst.
  right. exists e. split; congruence.
Qed.

Lemma cat2_3 (a b c e : Z) (d d' : Data) :
  cat 2 (mkTensor [a; b; c] d) (Some (mkTensor [a; b; e] d')) =
  Ok (mkTensor [a; b; c + e] (DApp2 (OCat 2) d d')).
Proof.
  unfold cat, lift2, cat_shape. cbn [shape data shape_eqb].
  rewrite !andb_false_r. cbn [length Nat.eqb negb].
  change (dim_index 3 2) with (@Ok nat 2%nat). cbn [bind cat_dims shape_eqb].
  rewrite !Z.eqb_refl. reflexivity.
Qed.

(* ------------------------------------------------------------------ *)
(** ** Running a [forward] on tensors of known shape *)

(** Reduce the monad and the record projections, nothing else. *)
Ltac simp :=
  cbn [bind shape data fst snd unpack3 unpack4 identity clone contiguous
       Linear.name Linear.in_features Linear.out_features
       LayerNorm.name LayerNorm.normalized_shape
       Conv2d.name Conv2d.in_channels Conv2d.out_channels Conv2d.kernel_size
       Conv2d.stride Conv2d.padding Conv2d.groups
       BatchNorm2d.name BatchNorm2d.num_features
       Fold.name Fold.output_size Fold.kernel_size Fold.stride Fold.padding
       LinearGELULinear.fc0 LinearGELULinear.fc2
       CrossAttention.num_heads CrossAttention.dim CrossAttention.dim1
       CrossAttention.dim2 CrossAttention.scale CrossAttention.q1
       CrossAttention.proj CrossAttention.k2 CrossAttention.v2
       Attention.num_heads Attention.scale Attention.qk_dim Attention.q
       Attention.k Attention.v Attention.proj Attention.sr_ratio Attention.sr
       Block.norm1 Block.attn Block.drop_path Block.norm2 Block.proj
       PatchEmbed.img_size PatchEmbed.patch_size PatchEmbed.num_patches
       PatchEmbed.project PatchEmbed.upsample PatchEmbed.norm PatchEmbed.norm2
       PatchEmbed.norm3 PatchEmbed.lpu PatchEmbed.fuse PatchEmbed.concatFuse
       PatchEmbed.interact
       DecoderC.norm DecoderC.mlp DecoderC.img_size DecoderC.patch_embed_b
       DecoderC.patch_embed_c DecoderC.patch_embed_d DecoderC.relative_pos_c
       DecoderC.relative_pos_d DecoderC.pre_1_16 DecoderC.pre_1_8
       DecoderC.pre_1_4 DecoderC.pre_1_1 DecoderC.blocks_c DecoderC.blocks_d] in *.

Ltac valid := unfold valid_shape; repeat constructor; try lia.

(** One primitive applied to a tensor of known shape, in the goal. *)
Ltac prim tac :=
  first
    [ rewrite linear3 | rewrite layer_norm3 | rewrite conv2d4
    | rewrite batch_norm4 | rewrite gelu_eq | rewrite sigmoid_eq
    | rewrite scale_by_eq | rewrite transpose12_3 | rewrite transpose12_4
    | rewrite transpose_last2_4 | rewrite permute021 | rewrite permute0213
    | rewrite permute0312 | rewrite flatten2_4 | rewrite softmax_last4
    | rewrite matmul4 | rewrite add_same | rewrite add_bias4 | rewrite cat2_3
    | rewrite reshape_nonneg by (valid; tac)
    | rewrite reshape_infer3 by tac
    | rewrite reshape_infer4_1 by tac
    | rewrite reshape_infer4_3 by tac ].

Lemma floordiv_ok (x y : Z) : y <> 0 -> floordiv x y = Ok (x / y).
Proof. intros H. unfold floordiv. now rewrite (proj2 (Z.eqb_neq y 0)). Qed.

Lemma floordiv_inv (x y q : Z) : floordiv x y = Ok q -> y <> 0 /\ q = x / y.
Proof.
  unfold floordiv. destruct (y =? 0) eqn:E; [discriminate|].
  intros H; inversion H; subst. split; [now apply Z.eqb_neq | reflexivity].
Qed.

Lemma pow_neg_half_inv (h s : Z) : pow_neg_half h = Ok s -> h <> 0 /\ s = h.
Proof.
  unfold pow_neg_half. destruct (h =? 0) eqn:E; [discriminate|].
  intros H; inversion H; subst. split; [now apply Z.eqb_neq | reflexivity].
Qed.

(* ------------------------------------------------------------------ *)
(** ** [CrossAttention] *)

Lemma CrossAttention_init_inv (name : string) (dim1 dim2 dim h : Z)
    (ca : CrossAttention.t) :
  CrossAttention.init name dim1 dim2 dim h = Ok ca ->
  h <> 0 /\ dim / h <> 0 /\
  ca = CrossAttention.mk h dim dim1 dim2 (dim / h)
         (Linear.mk (name ++ ".q1") dim1 dim)
         (Linear.mk (name ++ ".proj") dim dim1)
         (Linear.mk (name ++ ".k2") dim2 dim)
         (Linear.mk (name ++ ".v2") dim2 dim).
Proof.
  unfold CrossAttention.init. intros H.
  apply bind_Ok_inv in H as (hd & Hhd & H). apply floordiv_inv in Hhd as [? ->].
  apply bind_Ok_inv in H as (sc & Hsc & H). apply pow_neg_half_inv in Hsc as [? ->].
  inversion H. auto.
Qed.

Lemma div_exact_mul (x y : Z) : y <> 0 -> x mod y = 0 -> y * (x / y) = x.
Proof. intros Hy Hm. symmetry. now apply Z.div_exact. Qed.

Ltac numel_eq := unfold numel; cbn [fold_right].

(** Run a [forward] whose every test holds; [tac] proves the arithmetic. *)
Ltac run tac :=
  repeat (simp;
          first [ if_true ltac:(try numel_eq; tac)
                | prim tac
                | rewrite floordiv_ok by tac ]);
  simp.

(** Given its two inputs with the widths it was built for,
    [CrossAttention.forward] returns a tensor with the token count and
    width of the query source. *)
Lemma CrossAttention_forward_ok (name : string) (dim1 dim2 dim h : Z)
    (ca : CrossAttention.t) (B N1 N2 : Z) (df dd : Data) :
  CrossAttention.init name dim1 dim2 dim h = Ok ca ->
  0 < h -> 0 <= dim -> dim mod h = 0 ->
  0 <= B -> 0 <= N1 -> 0 <= N2 ->
  exists out,
    CrossAttention.forward ca (mkTensor [B; N1; dim1] df)
                              (mkTensor [B; N2; dim2] dd) = Ok out /\
    shape out = [B; N1; dim1].
Proof.
  intros Hinit Hh Hdim Hmod HB HN1 HN2.
  apply CrossAttention_init_inv in Hinit as (_ & _ & ->).
  assert (Hex : h * (dim / h) = dim) by (apply div_exact_mul; lia).
  assert (Hhd : 0 <= dim / h) by (apply Z.div_pos; lia).
  unfold CrossAttention.forward.
  run ltac:(first [lia | rewrite <- Hex at 2; ring]).
  eexists. split; reflexivity.
Qed.

(* ------------------------------------------------------------------ *)
(** ** [Attention] and [Block] *)

Lemma Attention_init_inv (name : string) (dim h qk sr : Z) (at_ : Attention.t) :
  Attention.init name dim h qk sr = Ok at_ ->
  h <> 0 /\ dim / h <> 0 /\ qk <> 0 /\
  at_ = Attention.mk h (dim / h) (dim / qk)
          (Linear.mk (name ++ ".q") dim (dim / qk))
          (Linear.mk (name ++ ".k") dim (dim / qk))
          (Linear.mk (name ++ ".v") dim dim)
          (Linear.mk (name ++ ".proj") dim dim)
          sr
          (if 1 <? sr
           then Some (Conv2d.mk (name ++ ".sr.0") dim dim sr sr 0 dim,
                      BatchNorm2d.mk (name ++ ".sr.1") dim)
           else None).
Proof.
  unfold Attention.init. intros H.
  apply bind_Ok_inv in H as (hd & Hhd & H). apply floordiv_inv in Hhd as [? ->].
  apply bind_Ok_inv in H as (sc & Hsc & H). apply pow_neg_half_inv in Hsc as [? ->].
  apply bind_Ok_inv in H as (qd & Hqd & H). apply floordiv_inv in Hqd as [? ->].
  inversion H. auto.
Qed.

Lemma div_cancel (q p : Z) : 0 < p -> q * p / p = q.
Proof. intros. apply Z.div_mul. lia. Qed.

Lemma regroup_heads (B T dim h hd : Z) :
  h * hd = dim -> B * (T * (dim * 1)) = T * (B * (h * (hd * 1))).
Proof. intros <-. ring. Qed.

Lemma conv_out_311 (h : Z) : conv_out h 3 1 1 = h.
Proof. unfold conv_out. rewrite Z.div_1_r. lia. Qed.

Lemma Attention_forward_ok (name : string) (dim h sr : Z) (at_ : Attention.t)
    (B H W : Z) (dx : Data) (rp : Tensor) :
  Attention.init name dim h 1 sr = Ok at_ ->
  0 < h -> 0 < dim -> dim mod h = 0 ->
  0 < B -> 0 <= H -> 0 <= W ->
  (1 < sr -> sr <= H /\ sr <= W) ->
  shape rp = [h; H * W; reduced_tokens sr H W] ->
  exists out,
    Attention.forward at_ (mkTensor [B; H * W; dim] dx) H W rp = Ok out /\
    shape out = [B; H * W; dim].
Proof.
  intros Hinit Hh Hdim Hmod HB HH HW Hsr Hrp.
  apply Attention_init_inv in Hinit as (_ & _ & _ & ->).
  destruct rp as [srp drp]. cbn [shape] in Hrp. subst srp.
  assert (Hex : h * (dim / h) = dim) by (apply div_exact_mul; lia).
  assert (Hhd : 0 <= dim / h) by (apply Z.div_pos; lia).
  assert (HN : 0 <= H * W) by lia.
  rewrite Z.div_1_r in *.
  unfold Attention.forward, reduced_tokens, Attention.sr_forward.
  simp.
  destruct (1 <? sr) eqn:Esr.
  - apply Z.ltb_lt in Esr. destruct (Hsr Esr) as [HsH HsW].
    set (H' := conv_out H sr sr 0). set (W' := conv_out W sr sr 0).
    assert (HH' : 0 <= H').
    { unfold H', conv_out. assert (0 <= (H + 2 * 0 - (sr - 1) - 1) / sr)
        by (apply Z.div_pos; lia). lia. }
    assert (HW' : 0 <= W').
    { unfold W', conv_out. assert (0 <= (W + 2 * 0 - (sr - 1) - 1) / sr)
        by (apply Z.div_pos; lia). lia. }
    assert (HBd : 0 < B * (dim * 1)) by nia.
    assert (HBh : 0 < B * (h * (dim / h * 1))) by (rewrite Z.mul_1_r, Hex; nia).
    run ltac:(first [lia | rewrite <- Hex at 2; ring]).
    fold H' W'. numel_eq.
    replace (B * (dim * (H' * (W' * 1)))) with ((H' * W') * (B * (dim * 1))) by ring.
    rewrite Z.mod_mul, div_cancel by lia.
    run ltac:(first [lia | rewrite <- Hex at 2; ring]).
    numel_eq.
    rewrite (regroup_heads B (H' * W') _ _ _ Hex).
    rewrite Z.mod_mul, div_cancel by lia.
    run ltac:(first [lia | rewrite <- Hex at 2; ring]).
    eexists. split; reflexivity.
  - run ltac:(first [lia | rewrite <- Hex at 2; ring]).
    eexists. split; reflexivity.
Qed.

Lemma Block_init_inv (name : string) (dim h dp qk sr : Z) (blk : Block.t) :
  Block.init name dim h dp qk sr = Ok blk ->
  exists at_,
    Attention.init (name ++ ".attn") dim h qk sr = Ok at_ /\
    blk = Block.mk (LayerNorm.mk (name ++ ".norm1") dim) at_ (0 <? dp)
            (LayerNorm.mk (name ++ ".norm2") dim)
            (Conv2d.mk (name ++ ".proj") dim dim 3 1 1 dim).
Proof.
  unfold Block.init. intros H.
  apply bind_Ok_inv in H as (at_ & Hat & H). inversion H. eauto.
Qed.

Lemma Block_forward_ok (dim h sr : Z) (blk : Block.t) (B H W : Z) (x rp : Tensor) :
  built_block dim h sr blk ->
  0 < h -> 0 < dim -> dim mod h = 0 ->
  0 < B -> 1 <= H -> 1 <= W ->
  (1 < sr -> sr <= H /\ sr <= W) ->
  shape rp = [h; H * W; reduced_tokens sr H W] ->
  shape x = [B; H * W; dim] ->
  exists out,
    Block.forward blk x H W rp = Ok out /\ shape out = [B; H * W; dim].
Proof.
  intros (name & dp & Hinit) Hh Hdim Hmod HB HH HW Hsr Hrp Hx.
  apply Block_init_inv in Hinit as (at_ & Hat & ->).
  destruct x as [sx dx]. cbn [shape] in Hx. subst sx.
  unfold Block.forward, Block.drop_path_forward. simp.
  prim lia. rewrite Z.eqb_refl. simp.
  destruct (Attention_forward_ok _ _ _ _ _ B H W
              (DApp1 (OLayerNorm (name ++ ".norm1")) dx) rp
              Hat Hh Hdim Hmod HB ltac:(lia) ltac:(lia) Hsr Hrp)
    as ([so do] & -> & Hso).
  cbn [shape] in Hso. subst so. simp.
  assert (HN : 0 <= H * W) by lia.
  destruct (0 <? dp); unfold lift1; simp;
    run ltac:(first [lia | ring]); rewrite !conv_out_311;
    run ltac:(first [lia | ring]);
    (eexists; split; [reflexivity|]); cbn [shape]; now rewrite Z.mul_1_r.
Qed.

Lemma run_blocks_ok (dim h sr : Z) (blocks : list Block.t) (B H W : Z)
    (rp : Tensor) :
  Forall (built_block dim h sr) blocks ->
  0 < h -> 0 < dim -> dim mod h = 0 ->
  0 < B -> 1 <= H -> 1 <= W ->
  (1 < sr -> sr <= H /\ sr <= W) ->
  shape rp = [h; H * W; reduced_tokens sr H W] ->
  forall x, shape x = [B; H * W; dim] ->
  exists out,
    DecoderC.run_blocks blocks x H W rp = Ok out /\ shape out = [B; H * W; dim].
Proof.
  intros Hall Hh Hdim Hmod HB HH HW Hsr Hrp.
  induction Hall as [|blk blocks Hblk _ IH]; intros x Hx; cbn [DecoderC.run_blocks].
  - eauto.
  - destruct (Block_forward_ok _ _ _ _ _ _ _ _ _ Hblk Hh Hdim Hmod HB HH HW Hsr Hrp Hx)
      as (y & -> & Hy).
    cbn [bind]. apply IH, Hy.
Qed.

(* ------------------------------------------------------------------ *)
(** ** [PatchEmbed] *)

Lemma PatchEmbed_init_inv (name : string) (img ps ic ed k st pad : Z)
    (fuse : bool) (pe : PatchEmbed.t) :
  PatchEmbed.init name img ps ic ed k st pad fuse = Ok pe ->
  exists cf inter,
    pe = PatchEmbed.mk (img, img) (ps, ps) ((img * ps) * (img * ps))
           (Linear.mk (name ++ ".project") ic (ic * k * k))
           (Fold.mk (name ++ ".upsample") (img * st, img * st) (k, k)
                    (st, st) (pad, pad))
           (LayerNorm.mk (name ++ ".norm") ic)
           (LayerNorm.mk (name ++ ".norm2") ed)
           (LayerNorm.mk (name ++ ".norm3") ed)
           (Conv2d.mk (name ++ ".lpu") ic ic 3 1 1 1)
           fuse cf inter /\
    (if fuse
     then cf = LinearGELULinear.init (name ++ ".concatFuse") (ic + ed) ic ed /\
          exists ca, inter = Some ca /\
            CrossAttention.init (name ++ ".interact") ed ic ed 4 = Ok ca
     else cf = LinearGELULinear.init (name ++ ".concatFuse") ic ic ed /\
          inter = None).
Proof.
  unfold PatchEmbed.init, to_2tuple. cbn [fst snd]. destruct fuse; intros H.
  - apply bind_Ok_inv in H as (ca & Hca & H). inversion H.
    do 2 eexists. split; [reflexivity|]. eauto.
  - inversion H. do 2 eexists. split; [reflexivity|]. eauto.
Qed.

Lemma chan_div (ic k : Z) : 0 < k -> ic * k * k / (k * k) = ic.
Proof. intros. rewrite <- Z.mul_assoc. apply Z.div_mul. nia. Qed.

Lemma chan_mod (ic k : Z) : 0 < k -> (ic * k * k) mod (k * k) = 0.
Proof. intros. rewrite <- Z.mul_assoc. apply Z.mod_mul. nia. Qed.

(** On an input of the configured size whose fold geometry is consistent
    (the number of sliding blocks per side is the input side),
    [PatchEmbed.forward] returns [(img*stride)^2] tokens of width
    [embed_dim] and the pair [(H*patch_size, W*patch_size)]. *)
Lemma PatchEmbed_forward_ok (name : string) (img ps ic ed k st pad : Z)
    (fuse : bool) (pe : PatchEmbed.t) (B : Z) (x : Tensor) (enc : option Tensor) :
  PatchEmbed.init name img ps ic ed k st pad fuse = Ok pe ->
  0 <= B -> 0 < img -> 0 < ic -> 0 < k -> 0 < st -> 0 <= pad ->
  fold_blocks (img * st) k st pad = img ->
  shape x = [B; ic; img; img] ->
  (fuse = true ->
   0 <= ed /\ ed mod 4 = 0 /\
   exists e, enc = Some e /\ shape e = [B; (img * st) * (img * st); ed]) ->
  exists y,
    PatchEmbed.forward pe x enc = Ok (y, (img * ps, img * ps)) /\
    shape y = [B; (img * st) * (img * st); ed].
Proof.
  intros Hinit HB Himg Hic Hk Hst Hpad Hgeo Hx Hfuse.
  apply PatchEmbed_init_inv in Hinit as (cf & inter & -> & Hcf).
  destruct x as [sx dx]. cbn [shape] in Hx. subst sx.
  assert (Hos : 1 <= img * st) by nia.
  pose proof (chan_div ic k Hk) as Hcd. pose proof (chan_mod ic k Hk) as Hcm.
  assert (Hnz : ic * k * k <> 0) by nia.
  unfold PatchEmbed.forward, py_assert. simp.
  rewrite !Z.eqb_refl. cbn [andb]. simp.
  run ltac:(lia). rewrite fold3. unfold fold_shape. simp.
  rewrite Hgeo, Hcd.
  run ltac:(first [lia | nia]).
  rewrite !conv_out_311.
  run ltac:(first [lia | nia]).
  replace (img * st * (img * st * 1)) with (img * st * (img * st)) by ring.
  destruct fuse.
  - destruct Hcf as (-> & ca & -> & Hca).
    destruct (Hfuse eq_refl) as (Hed & Hmod & [se de] & -> & He).
    cbn [shape] in He. subst se.
    unfold LinearGELULinear.forward, LinearGELULinear.init,
      PatchEmbed.interact_forward.
    run ltac:(first [lia | nia]).
    match goal with
    | |- context [CrossAttention.forward ca (mkTensor _ ?d1) (mkTensor _ ?d2)] =>
        destruct (CrossAttention_forward_ok _ _ _ _ _ ca B
                    (img * st * (img * st)) (img * st * (img * st)) d1 d2 Hca)
          as ([so do] & -> & Hso); try nia
    end.
    cbn [shape] in Hso. subst so.
    run ltac:(first [lia | nia]).
    eexists. split; reflexivity.
  - destruct Hcf as (-> & ->).
    unfold LinearGELULinear.forward, LinearGELULinear.init.
    run ltac:(first [lia | nia]).
    eexists. split; reflexivity.
Qed.

(* ------------------------------------------------------------------ *)
(** ** What a successful [forward] tells about its arguments *)

Lemma reshape_inv (tgt : Shape) (t y : Tensor) :
  reshape tgt t = Ok y -> valid_shape tgt ->
  shape y = tgt /\ numel tgt = numel (shape t).
Proof.
  destruct t as [s d]. intros H Hv. rewrite reshape_nonneg in H by assumption.
  if_inv H. inversion H. cbn [shape]. bool_hyps. auto.
Qed.

(** Peel the first call off a sequence that returned. *)
Ltac peel H t Ht :=
  apply bind_Ok_inv in H as (t & Ht & H).

Ltac skip H :=
  let t := fresh "t" in
  let Ht := fresh "Ht" in
  apply bind_Ok_inv in H as (t & Ht & H); clear Ht;
  lazymatch type of t with
  | (_ * _)%type => destruct t
  | _ => idtac
  end.

(** Pass over the calls that precede [x.reshape(tgt)]. *)
Ltac skip_to_reshape H tgt :=
  repeat lazymatch type of H with
         | bind (reshape tgt _) _ = _ => fail
         | _ => skip H
         end.

(** One primitive applied to a tensor of known shape, in hypothesis [H]. *)
Ltac prim_in H tac :=
  first
    [ rewrite linear3 in H | rewrite layer_norm3 in H | rewrite conv2d4 in H
    | rewrite batch_norm4 in H | rewrite gelu_eq in H | rewrite sigmoid_eq in H
    | rewrite scale_by_eq in H | rewrite transpose12_3 in H
    | rewrite transpose12_4 in H | rewrite transpose_last2_4 in H
    | rewrite permute021 in H | rewrite permute0213 in H
    | rewrite permute0312 in H | rewrite flatten2_4 in H
    | rewrite softmax_last4 in H | rewrite matmul4 in H | rewrite add_same in H
    | rewrite add_bias4 in H | rewrite cat2_3 in H
    | rewrite reshape_nonneg in H by (valid; tac)
    | rewrite reshape_infer4_3 in H by tac ].

(** Follow a [forward] that returned: every test on the way held. *)
Ltac run_in H tac :=
  repeat (simp;
          first [ if_inv H; bool_hyps
                | prim_in H tac ]);
  simp.

Lemma CrossAttention_forward_inv (name : string) (dim1 dim2 dim h : Z)
    (ca : CrossAttention.t) (fea depth_fea out : Tensor) (B1 N1 C1 B N C2 : Z) :
  CrossAttention.init name dim1 dim2 dim h = Ok ca ->
  CrossAttention.forward ca fea depth_fea = Ok out ->
  shape fea = [B1; N1; C1] -> shape depth_fea = [B; N; C2] ->
  0 <= B -> 0 <= N1 -> 0 <= dim ->
  shape out = [B; N1; dim1].
Proof.
  intros Hinit H Hf Hd HB HN1 Hdim.
  apply CrossAttention_init_inv in Hinit as (_ & _ & ->).
  unfold CrossAttention.forward in H. rewrite Hf, Hd in H. simp.
  skip_to_reshape H [B; N1; dim].
  peel H r Hr. apply reshape_inv in Hr as [Hr _]; [|valid].
  destruct r as [sr dr]. cbn [shape] in Hr. subst sr.
  run_in H lia. inversion H. reflexivity.
Qed.

Lemma Attention_forward_inv (name : string) (dim h qk sr : Z)
    (at_ : Attention.t) (x rp out : Tensor) (H W B N C : Z) :
  Attention.init name dim h qk sr = Ok at_ ->
  Attention.forward at_ x H W rp = Ok out ->
  shape x = [B; N; C] -> 0 <= B -> 0 <= N -> 0 <= C ->
  C = dim /\ shape out = [B; N; dim].
Proof.
  intros Hinit Hf Hx HB HN HC.
  apply Attention_init_inv in Hinit as (_ & _ & _ & ->).
  unfold Attention.forward in Hf. rewrite Hx in Hf. simp.
  skip_to_reshape Hf [B; N; C].
  peel Hf r Hr. apply reshape_inv in Hr as [Hr _]; [|valid].
  destruct r as [sr' dr]. cbn [shape] in Hr. subst sr'.
  run_in Hf lia. inversion Hf. auto.
Qed.

Lemma Block_forward_inv (dim h qk sr : Z) (blk : Block.t) (x rp out : Tensor)
    (H W B N C : Z) :
  (exists name dp, Block.init name dim h dp qk sr = Ok blk) ->
  Block.forward blk x H W rp = Ok out ->
  shape x = [B; N; C] -> 0 <= B -> 0 <= N -> 0 <= C -> 0 <= H -> 0 <= W ->
  C = dim /\ shape out = [B; H * W; dim].
Proof.
  intros (name & dp & Hinit) Hf Hx HB HN HC HH HW.
  apply Block_init_inv in Hinit as (at_ & Hat & ->).
  destruct x as [sx dx]. cbn [shape] in Hx. subst sx.
  unfold Block.forward, Block.drop_path_forward in Hf. simp.
  prim_in Hf lia. if_inv Hf. bool_hyps. subst C. simp.
  peel Hf y Hy.
  eapply Attention_forward_inv in Hy as [_ Hy]; [|eassumption|reflexivity|lia..].
  destruct y as [sy dy]. cbn [shape] in Hy. subst sy.
  destruct (0 <? dp); unfold lift1 in Hf; simp;
    run_in Hf lia; rewrite ?conv_out_311 in Hf; run_in Hf lia;
    inversion Hf; cbn [shape]; rewrite Z.mul_1_r; auto.
Qed.

Lemma run_blocks_inv (dim h qk sr : Z) (blocks : list Block.t) (rp : Tensor)
    (H W B : Z) :
  Forall (fun blk => exists name dp, Block.init name dim h dp qk sr = Ok blk)
         blocks ->
  0 <= B -> 0 <= dim -> 0 <= H -> 0 <= W ->
  forall x out,
    DecoderC.run_blocks blocks x H W rp = Ok out ->
    shape x = [B; H * W; dim] ->
    shape out = [B; H * W; dim].
Proof.
  intros Hall HB Hdim HH HW.
  induction Hall as [|blk blocks Hblk _ IH]; intros x out Hf Hx;
    cbn [DecoderC.run_blocks] in Hf.
  - inversion Hf. now subst.
  - peel Hf y Hy.
    assert (HN : 0 <= H * W) by nia.
    destruct (Block_forward_inv dim h qk sr blk x rp y H W B (H * W) dim
                Hblk Hy Hx HB HN Hdim HH HW) as [_ Hy'].
    eapply IH; eassumption.
Qed.

Lemma PatchEmbed_forward_inv (name : string) (img ps ic ed k st pad : Z)
    (fuse : bool) (pe : PatchEmbed.t) (x : Tensor) (enc : option Tensor)
    (y : Tensor) (hw : Z * Z) :
  PatchEmbed.init name img ps ic ed k st pad fuse = Ok pe ->
  PatchEmbed.forward pe x enc = Ok (y, hw) ->
  valid_shape (shape x) ->
  (fuse = true -> 0 < ed) ->
  exists B,
    shape x = [B; ic; img; img] /\
    hw = (img * ps, img * ps) /\
    shape y = [B; (img * st) * (img * st); ed] /\
    (fuse = true ->
     exists e, enc = Some e /\ shape e = [B; (img * st) * (img * st); ed]).
Proof.
  intros Hinit H Hv Hed.
  apply PatchEmbed_init_inv in Hinit as (cf & inter & -> & Hcf).
  destruct x as [sx dx]. cbn [shape] in Hv.
  unfold PatchEmbed.forward, py_assert in H. simp.
  destruct sx as [|B [|C [|H0 [|W0 [|? ?]]]]]; try discriminate H. simp.
  inversion Hv as [|? ? HB _]; subst.
  if_inv H. bool_hyps. subst H0 W0. simp.
  run_in H lia. subst C.
  rewrite fold3 in H. unfold fold_shape in H. run_in H lia.
  rewrite chan_div in H by lia.
  run_in H lia. rewrite !conv_out_311 in H. run_in H lia.
  replace (img * st * (img * st * 1)) with (img * st * (img * st)) in H by ring.
  exists B. destruct fuse.
  - destruct Hcf as (-> & ca & -> & Hca). specialize (Hed eq_refl).
    destruct enc as [[se de]|]; [|discriminate H].
    unfold cat, lift2 in H. simp.
    peel H c Hc. destruct c as [sc dc].
    peel Hc sc' Hsc. inversion Hc; subst sc' dc. clear Hc.
    unfold LinearGELULinear.forward, LinearGELULinear.init,
      PatchEmbed.interact_forward in H.
    apply cat_shape2_inv in Hsc as [[-> ->] | (e & -> & ->)].
    { run_in H lia. lia. }
    run_in H lia. assert (e = ed) by lia. subst e.
    peel H z Hz.
    eapply CrossAttention_forward_inv in Hz;
      [|eassumption|reflexivity|reflexivity|lia|nia|lia].
    destruct z as [sz dz]. cbn [shape] in Hz. subst sz.
    run_in H lia. inversion H. cbn [shape]. repeat split; eauto.
  - destruct Hcf as (-> & ->).
    unfold LinearGELULinear.forward, LinearGELULinear.init in H.
    run_in H lia. inversion H. cbn [shape]. repeat split; discriminate.
Qed.

(* ------------------------------------------------------------------ *)
(** ** [DecoderC.__init__] *)

Lemma for_range_inv {A : Type} (f : Z -> Result A) (n : nat) :
  forall (start : Z) (l : list A),
    for_range f start n = Ok l ->
    length l = n /\ Forall (fun a => exists i, f i = Ok a) l.
Proof.
  induction n as [|n IH]; intros start l H; cbn [for_range] in H.
  - inversion H. split; [reflexivity | constructor].
  - apply bind_Ok_inv in H as (a & Ha & H).
    apply bind_Ok_inv in H as (r & Hr & H). inversion H; subst.
    apply IH in Hr as [Hlen Hall]. split; [cbn; congruence|].
    constructor; eauto.
Qed.

Lemma randn_inv (name : string) (dims : Shape) (t : Tensor) :
  randn name dims = Ok t -> t = mkTensor dims (DParam name) /\ valid_shape dims.
Proof.
  unfold randn. destruct (forallb _ dims) eqn:E; [|discriminate].
  intros H; inversion H. split; [reflexivity|].
  unfold valid_shape. rewrite Forall_forall. rewrite forallb_forall in E.
  intros d Hd. apply E in Hd. now apply Z.leb_le.
Qed.

Lemma DecoderC_init_inv (img : Z) (embed_dims num_heads depths : list Z)
    (qk_ratio : Z) (sr_ratios : list Z) (d : DecoderC.t) :
  DecoderC.init img embed_dims num_heads depths qk_ratio sr_ratios = Ok d ->
  exists e0 e1 e2 e3 h2 h3 s2 s3,
    getitem embed_dims 0 = Ok e0 /\ getitem embed_dims 1 = Ok e1 /\
    getitem embed_dims 2 = Ok e2 /\ getitem embed_dims 3 = Ok e3 /\
    getitem num_heads 2 = Ok h2 /\ getitem num_heads 3 = Ok h3 /\
    getitem sr_ratios 2 = Ok s2 /\ getitem sr_ratios 3 = Ok s3 /\
    built_decoder img qk_ratio e0 e1 e2 e3 h2 h3 s2 s3 d.
Proof.
  unfold DecoderC.init. intros H.
  peel H e0 He0. peel H e1 He1. peel H e2 He2. peel H e3 He3.
  peel H pb Hpb. peel H pc Hpc. peel H pd Hpd.
  peel H h2 Hh2. peel H s2 Hs2.
  peel H n1 Hn1. apply floordiv_inv in Hn1 as [Hs2nz ->].
  peel H n2 Hn2. apply floordiv_inv in Hn2 as [_ ->].
  peel H rc Hrc. apply randn_inv in Hrc as [-> _].
  peel H h3 Hh3. peel H s3 Hs3.
  peel H n3 Hn3. apply floordiv_inv in Hn3 as [Hs3nz ->].
  peel H n4 Hn4. apply floordiv_inv in Hn4 as [_ ->].
  peel H rd Hrd. apply randn_inv in Hrd as [-> _].
  peel H dpr Hdpr. peel H d0 Hd0. peel H d1 Hd1. peel H d2 Hd2.
  peel H bc Hbc. apply for_range_inv in Hbc as [_ Hbc].
  peel H d3 Hd3.
  peel H bd Hbd. apply for_range_inv in Hbd as [_ Hbd].
  inversion H; subst d; clear H.
  pose proof (PatchEmbed_init_inv _ _ _ _ _ _ _ _ _ _ Hpc) as (? & ? & Epc & _).
  pose proof (PatchEmbed_init_inv _ _ _ _ _ _ _ _ _ _ Hpd) as (? & ? & Epd & _).
  assert (Enc : PatchEmbed.num_patches pc = (img / 8 * 2) * (img / 8 * 2))
    by (rewrite Epc; reflexivity).
  assert (End : PatchEmbed.num_patches pd = (img / 16 * 2) * (img / 16 * 2))
    by (rewrite Epd; reflexivity).
  rewrite Enc, End.
  exists e0, e1, e2, e3, h2, h3, s2, s3. repeat (split; [assumption|]).
  constructor; simp; try assumption; try reflexivity.
  - eapply Forall_impl; [|exact Hbc]. cbn beta. intros blk (i & Hi).
    apply bind_Ok_inv in Hi as (dp & _ & Hi). eauto.
  - eapply Forall_impl; [|exact Hbd]. cbn beta. intros blk (i & Hi).
    apply bind_Ok_inv in Hi as (dp & _ & Hi). eauto.
Qed.

(* ------------------------------------------------------------------ *)
(** ** [DecoderC.forward] in the default configuration *)

Ltac get_default H :=
  vm_compute in H; injection H as H; subst.

Lemma infer_last (B H W T C : Z) :
  0 < B -> 0 < H -> 0 < W -> T = H * W ->
  (0 <? B * (H * (W * 1))) && ((B * (T * (C * 1))) mod (B * (H * (W * 1))) =? 0) = true
  /\ B * (T * (C * 1)) / (B * (H * (W * 1))) = C.
Proof.
  intros HB HH HW ->.
  replace (B * (H * W * (C * 1))) with (C * (B * (H * (W * 1)))) by ring.
  assert (0 < B * (H * (W * 1))) by nia.
  rewrite Z.mod_mul, div_cancel by lia. split; [|reflexivity].
  apply andb_true_intro. split; [now apply Z.ltb_lt | reflexivity].
Qed.

Lemma DecoderC_forward_features_default (d : DecoderC.t) (B : Z)
    (x x_1_8 x_1_4 : Tensor) :
  DecoderC.init_default 224 = Ok d ->
  0 < B ->
  shape x = [B; 196; 384] ->
  shape x_1_8 = [B; 784; 128] ->
  shape x_1_4 = [B; 3136; 64] ->
  exists m16 m8 m4 m1,
    DecoderC.forward_features d x x_1_8 x_1_4 = Ok [m16; m8; m4; m1] /\
    shape m16 = [B; 1; 14; 14] /\ shape m8 = [B; 1; 28; 28] /\
    shape m4 = [B; 1; 56; 56] /\ shape m1 = [B; 1; 224; 224].
Proof.
  intros Hinit HB Hx H8 H4.
  apply DecoderC_init_inv in Hinit
    as (e0 & e1 & e2 & e3 & h2 & h3 & s2 & s3 &
        He0 & He1 & He2 & He3 & Hh2 & Hh3 & Hs2 & Hs3 & Hbd).
  get_default He0. get_default He1. get_default He2. get_default He3.
  get_default Hh2. get_default Hh3. get_default Hs2. get_default Hs3.
  destruct Hbd as [_ _ Eimg Enorm Emlp Hpb Hpc Hpd Erc Erd E16 E8 E4 E1 Hbc Hbd].
  destruct x as [sx dx]. cbn [shape] in Hx. subst sx.
  unfold DecoderC.forward_features.
  rewrite Eimg, Enorm, Emlp, E16, E8, E4, E1, Erc, Erd.
  unfold LinearGELULinear.forward, LinearGELULinear.init.
  change (224 / 16) with 14 in *. change (224 / 8) with 28 in *.
  change (224 / 4) with 56 in *. change (224 / 1) with 224 in *.
  run lia.
  (* stage d *)
  match goal with
  | |- context [PatchEmbed.forward _ ?t (Some x_1_8)] =>
      destruct (PatchEmbed_forward_ok _ _ _ _ _ _ _ _ _ _ B t (Some x_1_8) Hpd)
        as ([sy dy] & -> & Hy);
      [lia | lia | lia | lia | lia | lia | reflexivity | reflexivity | | ]
  end.
  { intros _. split; [lia|]. split; [reflexivity|]. eauto. }
  cbn [shape] in Hy. subst sy. simp.
  assert (Hz := fun H1 H2 H3 H4 H5 H6 H7 H8 =>
    run_blocks_ok 128 8 1 (DecoderC.blocks_d d) B (14 * 2) (14 * 2)
      {| shape := [8; 14 * 2 * (14 * 2); 14 * 2 * (14 * 2) / 1 / 1];
         data := DParam "relative_pos_d" |} Hbd H1 H2 H3 H4 H5 H6 H7 H8
      (mkTensor _ dy) eq_refl).
  destruct Hz as ([sz dz] & -> & Hsz);
    try lia; try reflexivity; try (intros; lia).
  cbn [shape] in Hsz. subst sz. simp.
  run lia.
  destruct (infer_last B (14 * 2) (14 * 2) (14 * 2 * (14 * 2)) 128) as [Et Ed];
    try lia.
  numel_eq. rewrite Et, Ed. clear Et Ed.
  run lia.
  (* stage c *)
  match goal with
  | |- context [PatchEmbed.forward _ ?t (Some x_1_4)] =>
      destruct (PatchEmbed_forward_ok _ _ _ _ _ _ _ _ _ _ B t (Some x_1_4) Hpc)
        as ([sy' dy'] & -> & Hy');
      [lia | lia | lia | lia | lia | lia | reflexivity | reflexivity | | ]
  end.
  { intros _. split; [lia|]. split; [reflexivity|]. eauto. }
  cbn [shape] in Hy'. subst sy'. simp.
  assert (Hz := fun H1 H2 H3 H4 H5 H6 H7 H8 =>
    run_blocks_ok 64 4 2 (DecoderC.blocks_c d) B (28 * 2) (28 * 2)
      {| shape := [4; 28 * 2 * (28 * 2); 28 * 2 * (28 * 2) / 2 / 2];
         data := DParam "relative_pos_c" |} Hbc H1 H2 H3 H4 H5 H6 H7 H8
      (mkTensor _ dy') eq_refl).
  destruct Hz as ([sz' dz'] & -> & Hsz');
    try lia; try reflexivity; try (intros; lia).
  cbn [shape] in Hsz'. subst sz'. simp.
  run lia.
  destruct (infer_last B (28 * 2) (28 * 2) (28 * 2 * (28 * 2)) 64) as [Et Ed];
    try lia.
  numel_eq. rewrite Et, Ed. clear Et Ed.
  run lia.
  (* stage b *)
  match goal with
  | |- context [PatchEmbed.forward _ ?t None] =>
      destruct (PatchEmbed_forward_ok _ _ _ _ _ _ _ _ _ _ B t None Hpb)
        as ([sy'' dy''] & -> & Hy'');
      [lia | lia | lia | lia | lia | lia | reflexivity | reflexivity | | ]
  end.
  { discriminate. }
  cbn [shape] in Hy''. subst sy''. simp.
  run lia.
  do 4 eexists. split; [reflexivity|]. cbn [shape]. auto.
Qed.

(* ------------------------------------------------------------------ *)
(** ** [DecoderC.forward_features] for any [img_size] *)

Lemma sq_eq (B q r : Z) :
  0 < B -> 0 <= q -> 0 <= r -> B * (q * q) = B * (r * r) -> q = r.
Proof. intros HB Hq Hr E. apply Z.mul_reg_l in E; [nia | lia]. Qed.

Lemma DecoderC_forward_features_inv (img : Z) (d : DecoderC.t) (B N C : Z)
    (x x_1_8 x_1_4 : Tensor) (outs : list Tensor) :
  DecoderC.init_default img = Ok d ->
  0 < B ->
  shape x = [B; N; C] ->
  DecoderC.forward_features d x x_1_8 x_1_4 = Ok outs ->
  img = 224 /\ N = 196 /\ C = 384.
Proof.
  intros Hinit HB Hx H.
  apply DecoderC_init_inv in Hinit
    as (e0 & e1 & e2 & e3 & h2 & h3 & s2 & s3 &
        He0 & He1 & He2 & He3 & Hh2 & Hh3 & Hs2 & Hs3 & Hbd).
  get_default He0. get_default He1. get_default He2. get_default He3.
  get_default Hh2. get_default Hh3. get_default Hs2. get_default Hs3.
  destruct Hbd as [_ _ Eimg Enorm Emlp Hpb Hpc Hpd Erc Erd E16 E8 E4 E1 Hbc Hbd].
  destruct x as [sx dx]. cbn [shape] in Hx. subst sx.
  unfold DecoderC.forward_features in H.
  rewrite Eimg, Enorm, Emlp, E16, E8, E4, E1, Erc, Erd in H.
  unfold LinearGELULinear.forward, LinearGELULinear.init in H.
  run_in H lia. subst C.
  skip H.
  run_in H lia.
  assert (HN : N = 196) by (unfold numel in *; cbn [fold_right] in *; nia).
  subst N.
  (* stage d *)
  peel H r Hr. destruct r as [y [Hd Wd]].
  eapply PatchEmbed_forward_inv in Hr; [|exact Hpd|valid|lia].
  destruct Hr as (B' & Ein & Ehw & Hy & _).
  cbn [shape] in Ein. injection Ein as <- E14 _. injection Ehw as -> ->.
  assert (Himg : 224 <= img < 240) by (Z.div_mod_to_equations; lia).
  assert (H8 : 0 <= img / 8) by (Z.div_mod_to_equations; lia).
  assert (H4 : 0 <= img / 4) by (Z.div_mod_to_equations; lia).
  rewrite <- E14 in *.
  peel H z Hz.
  eapply (run_blocks_inv 128 8 1 1) in Hz; [|exact Hbd|try lia..|exact Hy].
  destruct z as [sz dz]. cbn [shape] in Hz. subst sz.
  run_in H lia.
  match goal with
  | E : numel [B; 1; img / 8; img / 8] = _ |- _ =>
      unfold numel in E; cbn [fold_right] in E;
      assert (E28 : img / 8 = 28) by (apply (sq_eq B); lia); clear E
  end.
  rewrite E28 in *.
  destruct (infer_last B (14 * 2) (14 * 2) (14 * 2 * (14 * 2)) 128) as [_ Ed];
    try lia.
  unfold numel in H; cbn [fold_right] in H. rewrite Ed in H. clear Ed.
  (* stage c *)
  peel H r Hr. destruct r as [y' [Hc Wc]].
  eapply PatchEmbed_forward_inv in Hr; [|exact Hpc|valid|lia].
  destruct Hr as (B' & Ein & Ehw & Hy' & _).
  cbn [shape] in Ein. injection Ein; intros; subst B'; clear Ein.
  injection Ehw as -> ->.
  peel H z' Hz'.
  eapply (run_blocks_inv 64 4 1 2) in Hz'; [|exact Hbc|try lia..|exact Hy'].
  destruct z' as [sz' dz']. cbn [shape] in Hz'. subst sz'.
  run_in H lia.
  match goal with
  | E : numel [B; 1; img / 4; img / 4] = _ |- _ =>
      unfold numel in E; cbn [fold_right] in E;
      assert (E56 : img / 4 = 56) by (apply (sq_eq B); lia); clear E
  end.
  rewrite E56 in *.
  destruct (infer_last B (28 * 2) (28 * 2) (28 * 2 * (28 * 2)) 64) as [_ Ed];
    try lia.
  unfold numel in H; cbn [fold_right] in H. rewrite Ed in H. clear Ed.
  (* stage b *)
  peel H r Hr. destruct r as [y'' [Hb Wb]].
  eapply PatchEmbed_forward_inv in Hr; [|exact Hpb|valid|discriminate].
  destruct Hr as (B' & Ein & Ehw & Hy'' & _).
  cbn [shape] in Ein. injection Ein; intros; subst B'; clear Ein.
  injection Ehw as -> ->.
  destruct y'' as [sy dy]. cbn [shape] in Hy''. subst sy.
  rewrite Z.div_1_r in H.
  run_in H lia.
  match goal with
  | E : numel [B; 1; img; img] = _ |- _ =>
      unfold numel in E; cbn [fold_right] in E;
      assert (E224 : img = 224) by (apply (sq_eq B); lia)
  end.
  auto.
  all: lia.
Qed.

(* ------------------------------------------------------------------ *)
(** ** Only [assert] raises [AssertionError] *)

Lemma no_assert_bind {A B : Type} (c : Result A) (k : A -> Result B) :
  no_assert c -> (forall a, no_assert (k a)) -> no_assert (bind c k).
Proof.
  unfold no_assert. intros Hc Hk H.
  apply bind_Raise_inv in H as [H | (a & _ & H)]; [auto | eapply Hk, H].
Qed.

Lemma no_assert_Ok {A : Type} (a : A) : no_assert (Ok a).
Proof. discriminate. Qed.

Lemma no_assert_lift1 (op : Op) (f : Shape -> Result Shape) (x : Tensor) :
  (forall s, no_assert (f s)) -> no_assert (lift1 op f x).
Proof.
  intros Hf. unfold lift1. apply no_assert_bind; [apply Hf|].
  intros. apply no_assert_Ok.
Qed.

Lemma no_assert_lift2 (op : Op) (f : Shape -> Shape -> Result Shape)
    (x y : Tensor) :
  (forall s s', no_assert (f s s')) -> no_assert (lift2 op f x y).
Proof.
  intros Hf. unfold lift2. apply no_assert_bind; [apply Hf|].
  intros. apply no_assert_Ok.
Qed.

(** Case analysis on every test of a shape rule. *)
Ltac no_assert_cases :=
  unfold no_assert;
  repeat match goal with
         | |- context [match ?x with _ => _ end] => destruct x
         end;
  discriminate.

Lemma no_assert_dim_index (r : nat) (d : Z) : no_assert (dim_index r d).
Proof. unfold dim_index. no_assert_cases. Qed.

Lemma no_assert_floordiv (a b : Z) : no_assert (floordiv a b).
Proof. unfold floordiv. no_assert_cases. Qed.

Lemma no_assert_transpose_shape (d0 d1 : Z) (s : Shape) :
  no_assert (transpose_shape d0 d1 s).
Proof.
  unfold transpose_shape.
  apply no_assert_bind; [apply no_assert_dim_index | intros].
  apply no_assert_bind; [apply no_assert_dim_index | intros].
  apply no_assert_Ok.
Qed.

Lemma no_assert_map_result {A B : Type} (f : A -> Result B) (l : list A) :
  (forall a, no_assert (f a)) -> no_assert (map_result f l).
Proof.
  intros Hf. induction l as [|a l IH]; cbn [map_result]; [apply no_assert_Ok|].
  apply no_assert_bind; [apply Hf | intros].
  apply no_assert_bind; [apply IH | intros]. apply no_assert_Ok.
Qed.

Lemma no_assert_permute_shape (dims : list Z) (s : Shape) :
  no_assert (permute_shape dims s).
Proof.
  unfold permute_shape. destruct (negb _); [discriminate|].
  apply no_assert_bind;
    [apply no_assert_map_result; intros; apply no_assert_dim_index | intros].
  destruct (distinct _); discriminate.
Qed.

Lemma no_assert_reshape_shape (tgt s : Shape) : no_assert (reshape_shape tgt s).
Proof. unfold reshape_shape. no_assert_cases. Qed.

Lemma no_assert_flatten_shape (start : Z) (s : Shape) :
  no_assert (flatten_shape start s).
Proof.
  unfold flatten_shape.
  apply no_assert_bind; [apply no_assert_dim_index | intros; apply no_assert_Ok].
Qed.

Lemma no_assert_softmax_shape (dim : Z) (s : Shape) :
  no_assert (softmax_shape dim s).
Proof.
  unfold softmax_shape.
  apply no_assert_bind; [apply no_assert_dim_index | intros; apply no_assert_Ok].
Qed.

Lemma no_assert_broadcast_rev (a b : Shape) : no_assert (broadcast_rev a b).
Proof.
  revert b. induction a as [|x a IH]; intros [|y b]; cbn [broadcast_rev];
    try apply no_assert_Ok.
  apply no_assert_bind; [apply IH | intros]. no_assert_cases.
Qed.

Lemma no_assert_broadcast_shapes (a b : Shape) : no_assert (broadcast_shapes a b).
Proof.
  unfold broadcast_shapes.
  apply no_assert_bind; [apply no_assert_broadcast_rev | intros].
  apply no_assert_Ok.
Qed.

Lemma no_assert_matmul_shape (a b : Shape) : no_assert (matmul_shape a b).
Proof.
  unfold matmul_shape.
  destruct (rev a) as [|? [|? ?]]; try discriminate.
  destruct (rev b) as [|? [|? ?]]; try discriminate.
  destruct (_ =? _); [|discriminate].
  apply no_assert_bind; [apply no_assert_broadcast_rev | intros].
  apply no_assert_Ok.
Qed.

Lemma no_assert_cat_dims (i : nat) (a b : Shape) : no_assert (cat_dims i a b).
Proof.
  revert i b. induction a as [|x a IH]; intros i b; destruct b; destruct i;
    cbn [cat_dims]; try discriminate.
  - destruct (shape_eqb _ _); discriminate.
  - destruct (_ =? _); [|discriminate].
    apply no_assert_bind; [apply IH | intros; apply no_assert_Ok].
Qed.

Lemma no_assert_cat_shape (dim : Z) (a b : Shape) : no_assert (cat_shape dim a b).
Proof.
  unfold cat_shape.
  destruct (shape_eqb a [0]); [apply no_assert_Ok|].
  destruct (shape_eqb b [0]); [apply no_assert_Ok|].
  destruct (negb _); [discriminate|].
  apply no_assert_bind; [apply no_assert_dim_index | intros].
  apply no_assert_cat_dims.
Qed.

Lemma no_assert_linear_shape (fin fout : Z) (s : Shape) :
  no_assert (linear_shape fin fout s).
Proof. unfold linear_shape. no_assert_cases. Qed.

Lemma no_assert_layer_norm_shape (d : Z) (s : Shape) :
  no_assert (layer_norm_shape d s).
Proof. unfold layer_norm_shape. no_assert_cases. Qed.

Lemma no_assert_conv2d_shape (cin cout k st pad : Z) (s : Shape) :
  no_assert (conv2d_shape cin cout k st pad s).
Proof. unfold conv2d_shape. no_assert_cases. Qed.

Lemma no_assert_fold_shape (out k st pad : Z * Z) (s : Shape) :
  no_assert (fold_shape out k st pad s).
Proof. unfold fold_shape. no_assert_cases. Qed.

Lemma no_assert_unpack3 (s : Shape) : no_assert (unpack3 s).
Proof. unfold unpack3. no_assert_cases. Qed.

Lemma no_assert_unpack4 (s : Shape) : no_assert (unpack4 s).
Proof. unfold unpack4. no_assert_cases. Qed.

Create HintDb no_assert.

#[local] Hint Resolve no_assert_unpack3 no_assert_unpack4 no_assert_dim_index
  : no_assert.

#[local] Hint Resolve no_assert_Ok no_assert_floordiv no_assert_transpose_shape
  no_assert_permute_shape no_assert_reshape_shape no_assert_flatten_shape
  no_assert_softmax_shape no_assert_broadcast_shapes no_assert_matmul_shape
  no_assert_cat_shape no_assert_linear_shape no_assert_layer_norm_shape
  no_assert_conv2d_shape no_assert_fold_shape : no_assert.

(** A sequence of calls none of which is an [assert]. *)
Ltac no_assert_seq :=
  repeat first
    [ solve [auto with no_assert]
    | match goal with
      | |- no_assert (match ?a with _ => _ end) => is_var a; destruct a
      end
    | apply no_assert_lift1; intros
    | apply no_assert_lift2; intros
    | apply no_assert_bind; [ | intros ?] ].

Lemma no_assert_Linear (l : Linear.t) (x : Tensor) :
  no_assert (Linear.forward l x).
Proof. unfold Linear.forward. no_assert_seq. Qed.

Lemma no_assert_LayerNorm (l : LayerNorm.t) (x : Tensor) :
  no_assert (LayerNorm.forward l x).
Proof. unfold LayerNorm.forward. no_assert_seq. Qed.

Lemma no_assert_Conv2d (l : Conv2d.t) (x : Tensor) :
  no_assert (Conv2d.forward l x).
Proof. unfold Conv2d.forward. no_assert_seq. Qed.

Lemma no_assert_Fold (l : Fold.t) (x : Tensor) : no_assert (Fold.forward l x).
Proof. unfold Fold.forward. no_assert_seq. Qed.

#[local] Hint Resolve no_assert_Linear no_assert_LayerNorm no_assert_Conv2d
  no_assert_Fold : no_assert.

Lemma no_assert_LinearGELULinear (l : LinearGELULinear.t) (x : Tensor) :
  no_assert (LinearGELULinear.forward l x).
Proof. unfold LinearGELULinear.forward, gelu. no_assert_seq. Qed.

Lemma no_assert_CrossAttention (ca : CrossAttention.t) (fea depth_fea : Tensor) :
  no_assert (CrossAttention.forward ca fea depth_fea).
Proof.
  unfold CrossAttention.forward.
  unfold reshape, permute, transpose, matmul, scale_by, softmax, identity.
  no_assert_seq.
Qed.

#[local] Hint Resolve no_assert_LinearGELULinear no_assert_CrossAttention
  : no_assert.

(** Past its [assert], [PatchEmbed.forward] raises no [AssertionError]. *)
Lemma PatchEmbed_forward_past_assert (pe : PatchEmbed.t) (x : Tensor)
    (enc : option Tensor) (B C H W : Z) :
  shape x = [B; C; H; W] ->
  H = fst (PatchEmbed.img_size pe) -> W = snd (PatchEmbed.img_size pe) ->
  no_assert (PatchEmbed.forward pe x enc).
Proof.
  intros Hx -> ->. unfold PatchEmbed.forward, py_assert. rewrite Hx.
  cbn [unpack4 bind]. rewrite !Z.eqb_refl. cbn [andb bind].
  unfold flatten, transpose, add, clone, cat, PatchEmbed.interact_forward.
  destruct (PatchEmbed.fuse pe), enc, (PatchEmbed.interact pe);
    no_assert_seq; try discriminate.
Qed.

(* ------------------------------------------------------------------ *)
(** ** [load_list] *)

Module DatasetFacts.
Import Dataset.
#[local] Open Scope string_scope.

Lemma endswith_spec (suffix s : string) :
  endswith suffix s = true <-> exists p, s = p ++ suffix.
Proof.
  induction s as [|c s IH]; cbn [endswith].
  - rewrite orb_false_r, String.eqb_eq. split.
    + intros <-. now exists "".
    + intros ([|? ?] & Hp); cbn in Hp; [auto | discriminate].
  - rewrite orb_true_iff, String.eqb_eq, IH. split.
    + intros [<- | (p & ->)]; [now exists "" | now exists (String c p)].
    + intros ([|c' p] & Hp); cbn in Hp; [now left|].
      inversion Hp; subst. right. now exists p.
Qed.

Lemma endswith_append (suffix p : string) : endswith suffix (p ++ suffix) = true.
Proof. apply endswith_spec. now exists p. Qed.

Lemma append_assoc (a b c : string) : (a ++ b) ++ c = a ++ (b ++ c).
Proof. induction a as [|x a IH]; cbn; [reflexivity | now rewrite IH]. Qed.

Lemma length_append (a b : string) :
  String.length (a ++ b) = (String.length a + String.length b)%nat.
Proof. induction a as [|x a IH]; cbn; [reflexivity | now rewrite IH]. Qed.

(** Two strings of one length that end a common string are equal. *)
Lemma append_same_length (p q a b : string) :
  String.length a = String.length b -> p ++ a = q ++ b -> a = b.
Proof.
  revert q. induction p as [|x p IH]; intros [|y q] Hlen H; cbn in H.
  - assumption.
  - apply (f_equal String.length) in H. cbn in H.
    rewrite length_append in H. lia.
  - apply (f_equal String.length) in H. cbn in H.
    rewrite length_append in H. lia.
  - inversion H. eauto.
Qed.

Lemma png_is_not_jpg (p : string) : endswith ".jpg" (p ++ ".png") = false.
Proof.
  destruct (endswith ".jpg" (p ++ ".png")) eqn:E; [|reflexivity].
  apply endswith_spec in E as (q & E).
  apply append_same_length in E; [discriminate | reflexivity].
Qed.

Lemma image_path_endswith (img_root img ext : string) :
  endswith ext (image_path img_root img ext) = true.
Proof.
  unfold image_path. rewrite <- append_assoc. apply endswith_append.
Qed.

Lemma label_path_endswith (img_root img ext : string) :
  endswith ext (label_path img_root img ext) = true.
Proof.
  unfold label_path. rewrite <- append_assoc. apply endswith_append.
Qed.

(** The loop of a stanza appends one path to each list per file. *)
Lemma stanza_loop (img_root ext_image ext_label : string)
    (img_files images labels : list string) :
  fold_left
    (fun '(images, labels) img =>
       (images ++ [image_path img_root img ext_image],
        labels ++ [label_path img_root img ext_label])%list)
    img_files (images, labels) =
  ((images ++ map (fun img => image_path img_root img ext_image) img_files)%list,
   (labels ++ map (fun img => label_path img_root img ext_label) img_files)%list).
Proof.
  revert images labels.
  induction img_files as [|img l IH]; intros images labels; cbn [fold_left map].
  - now rewrite !app_nil_r.
  - rewrite IH, <- !app_assoc. reflexivity.
Qed.

Lemma stanza_inv (listdir : string -> Result (list string))
    (data_root name ext_image ext_label : string)
    (images labels images' labels' : list string) :
  stanza listdir data_root name ext_image ext_label (images, labels)
    = Ok (images', labels') ->
  exists img_files,
    listdir (data_root ++ name ++ "/train_A/") = Ok img_files /\
    images' = (images ++ map (fun img =>
                 image_path (data_root ++ name ++ "/train_A/") img ext_image)
                 img_files)%list /\
    labels' = (labels ++ map (fun img =>
                 label_path (data_root ++ name ++ "/train_A/") img ext_label)
                 img_files)%list.
Proof.
  unfold stanza. intros H. apply bind_Ok_inv in H as (files & Hl & H).
  rewrite stanza_loop in H. inversion H. eauto.
Qed.

Lemma combine_app {A B : Type} (a a' : list A) (b b' : list B) :
  length a = length b ->
  combine (a ++ a') (b ++ b') = (combine a b ++ combine a' b')%list.
Proof.
  revert b. induction a as [|x a IH]; intros [|y b] Hlen; cbn in *;
    try discriminate; [reflexivity|].
  now rewrite IH by congruence.
Qed.

Lemma In_combine_map (f g : string -> string) (files : list string)
    (img : string) :
  In img files -> In (f img, g img) (combine (map f files) (map g files)).
Proof.
  induction files as [|x l IH]; [contradiction|].
  intros [-> | Hin]; cbn; auto.
Qed.

Lemma In_combine_skip {A B : Type} (p : A * B) (a a' : list A) (b b' : list B) :
  length a = length b ->
  In p (combine a' b') -> In p (combine (a ++ a') (b ++ b')).
Proof.
  intros Hlen Hin. rewrite combine_app by assumption. apply in_or_app. auto.
Qed.

Lemma In_combine_here {A B : Type} (p : A * B) (a a' : list A) (b b' : list B) :
  length a = length b ->
  In p (combine a b) -> In p (combine (a ++ a') (b ++ b')).
Proof.
  intros Hlen Hin. rewrite combine_app by assumption. apply in_or_app. auto.
Qed.

Ltac skip_stanza :=
  apply In_combine_skip; [rewrite !length_map; reflexivity|].

Ltac this_stanza :=
  first [ apply In_combine_here; [rewrite !length_map; reflexivity|] | idtac ];
  apply (In_combine_map (fun img => image_path _ img _)
                        (fun img => label_path _ img _));
  assumption.

(** What [load_list] returns: the nine listings, each mapped to its
    image paths and to its label paths, in the order of the stanzas. *)
Lemma load_list_inv (listdir : string -> Result (list string))
    (dataset_name data_root : string) (images labels : list string) :
  load_list listdir dataset_name data_root = Ok (images, labels) ->
  exists f1 f2 f3 f4 f5 f6 f7 f8 f9,
    let root name := data_root ++ name ++ "/train_A/" in
    let im name ext l := map (fun img => image_path (root name) img ext) l in
    let lb name ext l := map (fun img => label_path (root name) img ext) l in
    listdir (root "ISTD_SP") = Ok f1 /\ listdir (root "ISTD_DSC") = Ok f2 /\
    listdir (root "ISTD_DC") = Ok f3 /\ listdir (root "ISTD_BM") = Ok f4 /\
    listdir (root "ISTD_TG") = Ok f5 /\ listdir (root "SRD_BM") = Ok f6 /\
    listdir (root "SRD_DC") = Ok f7 /\ listdir (root "SRD_DSC") = Ok f8 /\
    listdir (root "SRD_TG") = Ok f9 /\
    images = (im "ISTD_SP" ".png" f1 ++ im "ISTD_DSC" ".png" f2 ++
              im "ISTD_DC" ".png" f3 ++ im "ISTD_BM" ".png" f4 ++
              im "ISTD_TG" ".png" f5 ++ im "SRD_BM" ".jpg" f6 ++
              im "SRD_DC" ".png" f7 ++ im "SRD_DSC" ".jpg" f8 ++
              im "SRD_TG" ".jpg" f9)%list /\
    labels = (lb "ISTD_SP" ".png" f1 ++ lb "ISTD_DSC" ".png" f2 ++
              lb "ISTD_DC" ".png" f3 ++ lb "ISTD_BM" ".png" f4 ++
              lb "ISTD_TG" ".png" f5 ++ lb "SRD_BM" ".jpg" f6 ++
              lb "SRD_DC" ".jpg" f7 ++ lb "SRD_DSC" ".jpg" f8 ++
              lb "SRD_TG" ".jpg" f9)%list.
Proof.
  unfold load_list. intros H.
  apply bind_Ok_inv in H as ([i1 l1] & H1 & H).
  apply stanza_inv in H1 as (f1 & F1 & -> & ->).
  apply bind_Ok_inv in H as ([i2 l2] & H2 & H).
  apply stanza_inv in H2 as (f2 & F2 & -> & ->).
  apply bind_Ok_inv in H as ([i3 l3] & H3 & H).
  apply stanza_inv in H3 as (f3 & F3 & -> & ->).
  apply bind_Ok_inv in H as ([i4 l4] & H4 & H).
  apply stanza_inv in H4 as (f4 & F4 & -> & ->).
  apply bind_Ok_inv in H as ([i5 l5] & H5 & H).
  apply stanza_inv in H5 as (f5 & F5 & -> & ->).
  apply bind_Ok_inv in H as ([i6 l6] & H6 & H).
  apply stanza_inv in H6 as (f6 & F6 & -> & ->).
  apply bind_Ok_inv in H as ([i7 l7] & H7 & H).
  apply stanza_inv in H7 as (f7 & F7 & -> & ->).
  apply bind_Ok_inv in H as ([i8 l8] & H8 & H).
  apply stanza_inv in H8 as (f8 & F8 & -> & ->).
  apply bind_Ok_inv in H as ([i9 l9] & H9 & H).
  apply stanza_inv in H9 as (f9 & F9 & -> & ->).
  inversion H; subst. clear H.
  exists f1, f2, f3, f4, f5, f6, f7, f8, f9. cbn zeta.
  repeat (split; [assumption|]).
  cbn [app]. rewrite <- !app_assoc. split; reflexivity.
Qed.

End DatasetFacts.

(* ------------------------------------------------------------------ *)
(** ** What the attention demands of the position bias *)

(** [attn + relative_pos] for a bias whose last dimension may differ:
    broadcasting accepts equal sizes and a size of one. *)
Lemma add_bias4_gen (a b c e k : Z) (d d' : Data) :
  add (mkTensor [a; b; c; e] d) (mkTensor [b; c; k] d') =
  if e =? k then Ok (mkTensor [a; b; c; e] (DApp2 OAdd d d'))
  else if e =? 1 then Ok (mkTensor [a; b; c; k] (DApp2 OAdd d d'))
  else if k =? 1 then Ok (mkTensor [a; b; c; e] (DApp2 OAdd d d'))
  else Raise RuntimeError.
Proof.
  unfold add, lift2, broadcast_shapes.
  cbn [shape data rev app broadcast_rev bind].
  rewrite !Z.eqb_refl.
  destruct (e =? k); [reflexivity|].
  destruct (e =? 1); [reflexivity|].
  destruct (k =? 1); reflexivity.
Qed.

Lemma Attention_forward_bias_inv (name : string) (dim h qk sr : Z)
    (at_ : Attention.t) (x rp out : Tensor) (H W B N C K : Z) :
  Attention.init name dim h qk sr = Ok at_ ->
  Attention.forward at_ x H W rp = Ok out ->
  shape x = [B; N; C] -> shape rp = [h; N; K] ->
  0 < B -> 0 < N -> 0 < C -> 0 < h -> 0 < qk -> 0 <= H -> 0 <= W ->
  K = (if 1 <? sr then conv_out H sr sr 0 * conv_out W sr sr 0 else N) \/ K = 1.
Proof.
  intros Hinit Hf Hx Hrp HB HN HC Hh Hqk HH HW.
  apply Attention_init_inv in Hinit as (_ & _ & _ & ->).
  destruct x as [sx dx]. cbn [shape] in Hx. subst sx.
  destruct rp as [srp drp]. cbn [shape] in Hrp. subst srp.
  unfold Attention.forward, Attention.sr_forward in Hf. simp.
  prim_in Hf lia. if_inv Hf. bool_hyps. subst C. simp.
  assert (Hqd : 0 <= dim / qk) by (apply Z.div_pos; lia).
  assert (Hhd : 0 <= dim / qk / h) by (apply Z.div_pos; lia).
  assert (Hhv : 0 <= dim / h) by (apply Z.div_pos; lia).
  rewrite !floordiv_ok in Hf by lia. simp.
  destruct (1 <? sr) eqn:Esr.
  - run_in Hf lia.
    assert (HH' : 0 <= conv_out H sr sr 0).
    { unfold conv_out. assert (0 <= (H + 2 * 0 - (sr - 1) - 1) / sr)
        by (apply Z.div_pos; lia). lia. }
    assert (HW' : 0 <= conv_out W sr sr 0).
    { unfold conv_out. assert (0 <= (W + 2 * 0 - (sr - 1) - 1) / sr)
        by (apply Z.div_pos; lia). lia. }
    set (H' := conv_out H sr sr 0) in *. set (W' := conv_out W sr sr 0) in *.
    rewrite reshape_infer3 in Hf by lia. run_in Hf lia.
    assert (ET : numel [B; dim; H'; W'] / (B * (dim * 1)) = H' * W').
    { unfold numel. cbn [fold_right].
      replace (B * (dim * (H' * (W' * 1)))) with ((H' * W') * (B * (dim * 1)))
        by ring.
      apply div_cancel. lia. }
    rewrite ET in Hf.
    rewrite reshape_infer4_1 in Hf by lia. run_in Hf lia.
    rewrite reshape_infer4_1 in Hf by lia. run_in Hf lia.
    unfold numel in *. cbn [fold_right] in *.
    assert (Ehq : h * (dim / qk / h) = dim / qk) by nia.
    assert (EMk : B * (H' * W' * (dim / qk * 1)) / (B * (h * (dim / qk / h * 1)))
                  = H' * W').
    { replace (B * (H' * W' * (dim / qk * 1)))
        with ((H' * W') * (B * (h * (dim / qk / h * 1))))
        by (rewrite <- Ehq at 2; ring).
      apply div_cancel. lia. }
    rewrite EMk in Hf. clear EMk.
    set (Mv := B * (H' * W' * (dim * 1)) / (B * (h * (dim / h * 1)))) in *.
    rewrite add_bias4_gen in Hf.
    destruct (H' * W' =? K) eqn:E5; bool_hyps; [left; lia|].
    destruct (H' * W' =? 1) eqn:E6; bool_hyps.
    + run_in Hf lia.
      unfold numel in *. cbn [fold_right] in *.
      assert (Ehv : h * (dim / h) = dim) by nia.
      assert (EMv : Mv = H' * W').
      { unfold Mv.
        replace (B * (H' * W' * (dim * 1)))
          with ((H' * W') * (B * (h * (dim / h * 1))))
          by (rewrite <- Ehv at 2; ring).
        apply div_cancel. lia. }
      right. lia.
    + destruct (K =? 1) eqn:E7; bool_hyps; [right; assumption | discriminate Hf].
  - run_in Hf lia. rewrite add_bias4_gen in Hf.
    destruct (N =? K) eqn:E4; bool_hyps; [left; lia|].
    destruct (N =? 1) eqn:E5; bool_hyps.
    + run_in Hf lia. left. lia.
    + destruct (K =? 1) eqn:E6; bool_hyps; [right; assumption | discriminate Hf].
Qed.

(** A block returns only if the bias it is given has, as its last
    dimension, the number of key tokens of its attention, or one. *)
Lemma Block_forward_bias_inv (dim h qk sr : Z) (blk : Block.t)
    (x rp out : Tensor) (H W B N C K : Z) :
  (exists name dp, Block.init name dim h dp qk sr = Ok blk) ->
  Block.forward blk x H W rp = Ok out ->
  shape x = [B; N; C] -> shape rp = [h; N; K] ->
  0 < B -> 0 < N -> 0 < C -> 0 < h -> 0 < qk -> 0 <= H -> 0 <= W ->
  N = H * W /\ (K = reduced_tokens sr H W \/ K = 1).
Proof.
  intros (name & dp & Hinit) Hf Hx Hrp HB HN HC Hh Hqk HH HW.
  apply Block_init_inv in Hinit as (at_ & Hat & ->).
  destruct x as [sx dx]. cbn [shape] in Hx. subst sx.
  unfold Block.forward, Block.drop_path_forward in Hf. simp.
  prim_in Hf lia. if_inv Hf. bool_hyps. subst C. simp.
  peel Hf y Hy.
  pose proof (Attention_forward_bias_inv _ _ _ _ _ _ _ _ _ H W B N dim K
                Hat Hy eq_refl Hrp HB HN HC Hh Hqk HH HW) as HK.
  eapply Attention_forward_inv in Hy as [_ Hy]; [|eassumption|reflexivity|lia..].
  destruct y as [sy dy]. cbn [shape] in Hy. subst sy.
  assert (Hgrid : numel [B; dim; H; W] = numel [B; dim; N] -> N = H * W).
  { unfold numel. cbn [fold_right]. intros E. assert (0 < B * dim) by nia.
    assert (B * dim * (H * W) = B * dim * N) by lia. nia. }
  assert (EN : N = H * W).
  { destruct (0 <? dp); unfold lift1 in Hf; simp; run_in Hf lia; auto. }
  split; [exact EN|]. unfold reduced_tokens. rewrite <- EN. exact HK.
Qed.

(** The same for a stack: its first block already applies the test. *)
Lemma run_blocks_bias_inv (dim h qk sr : Z) (blocks : list Block.t)
    (x rp out : Tensor) (H W B N K : Z) :
  Forall (fun blk => exists name dp, Block.init name dim h dp qk sr = Ok blk)
         blocks ->
  blocks <> [] ->
  DecoderC.run_blocks blocks x H W rp = Ok out ->
  shape x = [B; N; dim] -> shape rp = [h; N; K] ->
  0 < B -> 0 < N -> 0 < dim -> 0 <= h -> 0 < qk -> 0 <= H -> 0 <= W ->
  N = H * W /\ (K = reduced_tokens sr H W \/ K = 1).
Proof.
  intros Hall Hne Hf Hx Hrp HB HN Hdim Hh Hqk HH HW.
  destruct blocks as [|blk rest]; [congruence|].
  inversion Hall as [|? ? Hblk _]; subst.
  assert (Hhnz : h <> 0).
  { destruct Hblk as (name & dp & Hinit).
    apply Block_init_inv in Hinit as (at_ & Hat & _).
    apply Attention_init_inv in Hat as (Hnz & _). exact Hnz. }
  cbn [DecoderC.run_blocks] in Hf. peel Hf y Hy.
  apply (Block_forward_bias_inv dim h qk sr blk x rp y H W B N dim K
           Hblk Hy Hx Hrp HB HN Hdim); lia.
Qed.

(** [torch.randn] was given sizes that are not negative. *)
Lemma DecoderC_init_bias_valid (img : Z) (embed_dims num_heads depths : list Z)
    (qk_ratio : Z) (sr_ratios : list Z) (d : DecoderC.t) :
  DecoderC.init img embed_dims num_heads depths qk_ratio sr_ratios = Ok d ->
  valid_shape (shape (DecoderC.relative_pos_c d)) /\
  valid_shape (shape (DecoderC.relative_pos_d d)).
Proof.
  unfold DecoderC.init. intros H.
  peel H e0 He0. peel H e1 He1. peel H e2 He2. peel H e3 He3.
  peel H pb Hpb. peel H pc Hpc. peel H pd Hpd.
  peel H h2 Hh2. peel H s2 Hs2. peel H n1 Hn1. peel H n2 Hn2.
  peel H rc Hrc. apply randn_inv in Hrc as [-> Hvc].
  peel H h3 Hh3. peel H s3 Hs3. peel H n3 Hn3. peel H n4 Hn4.
  peel H rd Hrd. apply randn_inv in Hrd as [-> Hvd].
  peel H dpr Hdpr. peel H d0 Hd0. peel H d1 Hd1. peel H d2 Hd2.
  peel H bc Hbc. peel H d3 Hd3. peel H bd Hbd.
  inversion H; subst d; clear H. split; assumption.
Qed.

(** When the ratio is one, or divides the side of the grid, the size
    [N // sr // sr] that [__init__] gives the bias is the number of key
    tokens of the attention. *)
Lemma reduced_tokens_exact (sr g : Z) :
  0 < g -> sr = 1 \/ (1 < sr /\ g mod sr = 0) ->
  g * g / sr / sr = reduced_tokens sr g g.
Proof.
  intros Hg [-> | [Hsr Hmod]]; unfold reduced_tokens.
  - change (1 <? 1) with false. cbn iota. now rewrite !Z.div_1_r.
  - rewrite (proj2 (Z.ltb_lt 1 sr) Hsr). unfold conv_out.
    assert (E : g = sr * (g / sr)) by (apply Z.div_exact; lia).
    set (q := g / sr) in *.
    replace (g + 2 * 0 - (sr - 1) - 1) with (g - sr) by ring.
    rewrite E at 1 2. 
    replace (sr * q * (sr * q)) with (q * q * sr * sr) by ring.
    rewrite !Z.div_mul by lia.
    replace (g - sr) with ((q - 1) * sr) by (rewrite E at 1; ring).
    rewrite Z.div_mul by lia. ring.
Qed.

(** Where [forward_features] uses the two biases: if it returns, each
    stack ran, on the tokens of its up-sampling stage and on a grid of
    side 28 (stage d) or 56 (stage c), with the parameter stored in the
    decoder. *)
Lemma DecoderC_forward_features_stacks
    (img qk e0 e1 e2 e3 h2 h3 s2 s3 : Z) (d : DecoderC.t) (B N C : Z)
    (x x_1_8 x_1_4 : Tensor) (outs : list Tensor) :
  built_decoder img qk e0 e1 e2 e3 h2 h3 s2 s3 d ->
  0 < B -> 0 < e0 -> 0 < e1 -> 0 < e2 ->
  shape x = [B; N; C] ->
  DecoderC.forward_features d x x_1_8 x_1_4 = Ok outs ->
  img / 16 = 14 /\ img / 8 = 28 /\
  exists yd zd yc zc,
    shape yd = [B; 28 * 28; e1] /\
    DecoderC.run_blocks (DecoderC.blocks_d d) yd 28 28
                        (DecoderC.relative_pos_d d) = Ok zd /\
    shape yc = [B; 56 * 56; e2] /\
    DecoderC.run_blocks (DecoderC.blocks_c d) yc 56 56
                        (DecoderC.relative_pos_c d) = Ok zc.
Proof.
  intros Hbd HB He0 He1 He2 Hx H.
  destruct Hbd as [_ _ Eimg Enorm Emlp Hpb Hpc Hpd Erc Erd E16 E8 E4 E1 Hbc Hbd].
  destruct x as [sx dx]. cbn [shape] in Hx. subst sx.
  unfold DecoderC.forward_features in H.
  rewrite Eimg, Enorm, Emlp, E16, E8, E4, E1, Erc, Erd in H.
  unfold LinearGELULinear.forward, LinearGELULinear.init in H.
  run_in H lia. subst C.
  skip H.
  run_in H lia.
  (* stage d *)
  peel H r Hr. destruct r as [y [Hd Wd]].
  eapply PatchEmbed_forward_inv in Hr; [|exact Hpd|valid|lia].
  destruct Hr as (B' & Ein & Ehw & Hy & _).
  cbn [shape] in Ein. injection Ein as <- E14 _. injection Ehw as -> ->.
  assert (Himg : 224 <= img < 240) by (Z.div_mod_to_equations; lia).
  assert (H8 : 0 <= img / 8) by (Z.div_mod_to_equations; lia).
  rewrite <- E14 in *.
  peel H z Hz.
  pose proof Hz as Hzd.
  eapply (run_blocks_inv e1 h3 qk s3) in Hz; [|exact Hbd|try lia..|exact Hy].
  destruct z as [sz dz]. cbn [shape] in Hz. subst sz.
  run_in H lia.
  match goal with
  | E : numel [B; 1; img / 8; img / 8] = _ |- _ =>
      unfold numel in E; cbn [fold_right] in E;
      assert (E28 : img / 8 = 28) by (apply (sq_eq B); lia); clear E
  end.
  rewrite E28 in *.
  destruct (infer_last B (14 * 2) (14 * 2) (14 * 2 * (14 * 2)) e1) as [_ Ed];
    try lia.
  unfold numel in H; cbn [fold_right] in H. rewrite Ed in H. clear Ed.
  (* stage c *)
  peel H r Hr. destruct r as [y' [Hc Wc]].
  eapply PatchEmbed_forward_inv in Hr; [|exact Hpc|valid|lia].
  destruct Hr as (B' & Ein & Ehw & Hy' & _).
  cbn [shape] in Ein. injection Ein; intros; subst B'; clear Ein.
  injection Ehw as -> ->.
  peel H z' Hz'.
  split; [reflexivity|]. split; [reflexivity|].
  exists y, {| shape := [B; 14 * 2 * (14 * 2); e1]; data := dz |}, y', z'.
  change (14 * 2) with 28 in *. change (28 * 2) with 56 in *.
  rewrite Erc, Erd. repeat split; assumption.
  all: lia.
Qed.

(* ================================================================== *)
(** * The claims *)

(* ------------------------------------------------------------------ *)
(** ** C4 *)

(** C4. [CrossAttention.forward(fea, depth_fea)] on [fea] of shape
    [(B, N1, dim1)] and [depth_fea] of shape [(B, N2, dim2)], for a
    [CrossAttention(dim1, dim2, dim, num_heads)] whose [num_heads] divides
    [dim], returns a tensor of shape [(B, N1, dim1)], whatever [N2] and
    [dim2] are. *)
Theorem CrossAttention_forward_shape (name : string) (dim1 dim2 dim num_heads : Z)
    (ca : CrossAttention.t) (fea depth_fea : Tensor) (B N1 N2 : Z) :
  CrossAttention.init name dim1 dim2 dim num_heads = Ok ca ->
  0 < num_heads -> 0 <= dim -> dim mod num_heads = 0 ->
  0 <= B -> 0 <= N1 -> 0 <= N2 ->
  shape fea = [B; N1; dim1] ->
  shape depth_fea = [B; N2; dim2] ->
  exists out,
    CrossAttention.forward ca fea depth_fea = Ok out /\
    shape out = [B; N1; dim1].
Proof.
  intros Hinit Hh Hdim Hmod HB HN1 HN2 Hf Hd.
  destruct fea as [sf df], depth_fea as [sd dd]. cbn [shape] in Hf, Hd. subst.
  eapply CrossAttention_forward_ok; eassumption.
Qed.

Lemma CrossAttention_forward_shape_witness :
  exists ca out,
    CrossAttention.init "interact" 128 384 128 4 = Ok ca /\
    CrossAttention.forward ca (input "fea" [2; 784; 128])
                              (input "depth_fea" [2; 5; 384]) = Ok out /\
    shape out = [2; 784; 128].
Proof.
  destruct (CrossAttention.init "interact" 128 384 128 4) as [ca|e] eqn:E;
    [|vm_compute in E; discriminate].
  destruct (CrossAttention_forward_shape "interact" 128 384 128 4 ca
              (input "fea" [2; 784; 128]) (input "depth_fea" [2; 5; 384])
              2 784 5 E) as (out & Hout & Hs);
    [lia | lia | reflexivity | lia | lia | lia | reflexivity | reflexivity |].
  exists ca, out. auto.
Defined.

(* ------------------------------------------------------------------ *)
(** ** C2 *)

Lemma PatchEmbed_forward_assert_fails (name : string)
    (img ps ic ed k st pad : Z) (fuse : bool) (pe : PatchEmbed.t)
    (x : Tensor) (enc : option Tensor) (B C H W : Z) :
  PatchEmbed.init name img ps ic ed k st pad fuse = Ok pe ->
  shape x = [B; C; H; W] ->
  ~ (H = img /\ W = img) ->
  PatchEmbed.forward pe x enc = Raise AssertionError.
Proof.
  intros Hinit Hx Hne.
  apply PatchEmbed_init_inv in Hinit as (cf & inter & -> & _).
  unfold PatchEmbed.forward, py_assert. rewrite Hx. simp.
  destruct ((H =? img) && (W =? img)) eqn:E; [|reflexivity].
  bool_hyps. tauto.
Qed.

(** C2. For a [PatchEmbed] built for [img_size] and an input of shape
    [(B, C, H, W)], [forward] raises the [AssertionError] of its size
    check exactly when [H] or [W] differs from [img_size]: a wrong size is
    refused by the [assert] whatever the channels, the data and [enc_fea]
    are, and with the right size no [AssertionError] is raised. *)
Theorem PatchEmbed_forward_size_assert (name : string)
    (img ps ic ed k st pad : Z) (fuse : bool) (pe : PatchEmbed.t)
    (x : Tensor) (enc : option Tensor) (B C H W : Z) :
  PatchEmbed.init name img ps ic ed k st pad fuse = Ok pe ->
  shape x = [B; C; H; W] ->
  (PatchEmbed.forward pe x enc = Raise AssertionError <-> ~ (H = img /\ W = img)).
Proof.
  intros Hinit Hx. split.
  - intros Hf [-> ->].
    apply (PatchEmbed_forward_past_assert pe x enc B C img img Hx); [| |exact Hf];
      apply PatchEmbed_init_inv in Hinit as (cf & inter & -> & _); reflexivity.
  - intros Hne. eapply PatchEmbed_forward_assert_fails; eassumption.
Qed.

Lemma PatchEmbed_forward_size_assert_witness :
  exists pe,
    PatchEmbed.init "patch_embed_d" 14 2 384 128 3 2 1 true = Ok pe /\
    (PatchEmbed.forward pe (input "x" [1; 384; 15; 14]) None = Raise AssertionError
     <-> ~ (15 = 14 /\ 14 = 14)).
Proof.
  destruct (PatchEmbed.init "patch_embed_d" 14 2 384 128 3 2 1 true)
    as [pe|e] eqn:E; [|vm_compute in E; discriminate].
  exists pe. split; [reflexivity|].
  exact (PatchEmbed_forward_size_assert "patch_embed_d" 14 2 384 128 3 2 1 true
           pe (input "x" [1; 384; 15; 14]) None 1 384 15 14 E eq_refl).
Defined.

(* ------------------------------------------------------------------ *)
(** ** C5 *)

(** C5. A [PatchEmbed] built with [fuse=False] returns the same result
    (the same tensor and pair, or the same exception) for every value of
    [enc_fea], [None] included. *)
Theorem PatchEmbed_forward_ignores_enc_fea (name : string)
    (img ps ic ed k st pad : Z) (pe : PatchEmbed.t) (x : Tensor)
    (enc_fea enc_fea' : option Tensor) :
  PatchEmbed.init name img ps ic ed k st pad false = Ok pe ->
  PatchEmbed.forward pe x enc_fea = PatchEmbed.forward pe x enc_fea'.
Proof.
  intros Hinit.
  apply PatchEmbed_init_inv in Hinit as (cf & inter & -> & _).
  unfold PatchEmbed.forward. simp. reflexivity.
Qed.

Lemma PatchEmbed_forward_ignores_enc_fea_witness :
  exists pe,
    PatchEmbed.init "patch_embed_b" 56 4 64 16 7 4 2 false = Ok pe /\
    PatchEmbed.forward pe (input "x" [1; 64; 56; 56]) None =
    PatchEmbed.forward pe (input "x" [1; 64; 56; 56])
                       (Some (input "enc_fea" [1; 50176; 16])).
Proof.
  destruct (PatchEmbed.init "patch_embed_b" 56 4 64 16 7 4 2 false)
    as [pe|e] eqn:E; [|vm_compute in E; discriminate].
  exists pe. split; [reflexivity|].
  exact (PatchEmbed_forward_ignores_enc_fea "patch_embed_b" 56 4 64 16 7 4 2 pe
           (input "x" [1; 64; 56; 56]) None
           (Some (input "enc_fea" [1; 50176; 16])) E).
Defined.

(* ------------------------------------------------------------------ *)
(** ** C3 *)

(** C3, the claim as stated fails: the class's own default configuration,
    [PatchEmbed()] with [img_size=224], [patch_size=16] and [stride=2],
    accepts a [(1, 3, 224, 224)] input with a matching skip feature and
    returns [(2*224)^2 = 200704] tokens together with
    [(H_out, W_out) = (3584, 3584)]: the token count is neither
    [H_out * W_out] nor the input size times [patch_size]. *)
Lemma PatchEmbed_token_count_counterexample :
  exists pe y H_out W_out,
    PatchEmbed.init "patch_embed" 224 16 3 768 3 2 1 true = Ok pe /\
    PatchEmbed.forward pe (input "x" [1; 3; 224; 224])
                       (Some (input "enc_fea" [1; 200704; 768]))
      = Ok (y, (H_out, W_out)) /\
    H_out = 224 * 16 /\ W_out = 224 * 16 /\
    shape y = [1; 200704; 768] /\
    200704 <> H_out * W_out /\
    200704 <> (224 * 224) * 16.
Proof.
  destruct (PatchEmbed.init "patch_embed" 224 16 3 768 3 2 1 true)
    as [pe|e] eqn:E; [|vm_compute in E; discriminate].
  destruct (PatchEmbed.forward pe (input "x" [1; 3; 224; 224])
              (Some (input "enc_fea" [1; 200704; 768])))
    as [[y [H_out W_out]]|e] eqn:F.
  - exists pe, y, H_out, W_out.
    vm_compute in E. injection E as <-. vm_compute in F.
    injection F as <- <- <-.
    repeat split; try reflexivity; discriminate.
  - vm_compute in E. injection E as <-. vm_compute in F. discriminate.
Qed.

(** C3, amended.  For a [PatchEmbed] and an input tensor:
    - whenever [forward] returns, the input has shape
      [(B, in_chans, img_size, img_size)], the returned pair is
      [(H * patch_size, W * patch_size)] and the returned tensor has shape
      [(B, (img_size * stride)^2, embed_dim)]; the token count is
      [H_out * W_out] when [stride = patch_size];
    - [forward] does return on such an input when the fold geometry is
      consistent (it yields [img_size] sliding blocks per side) and, with
      [fuse], the skip feature has the shape of the upsampled tokens and 4
      divides [embed_dim]. *)
Theorem PatchEmbed_forward_shape (name : string) (img ps ic ed k st pad : Z)
    (fuse : bool) (pe : PatchEmbed.t) (x : Tensor) (enc : option Tensor) :
  PatchEmbed.init name img ps ic ed k st pad fuse = Ok pe ->
  valid_shape (shape x) ->
  (fuse = true -> 0 < ed) ->
  (forall y H_out W_out,
      PatchEmbed.forward pe x enc = Ok (y, (H_out, W_out)) ->
      exists B,
        shape x = [B; ic; img; img] /\
        H_out = img * ps /\ W_out = img * ps /\
        shape y = [B; (img * st) * (img * st); ed] /\
        (st = ps -> shape y = [B; H_out * W_out; ed]))
  /\
  (forall B,
      shape x = [B; ic; img; img] ->
      0 < img -> 0 < ic -> 0 < k -> 0 < st -> 0 <= pad ->
      fold_blocks (img * st) k st pad = img ->
      (fuse = true ->
       ed mod 4 = 0 /\
       exists e, enc = Some e /\ shape e = [B; (img * st) * (img * st); ed]) ->
      succeeds (PatchEmbed.forward pe x enc)).
Proof.
  intros Hinit Hv Hed. split.
  - intros y H_out W_out Hf.
    destruct (PatchEmbed_forward_inv name img ps ic ed k st pad fuse pe x enc y
                (H_out, W_out) Hinit Hf Hv Hed) as (B & Hx & Ehw & Hy & _).
    injection Ehw as -> ->. exists B. repeat split; try assumption.
    intros <-. exact Hy.
  - intros B Hx Himg Hic Hk Hst Hpad Hgeo Hfuse.
    assert (HB : 0 <= B).
    { rewrite Hx in Hv. now inversion Hv. }
    destruct (PatchEmbed_forward_ok name img ps ic ed k st pad fuse pe B x enc
                Hinit HB Himg Hic Hk Hst Hpad Hgeo Hx) as (y & Hy & _).
    + intros Hf. destruct (Hfuse Hf) as [Hmod He]. specialize (Hed Hf).
      split; [lia|]. split; assumption.
    + eexists. exact Hy.
Qed.

Lemma PatchEmbed_forward_shape_witness :
  exists pe,
    PatchEmbed.init "patch_embed_d" 14 2 384 128 3 2 1 true = Ok pe /\
    (exists y,
        PatchEmbed.forward pe (input "x" [1; 384; 14; 14])
                           (Some (input "x_1_8" [1; 784; 128]))
          = Ok (y, (28, 28)) /\
        shape y = [1; 784; 128]).
Proof.
  destruct (PatchEmbed.init "patch_embed_d" 14 2 384 128 3 2 1 true)
    as [pe|e] eqn:E; [|vm_compute in E; discriminate].
  exists pe. split; [reflexivity|].
  destruct (PatchEmbed_forward_shape "patch_embed_d" 14 2 384 128 3 2 1 true pe
              (input "x" [1; 384; 14; 14]) (Some (input "x_1_8" [1; 784; 128])) E)
    as [Hinv Hok].
  - unfold valid_shape. cbn. repeat constructor; lia.
  - intros _. lia.
  - destruct (Hok 1) as ([y [H_out W_out]] & Hy);
      [reflexivity | lia | lia | lia | lia | lia | reflexivity | |].
    + intros _. split; [reflexivity|]. eexists. split; reflexivity.
    + destruct (Hinv y H_out W_out Hy) as (B & HB & -> & -> & Hs & _).
      cbn in HB. injection HB as <-. exists y. split; [exact Hy | exact Hs].
Defined.

(* ------------------------------------------------------------------ *)
(** ** C9 *)

(** C9. When [forward] of a [PatchEmbed] built with [fuse=True] returns,
    [enc_fea] is a tensor with the batch size of the input,
    [(img_size * stride)^2] tokens and width exactly [embed_dim]. *)
Theorem PatchEmbed_fuse_enc_fea_shape (name : string)
    (img ps ic ed k st pad : Z) (pe : PatchEmbed.t) (x : Tensor)
    (enc_fea : option Tensor) (r : Tensor * (Z * Z)) :
  PatchEmbed.init name img ps ic ed k st pad true = Ok pe ->
  valid_shape (shape x) ->
  0 < ed ->
  PatchEmbed.forward pe x enc_fea = Ok r ->
  exists B e,
    shape x = [B; ic; img; img] /\
    enc_fea = Some e /\
    shape e = [B; (img * st) * (img * st); ed].
Proof.
  intros Hinit Hv Hed Hf. destruct r as [y hw].
  destruct (PatchEmbed_forward_inv name img ps ic ed k st pad true pe x enc_fea
              y hw Hinit Hf Hv (fun _ => Hed)) as (B & Hx & _ & _ & He).
  destruct (He eq_refl) as (e & -> & Hse). eauto.
Qed.

Lemma PatchEmbed_fuse_enc_fea_shape_witness :
  exists pe r B e,
    PatchEmbed.init "patch_embed_c" 28 2 128 64 3 2 1 true = Ok pe /\
    PatchEmbed.forward pe (input "x" [1; 128; 28; 28])
                       (Some (input "x_1_4" [1; 3136; 64])) = Ok r /\
    shape (input "x" [1; 128; 28; 28]) = [B; 128; 28; 28] /\
    Some (input "x_1_4" [1; 3136; 64]) = Some e /\
    shape e = [B; (28 * 2) * (28 * 2); 64].
Proof.
  destruct (PatchEmbed.init "patch_embed_c" 28 2 128 64 3 2 1 true)
    as [pe|e0] eqn:E; [|vm_compute in E; discriminate].
  destruct (PatchEmbed.forward pe (input "x" [1; 128; 28; 28])
              (Some (input "x_1_4" [1; 3136; 64]))) as [r|e0] eqn:F.
  - destruct (PatchEmbed_fuse_enc_fea_shape "patch_embed_c" 28 2 128 64 3 2 1 pe
                (input "x" [1; 128; 28; 28]) (Some (input "x_1_4" [1; 3136; 64]))
                r E) as (B & e & Hx & He & Hs).
    + unfold valid_shape. cbn. repeat constructor; lia.
    + lia.
    + exact F.
    + exists pe, r, B, e. auto.
  - vm_compute in E. injection E as <-. vm_compute in F. discriminate.
Defined.
(* ------------------------------------------------------------------ *)
(** ** C6 *)

(** C6, the claim as stated fails, in both of its parts.
    - The closed form: [DecoderC(img_size=24)] is constructed, and its
      [relative_pos_d] has shape [(8, 4, 4)], not
      [(8, (24/8)^2, (24/8)^2 / 1^2) = (8, 9, 9)].
    - The shape the Block stack demands: [DecoderC(sr_ratios=[8,4,3,1])]
      is constructed with a [relative_pos_c] of shape [(4, 3136, 348)],
      which is [(num_heads, N, N // 3 // 3)], while the attention of its
      blocks has [18 * 18 = 324] key tokens; nothing refuses this at
      initialization, and [forward] raises [RuntimeError] on inputs of the
      usual shapes. *)
Lemma DecoderC_relative_pos_counterexample :
  (exists d,
      DecoderC.init_default 24 = Ok d /\
      shape (DecoderC.relative_pos_d d) = [8; 4; 4] /\
      shape (DecoderC.relative_pos_d d)
        <> [8; (24 / 8) * (24 / 8); (24 / 8) * (24 / 8) / (1 * 1)])
  /\
  (exists d,
      DecoderC.init 224 DecoderC.default_embed_dims DecoderC.default_num_heads
                    DecoderC.default_depths 1 [8; 4; 3; 1] = Ok d /\
      shape (DecoderC.relative_pos_c d)
        = [4; (224 / 4) * (224 / 4); (224 / 4) * (224 / 4) / (3 * 3)] /\
      shape (DecoderC.relative_pos_c d) = [4; 3136; 348] /\
      reduced_tokens 3 (224 / 4) (224 / 4) = 324 /\
      ~ bias_fits 3 (224 / 4) 348 /\
      DecoderC.forward d (input "x" [1; 196; 384])
                         (input "x_1_8" [1; 784; 128])
                         (input "x_1_4" [1; 3136; 64]) = Raise RuntimeError).
Proof.
  split.
  - destruct (DecoderC.init_default 24) as [d|e] eqn:E;
      vm_compute in E; [|discriminate].
    injection E as <-. eexists. split; [reflexivity|].
    split; [reflexivity | discriminate].
  - destruct (DecoderC.init 224 DecoderC.default_embed_dims
                DecoderC.default_num_heads DecoderC.default_depths 1
                [8; 4; 3; 1]) as [d|e] eqn:E;
      vm_compute in E; [|discriminate].
    injection E as <-. eexists. split; [reflexivity|].
    split; [reflexivity|]. split; [reflexivity|]. split; [reflexivity|].
    split.
    + intros [Hk | Hk]; vm_compute in Hk; discriminate Hk.
    + vm_compute. reflexivity.
Qed.

Lemma div_twice (n s : Z) : 0 < s -> n / s / s = n / (s * s).
Proof. intros. apply Z.div_div; lia. Qed.

Lemma half_of_sixteenth (img : Z) : img mod 16 = 0 -> img / 16 * 2 = img / 8.
Proof. intros. Z.div_mod_to_equations. lia. Qed.

Lemma half_of_eighth (img : Z) : img mod 16 = 0 -> img / 8 * 2 = img / 4.
Proof. intros. Z.div_mod_to_equations. lia. Qed.

(** C6, amended.  Write [gd = 2 * (img_size // 16)] and
    [gc = 2 * (img_size // 8)] for the sides of the token grids of the two
    fusing stages, [h2], [h3] for the entries 2 and 3 of [num_heads] and
    [s2], [s3] for those of [sr_ratios].  For every constructed
    [DecoderC]:
    - (construction) [relative_pos_d] is the parameter of shape
      [(h3, gd^2, gd^2 // s3 // s3)] and [relative_pos_c] the one of shape
      [(h2, gc^2, gc^2 // s2 // s2)], [gd^2] and [gc^2] being the
      [num_patches] of the two stages; when 16 divides [img_size] and the
      ratios are positive these are [(h3, (img_size/8)^2,
      (img_size/8)^2 / s3^2)] and [(h2, (img_size/4)^2,
      (img_size/4)^2 / s2^2)];
    - (the stack's demand) a non-empty stack returns on the tokens of its
      grid, with the stored bias, only if the last dimension of the bias
      is the number of key tokens of its attention, or one;
    - (when it is met) [N // sr // sr] is that number when [sr = 1] or
      [sr] divides the side of the grid, and then the stack does return,
      with the shape of its input;
    - (call time) [forward_features] hands the stored parameters to the
      stacks: it returns only if each non-empty stack's demand is met by
      the shape set at construction, on the grids of sides 28 and 56. *)
Theorem DecoderC_relative_pos_shape (img : Z)
    (embed_dims num_heads depths : list Z) (qk_ratio : Z) (sr_ratios : list Z)
    (d : DecoderC.t) :
  DecoderC.init img embed_dims num_heads depths qk_ratio sr_ratios = Ok d ->
  exists e0 e1 e2 h2 h3 s2 s3,
    let gd := img / 16 * 2 in
    let gc := img / 8 * 2 in
    getitem embed_dims 0 = Ok e0 /\ getitem embed_dims 1 = Ok e1 /\
    getitem embed_dims 2 = Ok e2 /\
    getitem num_heads 2 = Ok h2 /\ getitem num_heads 3 = Ok h3 /\
    getitem sr_ratios 2 = Ok s2 /\ getitem sr_ratios 3 = Ok s3 /\
    (* construction *)
    PatchEmbed.num_patches (DecoderC.patch_embed_d d) = gd * gd /\
    PatchEmbed.num_patches (DecoderC.patch_embed_c d) = gc * gc /\
    DecoderC.relative_pos_d d
      = mkTensor [h3; gd * gd; gd * gd / s3 / s3] (DParam "relative_pos_d") /\
    DecoderC.relative_pos_c d
      = mkTensor [h2; gc * gc; gc * gc / s2 / s2] (DParam "relative_pos_c") /\
    (img mod 16 = 0 -> 0 < s2 -> 0 < s3 ->
     shape (DecoderC.relative_pos_d d)
       = [h3; (img / 8) * (img / 8); (img / 8) * (img / 8) / (s3 * s3)] /\
     shape (DecoderC.relative_pos_c d)
       = [h2; (img / 4) * (img / 4); (img / 4) * (img / 4) / (s2 * s2)]) /\
    (* the demand of the two stacks *)
    (forall B x out,
        0 < B -> 0 < gd -> 0 < e1 -> 0 < qk_ratio ->
        shape x = [B; gd * gd; e1] ->
        DecoderC.blocks_d d <> [] ->
        DecoderC.run_blocks (DecoderC.blocks_d d) x gd gd
                            (DecoderC.relative_pos_d d) = Ok out ->
        bias_fits s3 gd (gd * gd / s3 / s3)) /\
    (forall B x out,
        0 < B -> 0 < gc -> 0 < e2 -> 0 < qk_ratio ->
        shape x = [B; gc * gc; e2] ->
        DecoderC.blocks_c d <> [] ->
        DecoderC.run_blocks (DecoderC.blocks_c d) x gc gc
                            (DecoderC.relative_pos_c d) = Ok out ->
        bias_fits s2 gc (gc * gc / s2 / s2)) /\
    (* when the demand is met *)
    (forall s g, 0 < g -> s = 1 \/ (1 < s /\ g mod s = 0) ->
                 g * g / s / s = reduced_tokens s g g) /\
    (forall B x,
        qk_ratio = 1 -> 0 < B -> 0 < gd -> 0 < e1 -> 0 < h3 -> e1 mod h3 = 0 ->
        (1 < s3 -> s3 <= gd /\ 1 < B * reduced_tokens s3 gd gd) ->
        gd * gd / s3 / s3 = reduced_tokens s3 gd gd ->
        shape x = [B; gd * gd; e1] ->
        exists out,
          DecoderC.run_blocks (DecoderC.blocks_d d) x gd gd
                              (DecoderC.relative_pos_d d) = Ok out /\
          shape out = shape x) /\
    (forall B x,
        qk_ratio = 1 -> 0 < B -> 0 < gc -> 0 < e2 -> 0 < h2 -> e2 mod h2 = 0 ->
        (1 < s2 -> s2 <= gc /\ 1 < B * reduced_tokens s2 gc gc) ->
        gc * gc / s2 / s2 = reduced_tokens s2 gc gc ->
        shape x = [B; gc * gc; e2] ->
        exists out,
          DecoderC.run_blocks (DecoderC.blocks_c d) x gc gc
                              (DecoderC.relative_pos_c d) = Ok out /\
          shape out = shape x) /\
    (* call time *)
    (forall B N C x x_1_8 x_1_4 outs,
        0 < B -> 0 < e0 -> 0 < e1 -> 0 < e2 -> 0 < qk_ratio ->
        shape x = [B; N; C] ->
        DecoderC.forward_features d x x_1_8 x_1_4 = Ok outs ->
        gd = 28 /\ gc = 56 /\
        (DecoderC.blocks_d d <> [] -> bias_fits s3 28 (28 * 28 / s3 / s3)) /\
        (DecoderC.blocks_c d <> [] -> bias_fits s2 56 (56 * 56 / s2 / s2))).
Proof.
  intros Hinit.
  destruct (DecoderC_init_bias_valid _ _ _ _ _ _ _ Hinit) as [Hvc Hvd].
  apply DecoderC_init_inv in Hinit
    as (e0 & e1 & e2 & e3 & h2 & h3 & s2 & s3 &
        He0 & He1 & He2 & He3 & Hh2 & Hh3 & Hs2 & Hs3 & Hbd).
  pose proof Hbd as Hall.
  destruct Hbd as [_ _ _ _ _ _ Hpc Hpd Erc Erd _ _ _ _ Hbc Hbld].
  apply PatchEmbed_init_inv in Hpc as (cfc & itc & Epc & _).
  apply PatchEmbed_init_inv in Hpd as (cfd & itd & Epd & _).
  rewrite Erc in Hvc. rewrite Erd in Hvd. cbn [shape] in Hvc, Hvd.
  assert (Hh2nn : 0 <= h2) by (inversion Hvc; assumption).
  assert (Hh3nn : 0 <= h3) by (inversion Hvd; assumption).
  exists e0, e1, e2, h2, h3, s2, s3. cbn zeta.
  repeat (split; [assumption|]).
  split; [rewrite Epd; reflexivity|]. split; [rewrite Epc; reflexivity|].
  split; [exact Erd|]. split; [exact Erc|].
  split; [|split; [|split; [|split; [|split; [|split]]]]].
  - intros Hmod Hs2pos Hs3pos. rewrite Erc, Erd. cbn [shape].
    rewrite (half_of_sixteenth img Hmod), (half_of_eighth img Hmod).
    rewrite !div_twice by assumption. split; reflexivity.
  - intros B x out HB Hg He Hqk Hx Hne Hrun.
    apply (run_blocks_bias_inv e1 h3 qk_ratio s3 _ x _ out
             (img / 16 * 2) (img / 16 * 2) B _ _ Hbld Hne Hrun Hx);
      [rewrite Erd; reflexivity | nia || lia ..].
  - intros B x out HB Hg He Hqk Hx Hne Hrun.
    apply (run_blocks_bias_inv e2 h2 qk_ratio s2 _ x _ out
             (img / 8 * 2) (img / 8 * 2) B _ _ Hbc Hne Hrun Hx);
      [rewrite Erc; reflexivity | nia || lia ..].
  - intros s g Hg Hs. apply reduced_tokens_exact; assumption.
  - intros B x -> HB Hg He Hh Hmod Hsr Hfit Hx. rewrite Hx.
    apply (run_blocks_ok e1 h3 s3 (DecoderC.blocks_d d) B
             (img / 16 * 2) (img / 16 * 2) (DecoderC.relative_pos_d d));
      try assumption; try lia.
    rewrite Erd. cbn [shape]. rewrite Hfit. reflexivity.
  - intros B x -> HB Hg He Hh Hmod Hsr Hfit Hx. rewrite Hx.
    apply (run_blocks_ok e2 h2 s2 (DecoderC.blocks_c d) B
             (img / 8 * 2) (img / 8 * 2) (DecoderC.relative_pos_c d));
      try assumption; try lia.
    rewrite Erc. cbn [shape]. rewrite Hfit. reflexivity.
  - intros B N C x x_1_8 x_1_4 outs HB He0' He1' He2' Hqk Hx Hf.
    destruct (DecoderC_forward_features_stacks img qk_ratio e0 e1 e2 e3
                h2 h3 s2 s3 d B N C x x_1_8 x_1_4 outs Hall HB He0' He1' He2'
                Hx Hf)
      as (E14 & E28 & yd & zd & yc & zc & Hyd & Hrd & Hyc & Hrc).
    rewrite E14, E28. change (14 * 2) with 28. change (28 * 2) with 56.
    rewrite E14 in Erd. rewrite E28 in Erc.
    change (14 * 2) with 28 in Erd. change (28 * 2) with 56 in Erc.
    split; [reflexivity|]. split; [reflexivity|]. split.
    + intros Hne.
      apply (run_blocks_bias_inv e1 h3 qk_ratio s3 _ yd _ zd 28 28 B _ _
               Hbld Hne Hrd Hyd);
        [rewrite Erd; reflexivity | lia ..].
    + intros Hne.
      apply (run_blocks_bias_inv e2 h2 qk_ratio s2 _ yc _ zc 56 56 B _ _
               Hbc Hne Hrc Hyc);
        [rewrite Erc; reflexivity | lia ..].
Qed.

Lemma DecoderC_relative_pos_shape_witness :
  exists d,
    DecoderC.init_default 224 = Ok d /\
    shape (DecoderC.relative_pos_d d) = [8; 784; 784] /\
    shape (DecoderC.relative_pos_c d) = [4; 3136; 784] /\
    bias_fits 1 28 (28 * 28 / 1 / 1) /\
    bias_fits 2 56 (56 * 56 / 2 / 2).
Proof.
  destruct (DecoderC.init_default 224) as [d|e] eqn:E;
    [|vm_compute in E; discriminate].
  exists d. split; [reflexivity|].
  assert (Hne : DecoderC.blocks_d d <> [] /\ DecoderC.blocks_c d <> []).
  { pose proof E as E'. vm_compute in E'. injection E' as <-.
    split; discriminate. }
  destruct (DecoderC_forward_features_default d 1 (input "x" [1; 196; 384])
              (input "x_1_8" [1; 784; 128]) (input "x_1_4" [1; 3136; 64]) E)
    as (m16 & m8 & m4 & m1 & Hf & _); [lia | reflexivity..|].
  destruct (DecoderC_relative_pos_shape 224 DecoderC.default_embed_dims
              DecoderC.default_num_heads DecoderC.default_depths 1
              DecoderC.default_sr_ratios d E)
    as (e0 & e1 & e2 & h2 & h3 & s2 & s3 & H).
  cbn zeta in H.
  destruct H as (He0 & He1 & He2 & Hh2 & Hh3 & Hs2 & Hs3 & _ & _ & _ & _ &
                 Hclosed & _ & _ & _ & _ & _ & Hcall).
  vm_compute in He0, He1, He2, Hh2, Hh3, Hs2, Hs3.
  injection He0 as <-. injection He1 as <-. injection He2 as <-.
  injection Hh2 as <-. injection Hh3 as <-.
  injection Hs2 as <-. injection Hs3 as <-.
  destruct Hclosed as [Hd Hc]; [reflexivity | lia | lia |].
  destruct (Hcall 1 196 384 (input "x" [1; 196; 384])
              (input "x_1_8" [1; 784; 128]) (input "x_1_4" [1; 3136; 64])
              [m16; m8; m4; m1])
    as (_ & _ & Fd & Fc); [lia | lia | lia | lia | lia | reflexivity | exact Hf |].
  split; [exact Hd|]. split; [exact Hc|].
  split; [exact (Fd (proj1 Hne)) | exact (Fc (proj2 Hne))].
Defined.

(* ------------------------------------------------------------------ *)
(** ** C1 *)

(** C1. For the default configuration ([img_size = 224]) and every batch
    size [B], [DecoderC.forward] on [x] of shape [(B, 196, 384)], [x_1_8]
    of shape [(B, (224/8)^2, 128)] and [x_1_4] of shape
    [(B, (224/4)^2, 64)] returns eight tensors: the logit maps of shapes
    [(B,1,224/16,224/16)], [(B,1,224/8,224/8)], [(B,1,224/4,224/4)],
    [(B,1,224,224)], followed by the sigmoid of each, in that order. *)
Theorem DecoderC_forward_default_outputs (d : DecoderC.t) (B : Z)
    (x x_1_8 x_1_4 : Tensor) :
  DecoderC.init_default 224 = Ok d ->
  0 < B ->
  shape x = [B; 196; 384] ->
  shape x_1_8 = [B; (224 / 8) * (224 / 8); 128] ->
  shape x_1_4 = [B; (224 / 4) * (224 / 4); 64] ->
  exists mask_1_16 mask_1_8 mask_1_4 mask_1_1,
    DecoderC.forward d x x_1_8 x_1_4 =
      Ok [mask_1_16; mask_1_8; mask_1_4; mask_1_1;
          sigmoid_of mask_1_16; sigmoid_of mask_1_8;
          sigmoid_of mask_1_4; sigmoid_of mask_1_1] /\
    shape mask_1_16 = [B; 1; 224 / 16; 224 / 16] /\
    shape mask_1_8 = [B; 1; 224 / 8; 224 / 8] /\
    shape mask_1_4 = [B; 1; 224 / 4; 224 / 4] /\
    shape mask_1_1 = [B; 1; 224; 224] /\
    shape (sigmoid_of mask_1_16) = [B; 1; 224 / 16; 224 / 16] /\
    shape (sigmoid_of mask_1_8) = [B; 1; 224 / 8; 224 / 8] /\
    shape (sigmoid_of mask_1_4) = [B; 1; 224 / 4; 224 / 4] /\
    shape (sigmoid_of mask_1_1) = [B; 1; 224; 224].
Proof.
  intros Hinit HB Hx H8 H4.
  destruct (DecoderC_forward_features_default d B x x_1_8 x_1_4 Hinit HB Hx H8 H4)
    as (m16 & m8 & m4 & m1 & Hf & S16 & S8 & S4 & S1).
  exists m16, m8, m4, m1. unfold DecoderC.forward. rewrite Hf.
  cbn [bind]. unfold sigmoid, lift1. cbn [bind]. unfold sigmoid_of.
  cbn [shape]. repeat split; assumption.
Qed.

Lemma DecoderC_forward_default_outputs_witness :
  exists d outs,
    DecoderC.init_default 224 = Ok d /\
    DecoderC.forward d (input "x" [2; 196; 384]) (input "x_1_8" [2; 784; 128])
                       (input "x_1_4" [2; 3136; 64]) = Ok outs /\
    map shape outs =
      [[2; 1; 14; 14]; [2; 1; 28; 28]; [2; 1; 56; 56]; [2; 1; 224; 224];
       [2; 1; 14; 14]; [2; 1; 28; 28]; [2; 1; 56; 56]; [2; 1; 224; 224]].
Proof.
  destruct (DecoderC.init_default 224) as [d|e] eqn:E;
    [|vm_compute in E; discriminate].
  destruct (DecoderC_forward_default_outputs d 2 (input "x" [2; 196; 384])
              (input "x_1_8" [2; 784; 128]) (input "x_1_4" [2; 3136; 64]) E)
    as (m16 & m8 & m4 & m1 & Hf & S16 & S8 & S4 & S1 & T16 & T8 & T4 & T1);
    [lia | reflexivity | reflexivity | reflexivity |].
  exists d. eexists. split; [reflexivity|]. split; [exact Hf|].
  cbn [map]. rewrite S16, S8, S4, S1, T16, T8, T4, T1. reflexivity.
Defined.

(* ------------------------------------------------------------------ *)
(** ** C8 *)

(** C8. In [DecoderC.forward_features] the coarse input is reshaped to
    [(B, C, 14, 14)] whatever [img_size] is:
    - for a non-empty input of shape [(B, N, C)] that reshape succeeds
      exactly when [N = 196];
    - the size check of [patch_embed_d] refuses the [14 x 14] grid unless
      [img_size // 16 = 14];
    - [forward] of a [DecoderC(img_size)] returns on a non-empty input of
      shape [(B, N, C)] only if [img_size = 224] and [N = 196]. *)
Theorem DecoderC_forward_needs_224_and_196 :
  (forall (B N C : Z) (dx : Data),
      0 < B -> 0 < C ->
      (succeeds (x <- transpose 1 2 (mkTensor [B; N; C] dx) ;;
                 reshape [B; C; 14; 14] x)
       <-> N = 196))
  /\
  (forall (img : Z) (d : DecoderC.t) (grid : Tensor) (enc : option Tensor)
          (B C : Z),
      DecoderC.init_default img = Ok d ->
      shape grid = [B; C; 14; 14] ->
      img / 16 <> 14 ->
      PatchEmbed.forward (DecoderC.patch_embed_d d) grid enc
        = Raise AssertionError)
  /\
  (forall (img : Z) (d : DecoderC.t) (x x_1_8 x_1_4 : Tensor) (B N C : Z),
      DecoderC.init_default img = Ok d ->
      0 < B ->
      shape x = [B; N; C] ->
      succeeds (DecoderC.forward d x x_1_8 x_1_4) ->
      img = 224 /\ N = 196).
Proof.
  split; [|split].
  - intros B N C dx HB HC. rewrite transpose12_3. cbn [bind].
    rewrite reshape_nonneg by (valid; lia). unfold numel. cbn [fold_right].
    destruct (_ =? _) eqn:E; bool_hyps.
    + split; [intros _; nia | intros _; eexists; reflexivity].
    + split; [intros [? Hs]; discriminate Hs | intros ->; lia].
  - intros img d grid enc B C Hinit Hg Hne.
    apply DecoderC_init_inv in Hinit
      as (e0 & e1 & e2 & e3 & h2 & h3 & s2 & s3 &
          _ & _ & _ & _ & _ & _ & _ & _ & Hbd).
    destruct Hbd as [_ _ _ _ _ _ _ Hpd _ _ _ _ _ _ _ _].
    eapply PatchEmbed_forward_assert_fails; [exact Hpd | exact Hg |].
    intros [E _]. auto.
  - intros img d x x_1_8 x_1_4 B N C Hinit HB Hx [outs Hf].
    unfold DecoderC.forward in Hf. apply bind_Ok_inv in Hf as (r & Hr & _).
    destruct (DecoderC_forward_features_inv img d B N C x x_1_8 x_1_4 r
                Hinit HB Hx Hr) as (Himg & HN & _).
    auto.
Qed.

Lemma DecoderC_forward_needs_224_and_196_witness :
  exists d,
    DecoderC.init_default 224 = Ok d /\
    succeeds (DecoderC.forward d (input "x" [1; 196; 384])
                (input "x_1_8" [1; 784; 128]) (input "x_1_4" [1; 3136; 64])) /\
    (224 = 224 /\ 196 = 196).
Proof.
  destruct (DecoderC.init_default 224) as [d|e] eqn:E;
    [|vm_compute in E; discriminate].
  assert (S : succeeds (DecoderC.forward d (input "x" [1; 196; 384])
              (input "x_1_8" [1; 784; 128]) (input "x_1_4" [1; 3136; 64]))).
  { destruct (DecoderC_forward_features_default d 1 (input "x" [1; 196; 384])
                (input "x_1_8" [1; 784; 128]) (input "x_1_4" [1; 3136; 64]) E)
      as (m16 & m8 & m4 & m1 & Hf & _); [lia | reflexivity..|].
    unfold DecoderC.forward. rewrite Hf. cbn [bind]. unfold sigmoid, lift1.
    cbn [bind]. eexists. reflexivity. }
  exists d. split; [reflexivity|]. split; [exact S|].
  destruct DecoderC_forward_needs_224_and_196 as (_ & _ & Hneed).
  exact (Hneed 224 d (input "x" [1; 196; 384]) (input "x_1_8" [1; 784; 128])
           (input "x_1_4" [1; 3136; 64]) 1 196 384 E ltac:(lia) eq_refl S).
Defined.

(* ------------------------------------------------------------------ *)
(** ** C10 *)

(** C10. In what [load_list] returns, every file that the listing of
    [SRD_DC/train_A/] yields contributes an image path ending in [.png]
    paired with a label path ending in [.jpg]; the image path does not
    end in [.jpg].  Every file of the three other SRD listings
    contributes an image path and a label path that both end in [.jpg]. *)
Theorem load_list_SRD_DC_extensions (listdir : string -> Result (list string))
    (dataset_name data_root : string) (images labels : list string) :
  Dataset.load_list listdir dataset_name data_root = Ok (images, labels) ->
  (forall img_files img,
      listdir (data_root ++ "SRD_DC" ++ "/train_A/")%string = Ok img_files ->
      In img img_files ->
      let img_root := (data_root ++ "SRD_DC" ++ "/train_A/")%string in
      let image := Dataset.image_path img_root img ".png" in
      let label := Dataset.label_path img_root img ".jpg" in
      In (image, label) (combine images labels) /\
      Dataset.endswith ".png" image = true /\
      Dataset.endswith ".jpg" label = true /\
      Dataset.endswith ".jpg" image = false)
  /\
  (forall name img_files img,
      In name ["SRD_BM"; "SRD_DSC"; "SRD_TG"]%string ->
      listdir (data_root ++ name ++ "/train_A/")%string = Ok img_files ->
      In img img_files ->
      let img_root := (data_root ++ name ++ "/train_A/")%string in
      let image := Dataset.image_path img_root img ".jpg" in
      let label := Dataset.label_path img_root img ".jpg" in
      In (image, label) (combine images labels) /\
      Dataset.endswith ".jpg" image = true /\
      Dataset.endswith ".jpg" label = true).
Proof.
  intros H.
  apply DatasetFacts.load_list_inv in H
    as (f1 & f2 & f3 & f4 & f5 & f6 & f7 & f8 & f9 & H).
  cbn zeta in H.
  destruct H as (F1 & F2 & F3 & F4 & F5 & F6 & F7 & F8 & F9 & -> & ->).
  split.
  - intros img_files img Hl Hin. cbn zeta.
    rewrite F7 in Hl. injection Hl as <-.
    split; [|split; [|split]].
    + do 6 DatasetFacts.skip_stanza. DatasetFacts.this_stanza.
    + apply DatasetFacts.image_path_endswith.
    + apply DatasetFacts.label_path_endswith.
    + unfold Dataset.image_path. rewrite <- DatasetFacts.append_assoc.
      apply DatasetFacts.png_is_not_jpg.
  - intros name img_files img Hname Hl Hin. cbn zeta.
    split; [|split; [apply DatasetFacts.image_path_endswith
                    |apply DatasetFacts.label_path_endswith]].
    destruct Hname as [<- | [<- | [<- | []]]].
    + rewrite F6 in Hl. injection Hl as <-.
      do 5 DatasetFacts.skip_stanza. DatasetFacts.this_stanza.
    + rewrite F8 in Hl. injection Hl as <-.
      do 7 DatasetFacts.skip_stanza. DatasetFacts.this_stanza.
    + rewrite F9 in Hl. injection Hl as <-.
      do 8 DatasetFacts.skip_stanza. DatasetFacts.this_stanza.
Qed.

Lemma load_list_SRD_DC_extensions_witness :
  exists images labels,
    Dataset.load_list listdir_example "SRD" "data/" = Ok (images, labels) /\
    In ("data/SRD_DC/train_A/IMG_1.png"%string,
        "data/SRD_DC/train_B/IMG_1.jpg"%string) (combine images labels) /\
    In ("data/SRD_BM/train_A/IMG_2.jpg"%string,
        "data/SRD_BM/train_B/IMG_2.jpg"%string) (combine images labels).
Proof.
  destruct (Dataset.load_list listdir_example "SRD" "data/")
    as [[images labels]|e] eqn:E; [|vm_compute in E; discriminate].
  exists images, labels. split; [reflexivity|].
  destruct (load_list_SRD_DC_extensions listdir_example "SRD" "data/"
              images labels E) as [Hdc Hsrd].
  split.
  - exact (proj1 (Hdc ["IMG_1.jpg"%string] "IMG_1.jpg"%string eq_refl
                      (or_introl eq_refl))).
  - exact (proj1 (Hsrd "SRD_BM"%string ["IMG_2.jpg"%string] "IMG_2.jpg"%string
                       (or_introl eq_refl) eq_refl (or_introl eq_refl))).
Defined.

(* ================================================================== *)
(** * Further helper lemmas *)

Lemma getitem_nth {A : Type} (l : list A) (i : nat) (a : A) :
  nth_error l i = Some a -> getitem l (Z.of_nat i) = Ok a.
Proof.
  intros Hn. unfold getitem.
  assert (Hlt : (i < length l)%nat) by (apply nth_error_Some; congruence).
  replace (Z.of_nat i <? 0) with false by (symmetry; apply Z.ltb_ge; lia).
  replace (0 <=? Z.of_nat i) with true by (symmetry; apply Z.leb_le; lia).
  replace (Z.of_nat i <? Z.of_nat (length l)) with true
    by (symmetry; apply Z.ltb_lt; lia).
  cbn [andb]. rewrite Nat2Z.id, Hn. reflexivity.
Qed.

(** An index that [l[i]] accepts lies in [-len(l) .. len(l) - 1]. *)
Lemma getitem_Ok_range {A : Type} (l : list A) (i : Z) (a : A) :
  getitem l i = Ok a -> - Z.of_nat (length l) <= i < Z.of_nat (length l).
Proof.
  unfold getitem. intros H.
  destruct (i <? 0) eqn:Ei; bool_hyps; if_inv H; bool_hyps; lia.
Qed.

(** The block lists of a constructed decoder have [depths[2]] and
    [depths[3]] entries. *)
Lemma DecoderC_init_block_counts (img : Z) (embed_dims num_heads depths : list Z)
    (qk_ratio : Z) (sr_ratios : list Z) (d : DecoderC.t) :
  DecoderC.init img embed_dims num_heads depths qk_ratio sr_ratios = Ok d ->
  exists d0 d1 d2 d3,
    getitem depths 0 = Ok d0 /\ getitem depths 1 = Ok d1 /\
    getitem depths 2 = Ok d2 /\ getitem depths 3 = Ok d3 /\
    length (DecoderC.blocks_c d) = Z.to_nat d2 /\
    length (DecoderC.blocks_d d) = Z.to_nat d3.
Proof.
  unfold DecoderC.init. intros H.
  peel H e0 He0. peel H e1 He1. peel H e2 He2. peel H e3 He3.
  peel H pb Hpb. peel H pc Hpc. peel H pd Hpd.
  peel H h2 Hh2. peel H s2 Hs2. peel H n1 Hn1. peel H n2 Hn2. peel H rc Hrc.
  peel H h3 Hh3. peel H s3 Hs3. peel H n3 Hn3. peel H n4 Hn4. peel H rd Hrd.
  peel H dpr Hdpr. peel H d0 Hd0. peel H d1 Hd1. peel H d2 Hd2.
  peel H bc Hbc. apply for_range_inv in Hbc as [Hlc _].
  peel H d3 Hd3.
  peel H bd Hbd. apply for_range_inv in Hbd as [Hld _].
  inversion H; subst d; clear H.
  exists d0, d1, d2, d3. cbn [DecoderC.blocks_c DecoderC.blocks_d]. auto 10.
Qed.

Lemma for_each_raises {A : Type} (f : A -> Result unit) (e : PyError)
    (ms : list A) :
  (forall m, f m = Raise e) -> ms <> [] -> DecoderC.for_each f ms = Raise e.
Proof.
  intros Hf Hne. destruct ms as [|m rest]; [congruence|].
  cbn [DecoderC.for_each]. rewrite Hf. reflexivity.
Qed.

Lemma load_list_run_stanzas (listdir : string -> Result (list string))
    (dataset_name data_root : string) :
  Dataset.load_list listdir dataset_name data_root =
  run_stanzas listdir data_root train_stanzas ([], []).
Proof. reflexivity. Qed.

Lemma stanza_ok (listdir : string -> Result (list string))
    (data_root name ext_image ext_label : string) (files : list string)
    (acc : list string * list string) :
  listdir (data_root ++ name ++ "/train_A/")%string = Ok files ->
  succeeds (Dataset.stanza listdir data_root name ext_image ext_label acc).
Proof.
  intros Hl. unfold Dataset.stanza. rewrite Hl. cbn [bind].
  eexists. reflexivity.
Qed.

Lemma stanza_raises (listdir : string -> Result (list string))
    (data_root name ext_image ext_label : string) (e : PyError)
    (acc : list string * list string) :
  listdir (data_root ++ name ++ "/train_A/")%string = Raise e ->
  Dataset.stanza listdir data_root name ext_image ext_label acc = Raise e.
Proof. intros Hl. unfold Dataset.stanza. rewrite Hl. reflexivity. Qed.

Lemma substring_prefix (a b : string) :
  substring 0 (String.length a) (a ++ b) = a.
Proof.
  induction a as [|c a IH]; cbn [String.length String.append substring].
  - destruct b; reflexivity.
  - now rewrite IH.
Qed.

Lemma substring_zero (s : string) : substring 0 0 s = EmptyString.
Proof. destruct s; reflexivity. Qed.

Lemma getitem_In {A : Type} (l : list A) (i : Z) (a : A) :
  getitem l i = Ok a -> In a l.
Proof.
  unfold getitem. intros H. if_inv H. revert H.
  destruct (nth_error l _) as [b|] eqn:En; intros H; [|discriminate H].
  inversion H; subst. eapply nth_error_In, En.
Qed.

Lemma linspace0_inv (steps : Z) (dpr : list Z) :
  DecoderC.linspace0 steps = Ok dpr ->
  0 <= steps /\ forall dp, In dp dpr -> dp = 0.
Proof.
  unfold DecoderC.linspace0. intros H.
  destruct (steps <? 0) eqn:E; [discriminate H|]. bool_hyps.
  inversion H; subst. split; [assumption|].
  intros dp Hin. apply repeat_spec in Hin. exact Hin.
Qed.

Lemma drop_last4_app (stem ext : string) :
  String.length ext = 4%nat -> Dataset.drop_last4 (stem ++ ext) = stem.
Proof.
  intros Hlen. unfold Dataset.drop_last4.
  rewrite DatasetFacts.length_append, Hlen, Nat.add_sub.
  apply substring_prefix.
Qed.

Lemma prefix_append (a b : string) : prefix a (a ++ b) = true.
Proof.
  induction a as [|c a IH]; cbn [prefix String.append].
  - destruct b; reflexivity.
  - destruct (Ascii.ascii_dec c c) as [_|Hn]; [exact IH | congruence].
Qed.

(** What [load_test_list] returns, file by file. *)
Lemma load_test_list_inv (listdir : string -> Result (list string))
    (test_path data_root : string) (images : list string) :
  Dataset.load_test_list listdir test_path data_root = Ok images ->
  exists img_files,
    listdir (data_root ++ "test_new" ++ "/test_DC/")%string = Ok img_files /\
    images = map (fun img => ((data_root ++ "test_new" ++ "/test_DC/") ++
                              Dataset.drop_last4 img ++ ".png")%string)
                 img_files.
Proof.
  unfold Dataset.load_test_list. intros H.
  apply bind_Ok_inv in H as (img_files & Hl & H).
  exists img_files. split; [exact Hl|].
  inversion H as [E]. clear H E.
  set (path := fun img : string =>
         ((data_root ++ "test_new" ++ "/test_DC/") ++
          Dataset.drop_last4 img ++ ".png")%string).
  assert (G : forall acc,
             fold_left (fun images img => (images ++ [path img])%list)
                       img_files acc
             = (acc ++ map path img_files)%list).
  { clear Hl.
    induction img_files as [|img l IH]; intros acc; cbn [fold_left map].
    - now rewrite app_nil_r.
    - rewrite IH, <- app_assoc. reflexivity. }
  exact (G []).
Qed.

(* ================================================================== *)
(** * Further properties of the code *)

(* ------------------------------------------------------------------ *)
(** ** [CrossAttention]: construction, [flops], mismatched batches *)

(** X1. For a constructed [CrossAttention], [flops(N1, N2)] returns
    [2*N1*dim*(dim1 + N2) + 2*N2*dim2*dim]: the floor divisions by
    [num_heads] are exact, so the count does not depend on the number of
    heads. *)
Theorem CrossAttention_flops_closed_form (name : string)
    (dim1 dim2 dim num_heads : Z) (ca : CrossAttention.t) (N1 N2 : Z) :
  CrossAttention.init name dim1 dim2 dim num_heads = Ok ca ->
  CrossAttention.flops ca N1 N2 =
    Ok (2 * (N1 * dim * (dim1 + N2)) + 2 * (N2 * dim2 * dim)).
Proof.
  intros Hinit.
  apply CrossAttention_init_inv in Hinit as (Hh & _ & ->).
  unfold CrossAttention.flops. simp.
  rewrite !floordiv_ok by assumption. simp.
  replace (num_heads * N1 * dim) with (N1 * dim * num_heads) by ring.
  rewrite Z.div_mul by assumption.
  f_equal. ring.
Qed.

Lemma CrossAttention_flops_closed_form_witness :
  exists ca,
    CrossAttention.init "interact" 128 384 128 4 = Ok ca /\
    CrossAttention.flops ca 784 784 = Ok 260112384.
Proof.
  destruct (CrossAttention.init "interact" 128 384 128 4) as [ca|e] eqn:E;
    [|vm_compute in E; discriminate].
  exists ca. split; [reflexivity|].
  rewrite (CrossAttention_flops_closed_form "interact" 128 384 128 4 ca 784 784 E).
  reflexivity.
Defined.

(** X2. [CrossAttention(dim1, dim2, dim, num_heads)] raises
    [ZeroDivisionError] when [num_heads] is zero or [dim // num_heads] is
    zero (for positive [num_heads]: when [0 <= dim < num_heads]), from
    [//] or from [head_dim ** -0.5], before any layer is built; so a
    constructed [CrossAttention] has neither, and its [scale] is taken
    from [dim // num_heads].  For widths from 1 to 4096 it is built in
    every other case. *)
Theorem CrossAttention_init_result (name : string) (dim1 dim2 dim num_heads : Z) :
  (num_heads = 0 \/ dim / num_heads = 0 ->
   CrossAttention.init name dim1 dim2 dim num_heads = Raise ZeroDivisionError)
  /\
  (forall ca,
     CrossAttention.init name dim1 dim2 dim num_heads = Ok ca ->
     num_heads <> 0 /\ dim / num_heads <> 0 /\
     CrossAttention.scale ca = dim / num_heads /\
     CrossAttention.num_heads ca = num_heads)
  /\
  (num_heads <> 0 -> dim / num_heads <> 0 ->
   0 < dim1 <= 4096 -> 0 < dim2 <= 4096 -> 0 < dim <= 4096 ->
   succeeds (CrossAttention.init name dim1 dim2 dim num_heads))
  /\
  (0 < num_heads -> (dim / num_heads = 0 <-> 0 <= dim < num_heads)).
Proof.
  split; [|split; [|split]].
  - unfold CrossAttention.init, floordiv, pow_neg_half.
    intros [-> | Hz].
    + reflexivity.
    + destruct (num_heads =? 0); [reflexivity|]. cbn [bind].
      rewrite Hz. reflexivity.
  - intros ca Hinit.
    apply CrossAttention_init_inv in Hinit as (Hh & Hd & ->).
    repeat split; assumption.
  - intros Hh Hd _ _ _.
    unfold CrossAttention.init, floordiv, pow_neg_half.
    rewrite (proj2 (Z.eqb_neq num_heads 0) Hh). cbn [bind].
    rewrite (proj2 (Z.eqb_neq (dim / num_heads) 0) Hd). cbn [bind].
    eexists. reflexivity.
  - intros Hh. split.
    + intros Hz. apply Z.div_small_iff in Hz; lia.
    + intros Hr. apply Z.div_small. exact Hr.
Qed.

(** X3. A [PatchEmbed] with [fuse=True] builds a 4-head
    [CrossAttention] of width [embed_dim] last: it is constructed only if
    [embed_dim] is outside [0..3], and for [embed_dim] in [0..3] (with
    [in_chans] from 1 to 512 and a kernel from 1 to 8, sizes the layers
    built before accept) it raises [ZeroDivisionError].  With
    [embed_dim] from 4 to 4096, or with [fuse=False] and [embed_dim] from
    1 to 4096, it is constructed; [img_size], [patch_size], [stride] and
    [padding] are never checked. *)
Theorem PatchEmbed_init_result (name : string) (img ps ic ed k st pad : Z) :
  (forall pe,
     PatchEmbed.init name img ps ic ed k st pad true = Ok pe ->
     ~ (0 <= ed < 4))
  /\
  (0 < ic <= 512 -> 0 < k <= 8 ->
   (0 <= ed < 4 ->
    PatchEmbed.init name img ps ic ed k st pad true = Raise ZeroDivisionError)
   /\
   (4 <= ed <= 4096 ->
    succeeds (PatchEmbed.init name img ps ic ed k st pad true))
   /\
   (0 < ed <= 4096 ->
    succeeds (PatchEmbed.init name img ps ic ed k st pad false))).
Proof.
  assert (Hsmall : ed / 4 = 0 <-> 0 <= ed < 4).
  { split; [intros Hz; apply Z.div_small_iff in Hz; lia | apply Z.div_small]. }
  split.
  - intros pe Hinit.
    apply PatchEmbed_init_inv in Hinit as (cf & inter & _ & _ & ca & _ & Hca).
    apply CrossAttention_init_inv in Hca as (_ & Hd & _).
    intros Hr. apply Hd, Hsmall, Hr.
  - intros _ _.
    unfold PatchEmbed.init, CrossAttention.init, floordiv, pow_neg_half.
    cbn [bind]. change (4 =? 0) with false. cbn [bind].
    split; [|split].
    + intros Hr. apply Hsmall in Hr. rewrite Hr. reflexivity.
    + intros Hr. destruct (ed / 4 =? 0) eqn:E; bool_hyps.
      * apply Hsmall in E. lia.
      * cbn [bind]. eexists. reflexivity.
    + intros _. eexists. reflexivity.
Qed.

Lemma PatchEmbed_init_result_witness :
  PatchEmbed.init "patch_embed_c" 28 2 128 3 3 2 1 true = Raise ZeroDivisionError
  /\ succeeds (PatchEmbed.init "patch_embed_c" 28 2 128 64 3 2 1 true).
Proof.
  split.
  - apply (proj2 (PatchEmbed_init_result "patch_embed_c" 28 2 128 3 3 2 1));
      lia.
  - apply (proj2 (PatchEmbed_init_result "patch_embed_c" 28 2 128 64 3 2 1));
      lia.
Defined.

Lemma CrossAttention_init_result_witness :
  CrossAttention.init "interact" 128 384 3 4 = Raise ZeroDivisionError /\
  succeeds (CrossAttention.init "interact" 128 384 128 4).
Proof.
  destruct (CrossAttention_init_result "interact" 128 384 3 4) as (Hz & _).
  destruct (CrossAttention_init_result "interact" 128 384 128 4)
    as (_ & _ & Hok & _).
  split.
  - apply Hz. right. reflexivity.
  - apply Hok; try lia; discriminate.
Defined.

(** X4. The batch size used by [CrossAttention.forward] is that of
    [depth_fea]: with a query source of another batch size (and tokens to
    reshape) the first [reshape] raises a [RuntimeError]. *)
Theorem CrossAttention_forward_batch_mismatch (name : string)
    (dim1 dim2 dim num_heads : Z) (ca : CrossAttention.t)
    (fea depth_fea : Tensor) (B1 B N1 N2 : Z) :
  CrossAttention.init name dim1 dim2 dim num_heads = Ok ca ->
  0 < num_heads -> 0 < dim -> dim mod num_heads = 0 ->
  0 <= B -> 0 <= B1 -> 0 < N1 ->
  shape fea = [B1; N1; dim1] ->
  shape depth_fea = [B; N2; dim2] ->
  B1 <> B ->
  CrossAttention.forward ca fea depth_fea = Raise RuntimeError.
Proof.
  intros Hinit Hh Hdim Hmod HB HB1 HN1 Hf Hd Hne.
  apply CrossAttention_init_inv in Hinit as (_ & _ & ->).
  destruct fea as [sf df], depth_fea as [sd dd]. cbn [shape] in Hf, Hd. subst.
  assert (Hex : num_heads * (dim / num_heads) = dim)
    by (apply div_exact_mul; lia).
  assert (Hhd : 0 <= dim / num_heads) by (apply Z.div_pos; lia).
  unfold CrossAttention.forward. simp.
  rewrite linear3. simp. rewrite Z.eqb_refl. simp.
  rewrite floordiv_ok by lia. simp.
  rewrite reshape_nonneg by (valid; lia). numel_eq.
  assert (E : (B * (N1 * (num_heads * (dim / num_heads * 1)))
                 =? B1 * (N1 * (dim * 1))) = false).
  { apply Z.eqb_neq. rewrite Z.mul_1_r, Hex. intros Heq.
    assert (B * (N1 * dim) = B1 * (N1 * dim)) by lia.
    assert (0 < N1 * dim) by nia. nia. }
  rewrite E. reflexivity.
Qed.

Lemma CrossAttention_forward_batch_mismatch_witness :
  exists ca,
    CrossAttention.init "interact" 128 384 128 4 = Ok ca /\
    CrossAttention.forward ca (input "fea" [2; 784; 128])
                              (input "depth_fea" [3; 784; 384])
      = Raise RuntimeError.
Proof.
  destruct (CrossAttention.init "interact" 128 384 128 4) as [ca|e] eqn:E;
    [|vm_compute in E; discriminate].
  exists ca. split; [reflexivity|].
  apply (CrossAttention_forward_batch_mismatch "interact" 128 384 128 4 ca
           (input "fea" [2; 784; 128]) (input "depth_fea" [3; 784; 384])
           2 3 784 784 E);
    try lia; reflexivity.
Defined.

(* ------------------------------------------------------------------ *)
(** ** [Attention] and [Block] *)



(** X6. Without spatial reduction ([sr_ratio <= 1]) [Attention.forward]
    never reads [H] and [W]: any two grids give the same result, whether
    a tensor or an exception. *)
Theorem Attention_forward_ignores_grid (name : string) (dim h qk sr : Z)
    (at_ : Attention.t) (x rp : Tensor) (H W H' W' : Z) :
  Attention.init name dim h qk sr = Ok at_ ->
  sr <= 1 ->
  Attention.forward at_ x H W rp = Attention.forward at_ x H' W' rp.
Proof.
  intros Hinit Hsr.
  apply Attention_init_inv in Hinit as (_ & _ & _ & ->).
  assert (E : (1 <? sr) = false) by (apply Z.ltb_ge; exact Hsr).
  unfold Attention.forward. simp. rewrite E. reflexivity.
Qed.

Lemma Attention_forward_ignores_grid_witness :
  exists at_,
    Attention.init "attn" 128 8 1 1 = Ok at_ /\
    Attention.forward at_ (input "x" [1; 784; 128]) 28 28
                          (input "relative_pos" [8; 784; 784])
    = Attention.forward at_ (input "x" [1; 784; 128]) 0 5
                            (input "relative_pos" [8; 784; 784]).
Proof.
  destruct (Attention.init "attn" 128 8 1 1) as [at_|e] eqn:E;
    [|vm_compute in E; discriminate].
  exists at_. split; [reflexivity|].
  apply (Attention_forward_ignores_grid "attn" 128 8 1 1 at_ _ _ 28 28 0 5 E).
  lia.
Defined.

(** X7. What [Block.forward] demands of its input: if it returns on a
    non-empty [(B, N, C)] input with grid [H] x [W], then [C] is the
    block's width, [N = H * W], and the output has the shape of the
    input. *)
Theorem Block_forward_returns_only_on_grid (dim h qk sr : Z) (blk : Block.t)
    (x rp out : Tensor) (H W B N C : Z) :
  (exists name dp, Block.init name dim h dp qk sr = Ok blk) ->
  Block.forward blk x H W rp = Ok out ->
  shape x = [B; N; C] -> 0 < B -> 0 <= N -> 0 < C -> 0 <= H -> 0 <= W ->
  C = dim /\ N = H * W /\ shape out = shape x.
Proof.
  intros (name & dp & Hinit) Hf Hx HB HN HC HH HW.
  apply Block_init_inv in Hinit as (at_ & Hat & ->).
  destruct x as [sx dx]. cbn [shape] in Hx. subst sx.
  unfold Block.forward, Block.drop_path_forward in Hf. simp.
  prim_in Hf lia. if_inv Hf. bool_hyps. subst C. simp.
  peel Hf y Hy.
  eapply Attention_forward_inv in Hy as [_ Hy]; [|eassumption|reflexivity|lia..].
  destruct y as [sy dy]. cbn [shape] in Hy. subst sy.
  assert (Hgrid : forall n, B * (dim * (H * (W * 1))) = B * (dim * (n * 1)) ->
                            n = H * W).
  { intros n E. assert (0 < B * dim) by nia.
    assert (B * dim * (H * W) = B * dim * n) by lia. nia. }
  destruct (0 <? dp); unfold lift1 in Hf; simp;
    run_in Hf lia; rewrite ?conv_out_311 in Hf; run_in Hf lia;
    inversion Hf; cbn [shape]; rewrite Z.mul_1_r;
    (split; [reflexivity|]);
    match goal with
    | E : numel [B; dim; H; W] = numel [B; dim; N] |- _ =>
        unfold numel in E; cbn [fold_right] in E;
        apply Hgrid in E; subst N; split; reflexivity
    end.
Qed.

Lemma Block_forward_returns_only_on_grid_witness :
  exists blk out,
    Block.init "blk" 8 2 0 1 1 = Ok blk /\
    Block.forward blk (input "x" [1; 4; 8]) 2 2 (input "relative_pos" [2; 4; 4])
      = Ok out /\
    (8 = 8 /\ 4 = 2 * 2 /\ shape out = shape (input "x" [1; 4; 8])).
Proof.
  destruct (Block.init "blk" 8 2 0 1 1) as [blk|e] eqn:E;
    [|vm_compute in E; discriminate].
  destruct (Block.forward blk (input "x" [1; 4; 8]) 2 2
              (input "relative_pos" [2; 4; 4])) as [out|e] eqn:F.
  - exists blk, out. split; [reflexivity|]. split; [exact F|].
    apply (Block_forward_returns_only_on_grid 8 2 1 1 blk
             (input "x" [1; 4; 8]) (input "relative_pos" [2; 4; 4]) out
             2 2 1 4 8 (ex_intro _ "blk"%string (ex_intro _ 0 E)) F);
      try reflexivity; lia.
  - exfalso. vm_compute in E. injection E as <-. vm_compute in F. discriminate.
Defined.

(** X8. A stack of blocks keeps the token shape: [run_blocks] over any
    number of blocks built for width [dim] (with [num_heads] dividing
    [dim]) returns, on a [(B, H*W, dim)] input with a matching position
    bias, a tensor of the same shape.  With spatial reduction the reduced
    grid must hold more than one value per channel over the batch, which
    the [BatchNorm2d] of a module in training mode requires. *)
Theorem run_blocks_preserves_shape (dim h sr : Z) (blocks : list Block.t)
    (B H W : Z) (rp x : Tensor) :
  Forall (built_block dim h sr) blocks ->
  0 < h -> 0 < dim -> dim mod h = 0 ->
  0 < B -> 1 <= H -> 1 <= W ->
  (1 < sr -> sr <= H /\ sr <= W /\ 1 < B * reduced_tokens sr H W) ->
  shape rp = [h; H * W; reduced_tokens sr H W] ->
  shape x = [B; H * W; dim] ->
  exists out,
    DecoderC.run_blocks blocks x H W rp = Ok out /\ shape out = shape x.
Proof.
  intros Hall Hh Hdim Hmod HB HH HW Hsr' Hrp Hx. rewrite Hx.
  assert (Hsr : 1 < sr -> sr <= H /\ sr <= W)
    by (intros Hs; destruct (Hsr' Hs) as (? & ? & _); auto).
  revert x Hx.
  induction Hall as [|blk blocks Hblk _ IH]; intros x Hx;
    cbn [DecoderC.run_blocks].
  - exists x. split; [reflexivity | exact Hx].
  - destruct (Block_forward_ok dim h sr blk B H W x rp
                Hblk Hh Hdim Hmod HB HH HW Hsr Hrp Hx) as (y & Ey & Hy).
    rewrite Ey. cbn [bind]. exact (IH y Hy).
Qed.

Lemma run_blocks_preserves_shape_witness :
  exists b1 b2,
    Block.init "blocks_c.0" 8 2 0 1 2 = Ok b1 /\
    Block.init "blocks_c.1" 8 2 0 1 2 = Ok b2 /\
    exists out,
      DecoderC.run_blocks [b1; b2] (input "x" [1; 4 * 4; 8]) 4 4
        (input "relative_pos" [2; 4 * 4; reduced_tokens 2 4 4]) = Ok out /\
      shape out = shape (input "x" [1; 4 * 4; 8]).
Proof.
  destruct (Block.init "blocks_c.0" 8 2 0 1 2) as [b1|e] eqn:E1;
    [|vm_compute in E1; discriminate].
  destruct (Block.init "blocks_c.1" 8 2 0 1 2) as [b2|e] eqn:E2;
    [|vm_compute in E2; discriminate].
  exists b1, b2. split; [reflexivity|]. split; [reflexivity|].
  apply (run_blocks_preserves_shape 8 2 2 [b1; b2] 1 4 4
           (input "relative_pos" [2; 4 * 4; reduced_tokens 2 4 4])
           (input "x" [1; 4 * 4; 8]));
    try reflexivity; try lia.
  - repeat constructor.
    + exists "blocks_c.0"%string, 0. exact E1.
    + exists "blocks_c.1"%string, 0. exact E2.
  - intros _. change (reduced_tokens 2 4 4) with 4. lia.
Defined.

(* ------------------------------------------------------------------ *)
(** ** [DecoderC]: construction *)

(** Evaluate the next call of a sequence when it does not mention [img]. *)
Ltac closed_step img :=
  cbn [bind];
  match goal with
  | |- context [bind ?c _] =>
      lazymatch c with
      | context [img] => fail
      | _ => let v := eval vm_compute in c in change c with v
      end
  end.

(** X9. The constructor never checks [img_size]: with the other
    arguments at their defaults, [DecoderC(img_size)] is constructed for
    every [img_size] from 0 to 256, whether or not 16 divides it (sizes
    for which the two position biases are small enough to be stored).  It
    only derives the grids [img_size // 4, // 8, // 16] from it.  The
    decoder it returns records [img_size] and has six blocks in stage c
    and three in stage d. *)
Theorem DecoderC_init_default_any_size (img : Z) :
  0 <= img <= 256 ->
  exists d,
    DecoderC.init_default img = Ok d /\
    DecoderC.img_size d = img /\
    length (DecoderC.blocks_c d) = 6%nat /\
    length (DecoderC.blocks_d d) = 3%nat.
Proof.
  intros _.
  unfold DecoderC.init_default, DecoderC.init.
  do 4 closed_step img. cbn [bind].
  destruct (PatchEmbed.init "patch_embed_b" (img / 4) 4 64 16 7 4 2 false)
    as [pb|e] eqn:Epb; [|discriminate Epb].
  cbn [bind].
  destruct (PatchEmbed.init "patch_embed_c" (img / 8) 2 128 64 3 2 1 true)
    as [pc|e] eqn:Epc; [|discriminate Epc].
  cbn [bind].
  destruct (PatchEmbed.init "patch_embed_d" (img / 16) 2 384 128 3 2 1 true)
    as [pd|e] eqn:Epd; [|discriminate Epd].
  apply PatchEmbed_init_inv in Epc as (cfc & ic & -> & _).
  apply PatchEmbed_init_inv in Epd as (cfd & id & -> & _).
  cbn [bind PatchEmbed.num_patches].
  assert (Hnc : 0 <= img / 8 * 2 * (img / 8 * 2)) by nia.
  assert (Hnd : 0 <= img / 16 * 2 * (img / 16 * 2)) by nia.
  assert (Hrc : 0 <= img / 8 * 2 * (img / 8 * 2) / 2 / 2)
    by (apply Z.div_pos; [apply Z.div_pos|]; lia).
  assert (Hrd : 0 <= img / 16 * 2 * (img / 16 * 2) / 1 / 1)
    by (apply Z.div_pos; [apply Z.div_pos|]; lia).
  do 2 closed_step img. cbn [bind].
  do 2 (rewrite floordiv_ok by lia; cbn [bind]).
  unfold randn at 1. cbn [forallb].
  if_true ltac:(first [lia | assumption]). cbn [bind].
  do 2 closed_step img. cbn [bind].
  do 2 (rewrite floordiv_ok by lia; cbn [bind]).
  unfold randn at 1. cbn [forallb].
  if_true ltac:(first [lia | assumption]). cbn [bind].
  repeat closed_step img. cbn [bind].
  eexists. split; [reflexivity|]. cbn [DecoderC.img_size DecoderC.blocks_c DecoderC.blocks_d].
  repeat split.
Qed.

Lemma DecoderC_init_default_any_size_witness :
  exists d,
    DecoderC.init_default 100 = Ok d /\
    DecoderC.img_size d = 100 /\
    length (DecoderC.blocks_c d) = 6%nat /\
    length (DecoderC.blocks_d d) = 3%nat.
Proof.
  apply (DecoderC_init_default_any_size 100). lia.
Defined.

(** X10. A constructed decoder was given lists with at least four
    entries each: [__init__] reads [embed_dims[3]], [num_heads[3]],
    [depths[3]] and [sr_ratios[3]]. *)
Theorem DecoderC_init_reads_four_entries (img : Z)
    (embed_dims num_heads depths : list Z) (qk_ratio : Z) (sr_ratios : list Z)
    (d : DecoderC.t) :
  DecoderC.init img embed_dims num_heads depths qk_ratio sr_ratios = Ok d ->
  (4 <= length embed_dims)%nat /\ (4 <= length num_heads)%nat /\
  (4 <= length depths)%nat /\ (4 <= length sr_ratios)%nat.
Proof.
  intros Hinit.
  destruct (DecoderC_init_inv _ _ _ _ _ _ _ Hinit)
    as (e0 & e1 & e2 & e3 & h2 & h3 & s2 & s3 &
        _ & _ & _ & He3 & _ & Hh3 & _ & Hs3 & _).
  destruct (DecoderC_init_block_counts _ _ _ _ _ _ _ Hinit)
    as (d0 & d1 & d2 & d3 & _ & _ & _ & Hd3 & _).
  apply getitem_Ok_range in He3, Hh3, Hs3, Hd3. lia.
Qed.

Lemma DecoderC_init_reads_four_entries_witness :
  exists d,
    DecoderC.init_default 224 = Ok d /\
    (4 <= length DecoderC.default_embed_dims)%nat /\
    (4 <= length DecoderC.default_num_heads)%nat /\
    (4 <= length DecoderC.default_depths)%nat /\
    (4 <= length DecoderC.default_sr_ratios)%nat.
Proof.
  destruct (DecoderC.init_default 224) as [d|e] eqn:E;
    [|vm_compute in E; discriminate].
  exists d. split; [reflexivity|].
  exact (DecoderC_init_reads_four_entries 224 DecoderC.default_embed_dims
           DecoderC.default_num_heads DecoderC.default_depths 1
           DecoderC.default_sr_ratios d E).
Defined.

(** X11. With fewer than four [embed_dims] (each a width from 1 to
    4096, which the layers built from the first two accept) the
    constructor raises [IndexError], whatever the other arguments are:
    the four widths are the first thing it reads. *)
Theorem DecoderC_init_short_embed_dims (img : Z)
    (embed_dims num_heads depths : list Z) (qk_ratio : Z) (sr_ratios : list Z) :
  (length embed_dims < 4)%nat ->
  Forall (fun e => 0 < e <= 4096) embed_dims ->
  DecoderC.init img embed_dims num_heads depths qk_ratio sr_ratios
    = Raise IndexError.
Proof.
  intros Hlen _. unfold DecoderC.init.
  destruct embed_dims as [|a [|b [|c [|e l]]]]; cbn [length] in Hlen;
    try lia; reflexivity.
Qed.

Lemma DecoderC_init_short_embed_dims_witness :
  DecoderC.init 224 [384; 128; 64] DecoderC.default_num_heads
                DecoderC.default_depths 1 DecoderC.default_sr_ratios
    = Raise IndexError.
Proof.
  apply (DecoderC_init_short_embed_dims 224 [384; 128; 64]).
  - cbn [length]. lia.
  - repeat constructor; lia.
Defined.

(** X12. Configuration the constructor never uses: the decoder depends
    on [embed_dims[0..3]], [num_heads[2..3]] and [sr_ratios[2..3]] only.
    Changing [num_heads[0..1]], [sr_ratios[0..1]] or any entry after the
    fourth gives the same decoder (or the same exception). *)
Theorem DecoderC_init_unused_entries (img qk_ratio : Z) (depths : list Z)
    (e0 e1 e2 e3 h0 h1 h2 h3 s0 s1 s2 s3 h0' h1' s0' s1' : Z)
    (er hr sr er' hr' sr' : list Z) :
  DecoderC.init img (e0 :: e1 :: e2 :: e3 :: er) (h0 :: h1 :: h2 :: h3 :: hr)
                depths qk_ratio (s0 :: s1 :: s2 :: s3 :: sr)
  = DecoderC.init img (e0 :: e1 :: e2 :: e3 :: er') (h0' :: h1' :: h2 :: h3 :: hr')
                  depths qk_ratio (s0' :: s1' :: s2 :: s3 :: sr').
Proof.
  assert (G : forall (a b c e : Z) (l : list Z),
             getitem (a :: b :: c :: e :: l) 0 = Ok a /\
             getitem (a :: b :: c :: e :: l) 1 = Ok b /\
             getitem (a :: b :: c :: e :: l) 2 = Ok c /\
             getitem (a :: b :: c :: e :: l) 3 = Ok e).
  { intros a b c e l. split; [|split; [|split]].
    - apply (getitem_nth _ 0%nat). reflexivity.
    - apply (getitem_nth _ 1%nat). reflexivity.
    - apply (getitem_nth _ 2%nat). reflexivity.
    - apply (getitem_nth _ 3%nat). reflexivity. }
  unfold DecoderC.init.
  destruct (G e0 e1 e2 e3 er) as (-> & -> & -> & ->).
  destruct (G e0 e1 e2 e3 er') as (-> & -> & -> & ->).
  destruct (G h0 h1 h2 h3 hr) as (_ & _ & -> & ->).
  destruct (G h0' h1' h2 h3 hr') as (_ & _ & -> & ->).
  destruct (G s0 s1 s2 s3 sr) as (_ & _ & -> & ->).
  destruct (G s0' s1' s2 s3 sr') as (_ & _ & -> & ->).
  reflexivity.
Qed.

(** X13. [update_temperature()] cannot be used: it calls
    [m.update_temperature()] on every [Attention] of the decoder, a method
    the class does not define, so it raises [AttributeError] as soon as
    the decoder has a block ([depths[2] > 0] or [depths[3] > 0]); only a
    decoder without blocks passes. *)
Theorem DecoderC_update_temperature_raises (img : Z)
    (embed_dims num_heads depths : list Z) (qk_ratio : Z) (sr_ratios : list Z)
    (d : DecoderC.t) (d2 d3 : Z) :
  DecoderC.init img embed_dims num_heads depths qk_ratio sr_ratios = Ok d ->
  getitem depths 2 = Ok d2 -> getitem depths 3 = Ok d3 ->
  (0 < d2 \/ 0 < d3 -> DecoderC.update_temperature d = Raise AttributeError) /\
  (d2 <= 0 -> d3 <= 0 -> DecoderC.update_temperature d = Ok tt).
Proof.
  intros Hinit H2 H3.
  destruct (DecoderC_init_block_counts _ _ _ _ _ _ _ Hinit)
    as (d0 & d1 & d2' & d3' & _ & _ & H2' & H3' & Hc & Hd).
  rewrite H2 in H2'. rewrite H3 in H3'.
  injection H2' as <-. injection H3' as <-.
  unfold DecoderC.update_temperature, DecoderC.attention_modules.
  split.
  - intros Hpos. apply for_each_raises; [reflexivity|].
    intros Hnil. apply (f_equal (@length _)) in Hnil.
    rewrite length_map, length_app, Hc, Hd in Hnil. cbn [length] in Hnil. lia.
  - intros Hz2 Hz3.
    destruct (DecoderC.blocks_c d) as [|? ?]; [|cbn [length] in Hc; lia].
    destruct (DecoderC.blocks_d d) as [|? ?]; [|cbn [length] in Hd; lia].
    reflexivity.
Qed.

Lemma DecoderC_update_temperature_raises_witness :
  exists d,
    DecoderC.init_default 224 = Ok d /\
    DecoderC.update_temperature d = Raise AttributeError.
Proof.
  destruct (DecoderC.init_default 224) as [d|e] eqn:E;
    [|vm_compute in E; discriminate].
  exists d. split; [reflexivity|].
  apply (DecoderC_update_temperature_raises 224 DecoderC.default_embed_dims
           DecoderC.default_num_heads DecoderC.default_depths 1
           DecoderC.default_sr_ratios d 6 3 E); try reflexivity.
  left. lia.
Defined.

(* ------------------------------------------------------------------ *)
(** ** [PatchEmbed]: the geometry of the fold *)

(** X14. [PatchEmbed.forward] returns only for a consistent fold
    geometry: the size, kernel and stride are positive, the padding is
    not negative, and folding to [img_size * stride] with this kernel,
    stride and padding takes exactly [img_size] sliding blocks per side,
    i.e. [(img_size*stride + 2*padding - kernel_size) // stride + 1 =
    img_size]. *)
Theorem PatchEmbed_forward_needs_fold_geometry (name : string)
    (img ps ic ed k st pad : Z) (fuse : bool) (pe : PatchEmbed.t)
    (x : Tensor) (enc : option Tensor) (r : Tensor * (Z * Z)) :
  PatchEmbed.init name img ps ic ed k st pad fuse = Ok pe ->
  PatchEmbed.forward pe x enc = Ok r ->
  0 < img /\ 0 < k /\ 0 < st /\ 0 <= pad /\
  (img * st + 2 * pad - k) / st + 1 = img.
Proof.
  intros Hinit H.
  apply PatchEmbed_init_inv in Hinit as (cf & inter & -> & _).
  destruct x as [sx dx].
  unfold PatchEmbed.forward, py_assert in H. simp.
  destruct sx as [|B [|C [|H0 [|W0 [|? ?]]]]]; try discriminate H. simp.
  if_inv H. bool_hyps. subst H0 W0. simp.
  run_in H lia. subst C.
  rewrite fold3 in H. unfold fold_shape in H. simp.
  if_inv H. bool_hyps. clear H.
  set (b := fold_blocks (img * st) k st pad) in *.
  assert (Himg : 0 < img) by nia.
  assert (Hb : b = img).
  { apply (sq_eq 1); lia. }
  repeat (split; [lia|]).
  unfold b, fold_blocks in Hb.
  replace (img * st + 2 * pad - k) with (img * st + 2 * pad - (k - 1) - 1)
    by ring.
  exact Hb.
Qed.

Lemma PatchEmbed_forward_needs_fold_geometry_witness :
  exists pe r,
    PatchEmbed.init "patch_embed_b" 2 4 1 4 7 4 2 false = Ok pe /\
    PatchEmbed.forward pe (input "x" [1; 1; 2; 2]) None = Ok r /\
    (0 < 2 /\ 0 < 7 /\ 0 < 4 /\ 0 <= 2 /\ (2 * 4 + 2 * 2 - 7) / 4 + 1 = 2).
Proof.
  destruct (PatchEmbed.init "patch_embed_b" 2 4 1 4 7 4 2 false)
    as [pe|e] eqn:E; [|vm_compute in E; discriminate].
  destruct (PatchEmbed.forward pe (input "x" [1; 1; 2; 2]) None)
    as [r|e] eqn:F.
  - exists pe, r. split; [reflexivity|]. split; [exact F|].
    exact (PatchEmbed_forward_needs_fold_geometry "patch_embed_b"
             2 4 1 4 7 4 2 false pe (input "x" [1; 1; 2; 2]) None r E F).
  - exfalso. vm_compute in E. injection E as <-. vm_compute in F. discriminate.
Defined.

(** X15. The three up-sampling stages of a default decoder work at every
    image size of at least 16: stage d maps a [(B, 384, s, s)] map with
    [s = img_size // 16] and a skip feature of [(2s)^2] tokens to
    [(2s)^2] tokens of width 128, stage c does the same from width 128 to
    64 with [s = img_size // 8], and stage b maps [(B, 64, s, s)] with
    [s = img_size // 4] to [(4s)^2] tokens of width 16.  The restriction
    to 224 comes from [forward_features], not from the stages. *)
Theorem DecoderC_stages_any_size (img : Z) (d : DecoderC.t) (B : Z)
    (xd xc xb x_1_8 x_1_4 : Tensor) :
  DecoderC.init_default img = Ok d ->
  16 <= img -> 0 <= B ->
  shape xd = [B; 384; img / 16; img / 16] ->
  shape x_1_8 = [B; (img / 16 * 2) * (img / 16 * 2); 128] ->
  shape xc = [B; 128; img / 8; img / 8] ->
  shape x_1_4 = [B; (img / 8 * 2) * (img / 8 * 2); 64] ->
  shape xb = [B; 64; img / 4; img / 4] ->
  (exists y,
      PatchEmbed.forward (DecoderC.patch_embed_d d) xd (Some x_1_8)
        = Ok (y, (img / 16 * 2, img / 16 * 2)) /\
      shape y = [B; (img / 16 * 2) * (img / 16 * 2); 128]) /\
  (exists y,
      PatchEmbed.forward (DecoderC.patch_embed_c d) xc (Some x_1_4)
        = Ok (y, (img / 8 * 2, img / 8 * 2)) /\
      shape y = [B; (img / 8 * 2) * (img / 8 * 2); 64]) /\
  (exists y,
      PatchEmbed.forward (DecoderC.patch_embed_b d) xb None
        = Ok (y, (img / 4 * 4, img / 4 * 4)) /\
      shape y = [B; (img / 4 * 4) * (img / 4 * 4); 16]).
Proof.
  intros Hinit Himg HB Hxd H18 Hxc H14 Hxb.
  destruct (DecoderC_init_inv _ _ _ _ _ _ _ Hinit)
    as (e0 & e1 & e2 & e3 & h2 & h3 & s2 & s3 &
        He0 & He1 & He2 & He3 & _ & _ & _ & _ & Hd).
  vm_compute in He0, He1, He2, He3.
  injection He0 as <-. injection He1 as <-.
  injection He2 as <-. injection He3 as <-.
  destruct Hd as [_ _ _ _ _ Hpb Hpc Hpd _ _ _ _ _ _ _ _].
  assert (G2 : forall s, fold_blocks (s * 2) 3 2 1 = s).
  { intros s. unfold fold_blocks.
    replace (s * 2 + 2 * 1 - (3 - 1) - 1) with (1 + (s - 1) * 2) by ring.
    rewrite Z.div_add by lia. change (1 / 2) with 0. lia. }
  assert (G4 : forall s, fold_blocks (s * 4) 7 4 2 = s).
  { intros s. unfold fold_blocks.
    replace (s * 4 + 2 * 2 - (7 - 1) - 1) with (1 + (s - 1) * 4) by ring.
    rewrite Z.div_add by lia. change (1 / 4) with 0. lia. }
  assert (H16 : 0 < img / 16) by (apply Z.div_str_pos; lia).
  assert (H8 : 0 < img / 8) by (apply Z.div_str_pos; lia).
  assert (H4 : 0 < img / 4) by (apply Z.div_str_pos; lia).
  split; [|split].
  - apply (PatchEmbed_forward_ok "patch_embed_d" (img / 16) 2 384 128 3 2 1 true
             _ B xd (Some x_1_8) Hpd); try lia; try apply G2; try assumption.
    intros _. split; [lia|]. split; [reflexivity|]. eauto.
  - apply (PatchEmbed_forward_ok "patch_embed_c" (img / 8) 2 128 64 3 2 1 true
             _ B xc (Some x_1_4) Hpc); try lia; try apply G2; try assumption.
    intros _. split; [lia|]. split; [reflexivity|]. eauto.
  - apply (PatchEmbed_forward_ok "patch_embed_b" (img / 4) 4 64 16 7 4 2 false
             _ B xb None Hpb); try lia; try apply G4; assumption.
Qed.

Lemma DecoderC_stages_any_size_witness :
  exists d,
    DecoderC.init_default 32 = Ok d /\
    exists y,
      PatchEmbed.forward (DecoderC.patch_embed_b d) (input "x" [1; 64; 8; 8]) None
        = Ok (y, (32, 32)) /\
      shape y = [1; 1024; 16].
Proof.
  destruct (DecoderC.init_default 32) as [d|e] eqn:E;
    [|vm_compute in E; discriminate].
  exists d. split; [reflexivity|].
  apply (DecoderC_stages_any_size 32 d 1
           (input "xd" [1; 384; 2; 2]) (input "xc" [1; 128; 4; 4])
           (input "x" [1; 64; 8; 8])
           (input "x_1_8" [1; 16; 128]) (input "x_1_4" [1; 64; 64]) E);
    try reflexivity; lia.
Defined.

(* ------------------------------------------------------------------ *)
(** ** [dataset.py] *)

(** X16. The two lists [load_list] returns pair up: they have the same
    length, which is the number of files of the nine listed directories
    together.  [dataset_name] plays no part. *)
Theorem load_list_lengths (listdir : string -> Result (list string))
    (dataset_name data_root : string) (images labels : list string) :
  Dataset.load_list listdir dataset_name data_root = Ok (images, labels) ->
  length images = length labels /\
  exists listings,
    Forall2 (fun dir files => listdir dir = Ok files)
            (train_dirs data_root) listings /\
    length images = length (concat listings).
Proof.
  intros H.
  apply DatasetFacts.load_list_inv in H
    as (f1 & f2 & f3 & f4 & f5 & f6 & f7 & f8 & f9 & H).
  cbn zeta in H.
  destruct H as (F1 & F2 & F3 & F4 & F5 & F6 & F7 & F8 & F9 & -> & ->).
  split.
  - rewrite !length_app, !length_map. reflexivity.
  - exists [f1; f2; f3; f4; f5; f6; f7; f8; f9]. split.
    + unfold train_dirs, train_stanzas, train_dir. cbn [map fst snd].
      repeat (constructor; [assumption|]). constructor.
    + cbn [concat]. rewrite !length_app, !length_map. cbn [length]. lia.
Qed.

Lemma load_list_lengths_witness :
  exists images labels,
    Dataset.load_list listdir_example "ISTD" "data/" = Ok (images, labels) /\
    length images = length labels.
Proof.
  destruct (Dataset.load_list listdir_example "ISTD" "data/")
    as [[images labels]|e] eqn:E; [|vm_compute in E; discriminate].
  exists images, labels. split; [reflexivity|].
  exact (proj1 (load_list_lengths listdir_example "ISTD" "data/"
                  images labels E)).
Defined.

(** X17. [load_list] returns exactly when all nine directories can be
    listed; when one cannot, it raises the exception of the first such
    directory in the order of the source, and no list is returned. *)
Theorem load_list_listing_errors (listdir : string -> Result (list string))
    (dataset_name data_root : string) :
  (succeeds (Dataset.load_list listdir dataset_name data_root) <->
   Forall (fun dir => succeeds (listdir dir)) (train_dirs data_root))
  /\
  (forall pre st post e,
      train_stanzas = (pre ++ st :: post)%list ->
      Forall (fun dir => succeeds (listdir dir)) (map (train_dir data_root) pre) ->
      listdir (train_dir data_root st) = Raise e ->
      Dataset.load_list listdir dataset_name data_root = Raise e).
Proof.
  split; [split|].
  - intros [[images labels] H].
    apply DatasetFacts.load_list_inv in H
      as (f1 & f2 & f3 & f4 & f5 & f6 & f7 & f8 & f9 & H).
    cbn zeta in H.
    destruct H as (F1 & F2 & F3 & F4 & F5 & F6 & F7 & F8 & F9 & _).
    unfold train_dirs, train_stanzas, train_dir. cbn [map fst snd].
    repeat (constructor; [eexists; eassumption|]). constructor.
  - rewrite load_list_run_stanzas. unfold train_dirs.
    generalize (@nil string, @nil string). generalize train_stanzas.
    induction l as [|[[name ei] el] sts IH]; intros acc Hall;
      cbn [run_stanzas map fst snd] in *.
    + eexists. reflexivity.
    + inversion Hall as [|? ? [files Hf] Hrest]; subst.
      destruct (stanza_ok listdir data_root name ei el files acc Hf)
        as [acc' ->].
      cbn [bind]. apply IH, Hrest.
  - intros pre st post e Hsplit Hpre Hst.
    rewrite load_list_run_stanzas, Hsplit. clear Hsplit.
    generalize (@nil string, @nil string).
    induction pre as [|[[name ei] el] pre IH]; intros acc;
      cbn [app run_stanzas map fst snd] in *.
    + destruct st as [[name ei] el]. cbn [fst snd].
      rewrite (stanza_raises listdir data_root name ei el e acc Hst).
      reflexivity.
    + inversion Hpre as [|? ? [files Hf] Hrest]; subst.
      destruct (stanza_ok listdir data_root name ei el files acc Hf)
        as [acc' ->].
      cbn [bind]. apply IH, Hrest.
Qed.

Lemma load_list_listing_errors_witness :
  Dataset.load_list listdir_istd_only "ISTD" "data/" = Raise RuntimeError.
Proof.
  apply (proj2 (load_list_listing_errors listdir_istd_only "ISTD" "data/")
           [("ISTD_SP", ".png", ".png"); ("ISTD_DSC", ".png", ".png");
            ("ISTD_DC", ".png", ".png"); ("ISTD_BM", ".png", ".png");
            ("ISTD_TG", ".png", ".png")]%string
           ("SRD_BM", ".jpg", ".jpg")%string
           [("SRD_DC", ".png", ".jpg"); ("SRD_DSC", ".jpg", ".jpg");
            ("SRD_TG", ".jpg", ".jpg")]%string
           RuntimeError).
  - reflexivity.
  - repeat constructor; eexists; reflexivity.
  - reflexivity.
Defined.

(** X18. What [load_test_list] returns: one path per file of
    [data_root + 'test_new/test_DC/'], each inside that directory and
    ending in [.png], never in [.jpg], whatever the extension of the
    file; a file [stem + ext] with a four-character extension is listed
    as [stem + '.png'].  [test_path] plays no part. *)
Theorem load_test_list_paths (listdir : string -> Result (list string))
    (test_path data_root : string) (images : list string) :
  Dataset.load_test_list listdir test_path data_root = Ok images ->
  let img_root := (data_root ++ "test_new" ++ "/test_DC/")%string in
  exists img_files,
    listdir img_root = Ok img_files /\
    length images = length img_files /\
    Forall (fun p => prefix img_root p = true /\
                     Dataset.endswith ".png" p = true /\
                     Dataset.endswith ".jpg" p = false) images /\
    (forall stem ext,
        String.length ext = 4%nat ->
        In (stem ++ ext)%string img_files ->
        In (img_root ++ stem ++ ".png")%string images).
Proof.
  intros H. cbn zeta.
  apply load_test_list_inv in H as (img_files & Hl & ->).
  exists img_files. split; [exact Hl|]. split; [apply length_map|]. split.
  - apply Forall_forall. intros p Hp.
    apply in_map_iff in Hp as (img & <- & _).
    split; [apply prefix_append|].
    rewrite <- DatasetFacts.append_assoc.
    split; [apply DatasetFacts.endswith_append | apply DatasetFacts.png_is_not_jpg].
  - intros stem ext Hlen Hin.
    apply in_map_iff. exists (stem ++ ext)%string. split; [|exact Hin].
    rewrite (drop_last4_app stem ext Hlen). reflexivity.
Qed.

Lemma load_test_list_paths_witness :
  exists images,
    Dataset.load_test_list listdir_test "ignored" "data/" = Ok images /\
    length images = 2%nat /\
    In "data/test_new/test_DC/a.png"%string images.
Proof.
  destruct (Dataset.load_test_list listdir_test "ignored" "data/")
    as [images|e] eqn:E; [|vm_compute in E; discriminate].
  exists images. split; [reflexivity|].
  destruct (load_test_list_paths listdir_test "ignored" "data/" images E)
    as (img_files & Hl & Hlen & _ & Hin).
  vm_compute in Hl. injection Hl as <-.
  split; [exact Hlen|].
  apply (Hin "a" ".jpg")%string; [reflexivity | left; reflexivity].
Defined.

(** X19. [img[:-4]] as the two loaders use it: it removes a four-character
    extension exactly, so a file that already carries the extension of
    its stanza is listed under its own name, [img_root + img]; a name of
    at most four characters leaves nothing, and the path is the directory
    followed by the bare extension. *)
Theorem drop_last4_extension (img_root stem ext img : string) :
  (String.length ext = 4%nat ->
   Dataset.drop_last4 (stem ++ ext) = stem /\
   Dataset.image_path img_root (stem ++ ext) ext = (img_root ++ stem ++ ext)%string)
  /\
  ((String.length img <= 4)%nat ->
   Dataset.drop_last4 img = EmptyString /\
   Dataset.image_path img_root img ext = (img_root ++ ext)%string).
Proof.
  split.
  - intros Hlen.
    assert (E : Dataset.drop_last4 (stem ++ ext) = stem).
    { unfold Dataset.drop_last4.
      rewrite DatasetFacts.length_append, Hlen, Nat.add_sub.
      apply substring_prefix. }
    split; [exact E|]. unfold Dataset.image_path. rewrite E. reflexivity.
  - intros Hlen.
    assert (E : Dataset.drop_last4 img = EmptyString).
    { unfold Dataset.drop_last4.
      replace (String.length img - 4)%nat with 0%nat by lia.
      apply substring_zero. }
    split; [exact E|]. unfold Dataset.image_path. rewrite E. reflexivity.
Qed.

Lemma drop_last4_extension_witness :
  Dataset.drop_last4 ("100-1" ++ ".png") = "100-1"%string /\
  Dataset.drop_last4 "png" = EmptyString.
Proof.
  split.
  - apply (proj1 (drop_last4_extension "data/" "100-1" ".png" "png")).
    reflexivity.
  - apply (proj2 (drop_last4_extension "data/" "100-1" ".png" "png")).
    cbn [String.length]. lia.
Defined.

(* ------------------------------------------------------------------ *)
(** ** [DecoderC]: the constructed blocks and what construction needs *)

(** X21. No block of a constructed decoder uses stochastic depth: with
    the default [drop_path_rate = 0.] every entry of [dpr] is zero, so
    each block gets [nn.Identity()] for [drop_path], never [DropPath]. *)
Theorem DecoderC_blocks_have_no_drop_path (img : Z)
    (embed_dims num_heads depths : list Z) (qk_ratio : Z) (sr_ratios : list Z)
    (d : DecoderC.t) :
  DecoderC.init img embed_dims num_heads depths qk_ratio sr_ratios = Ok d ->
  Forall (fun blk => Block.drop_path blk = false)
         (DecoderC.blocks_c d ++ DecoderC.blocks_d d).
Proof.
  unfold DecoderC.init. intros H.
  peel H e0 He0. peel H e1 He1. peel H e2 He2. peel H e3 He3.
  peel H pb Hpb. peel H pc Hpc. peel H pd Hpd.
  peel H h2 Hh2. peel H s2 Hs2. peel H n1 Hn1. peel H n2 Hn2. peel H rc Hrc.
  peel H h3 Hh3. peel H s3 Hs3. peel H n3 Hn3. peel H n4 Hn4. peel H rd Hrd.
  peel H dpr Hdpr. apply linspace0_inv in Hdpr as [_ Hzero].
  peel H d0 Hd0. peel H d1 Hd1. peel H d2 Hd2.
  peel H bc Hbc. apply for_range_inv in Hbc as [_ Hbc].
  peel H d3 Hd3.
  peel H bd Hbd. apply for_range_inv in Hbd as [_ Hbd].
  inversion H; subst d; clear H. cbn [DecoderC.blocks_c DecoderC.blocks_d].
  assert (Hblk : forall name dim h (i : Z) qk sr blk,
             (dp <- getitem dpr i ;; Block.init name dim h dp qk sr) = Ok blk ->
             Block.drop_path blk = false).
  { intros name dim h i qk sr blk Hi.
    apply bind_Ok_inv in Hi as (dp & Hdp & Hi).
    apply getitem_In, Hzero in Hdp. subst dp.
    apply Block_init_inv in Hi as (at_ & _ & ->). reflexivity. }
  apply Forall_app. split.
  - eapply Forall_impl; [|exact Hbc]. cbn beta. intros blk (i & Hi).
    eapply Hblk, Hi.
  - eapply Forall_impl; [|exact Hbd]. cbn beta. intros blk (i & Hi).
    eapply Hblk, Hi.
Qed.

Lemma DecoderC_blocks_have_no_drop_path_witness :
  exists d,
    DecoderC.init_default 224 = Ok d /\
    Forall (fun blk => Block.drop_path blk = false)
           (DecoderC.blocks_c d ++ DecoderC.blocks_d d).
Proof.
  destruct (DecoderC.init_default 224) as [d|e] eqn:E;
    [|vm_compute in E; discriminate].
  exists d. split; [reflexivity|].
  exact (DecoderC_blocks_have_no_drop_path 224 DecoderC.default_embed_dims
           DecoderC.default_num_heads DecoderC.default_depths 1
           DecoderC.default_sr_ratios d E).
Defined.

(** X22. What the constructor checks, implicitly: a decoder is returned
    only if [sr_ratios[2]] and [sr_ratios[3]] are not zero (they divide
    the token counts), [num_heads[2]] and [num_heads[3]] are not negative
    (they are sizes of the position biases), neither [embed_dims[1]] nor
    [embed_dims[2]] lies in [0..3] (each is split over the four heads of a
    [CrossAttention]), and [sum(depths)] is not negative. *)
Theorem DecoderC_init_requirements (img : Z)
    (embed_dims num_heads depths : list Z) (qk_ratio : Z) (sr_ratios : list Z)
    (d : DecoderC.t) (e1 e2 h2 h3 s2 s3 : Z) :
  DecoderC.init img embed_dims num_heads depths qk_ratio sr_ratios = Ok d ->
  getitem embed_dims 1 = Ok e1 -> getitem embed_dims 2 = Ok e2 ->
  getitem num_heads 2 = Ok h2 -> getitem num_heads 3 = Ok h3 ->
  getitem sr_ratios 2 = Ok s2 -> getitem sr_ratios 3 = Ok s3 ->
  s2 <> 0 /\ s3 <> 0 /\ 0 <= h2 /\ 0 <= h3 /\
  ~ (0 <= e1 < 4) /\ ~ (0 <= e2 < 4) /\ 0 <= DecoderC.sum depths.
Proof.
  unfold DecoderC.init. intros H G1 G2 Gh2 Gh3 Gs2 Gs3.
  peel H e0 He0. peel H e1' He1. peel H e2' He2. peel H e3 He3.
  rewrite G1 in He1. rewrite G2 in He2.
  injection He1 as <-. injection He2 as <-.
  peel H pb Hpb. peel H pc Hpc. peel H pd Hpd.
  peel H h2' Hh2. peel H s2' Hs2.
  rewrite Gh2 in Hh2. rewrite Gs2 in Hs2.
  injection Hh2 as <-. injection Hs2 as <-.
  peel H n1 Hn1. apply floordiv_inv in Hn1 as [Hs2nz ->].
  peel H n2 Hn2. peel H rc Hrc. apply randn_inv in Hrc as [_ Hvc].
  peel H h3' Hh3. peel H s3' Hs3.
  rewrite Gh3 in Hh3. rewrite Gs3 in Hs3.
  injection Hh3 as <-. injection Hs3 as <-.
  peel H n3 Hn3. apply floordiv_inv in Hn3 as [Hs3nz ->].
  peel H n4 Hn4. peel H rd Hrd. apply randn_inv in Hrd as [_ Hvd].
  peel H dpr Hdpr. apply linspace0_inv in Hdpr as [Hsum _].
  clear H.
  apply PatchEmbed_init_inv in Hpc as (? & ? & _ & _ & ca2 & _ & Hca2).
  apply PatchEmbed_init_inv in Hpd as (? & ? & _ & _ & ca1 & _ & Hca1).
  apply CrossAttention_init_inv in Hca2 as (_ & Hq2 & _).
  apply CrossAttention_init_inv in Hca1 as (_ & Hq1 & _).
  inversion Hvc as [|? ? Hh2 _]. inversion Hvd as [|? ? Hh3 _].
  repeat (split; [assumption|]).
  split; [|split; [|assumption]].
  - intros Hr. apply Hq1. apply Z.div_small. exact Hr.
  - intros Hr. apply Hq2. apply Z.div_small. exact Hr.
Qed.

Lemma DecoderC_init_requirements_witness :
  exists d,
    DecoderC.init_default 224 = Ok d /\
    (2 <> 0 /\ 1 <> 0 /\ 0 <= 4 /\ 0 <= 8 /\
     ~ (0 <= 128 < 4) /\ ~ (0 <= 64 < 4) /\
     0 <= DecoderC.sum DecoderC.default_depths).
Proof.
  destruct (DecoderC.init_default 224) as [d|e] eqn:E;
    [|vm_compute in E; discriminate].
  exists d. split; [reflexivity|].
  apply (DecoderC_init_requirements 224 DecoderC.default_embed_dims
           DecoderC.default_num_heads DecoderC.default_depths 1
           DecoderC.default_sr_ratios d 128 64 4 8 2 1 E); reflexivity.
Defined.
